(** * SopsSecretGenerator: a shallow embedding of [main.go]

    The generator reads a descriptor, resolves its [envs] and [files]
    sources through the filesystem and the sops decryption call, stores
    every value base64-encoded in one [kvMap], and assembles a Secret.

    Go strings and byte slices are both sequences of bytes: they are
    modelled by [string] (a list of 8-bit [ascii]).  The Go map
    [kvMap = map[string]string] is a finite map without any order:
    [gmap string string]. *)

From Stdlib Require Import Ascii String NArith ZArith Lia List DecimalString.
From stdpp Require Import gmap strings list fin_maps.

Local Open Scope N_scope.

(** ** Errors

    Go [error] values as the program builds them: [errors.New],
    [errors.Errorf] and [fmt.Errorf] give a plain message,
    [errors.Wrapf] puts a message in front of a cause.  Errors of the
    external calls (file system, sops, yaml, json) are values of the same
    type. *)

Inductive error : Type :=
| errNew (msg : string)
| errWrap (cause : error) (msg : string).

(** The [Error()] method: a wrapped error prints as [msg: cause]. *)
Fixpoint Error (e : error) : string :=
  match e with
  | errNew msg => msg
  | errWrap cause msg => msg +:+ ": " +:+ Error cause
  end.

Inductive result (A : Type) : Type :=
| Ok (a : A)
| Err (e : error).
Arguments Ok {A} a.
Arguments Err {A} e.

(** ** The Go library functions the program calls *)

Module strings.

(** [strings.HasPrefix(s, prefix)]. *)
Fixpoint HasPrefix (s prefix : string) {struct prefix} : bool :=
  match prefix, s with
  | EmptyString, _ => true
  | String p prefix', String c s' =>
      if Ascii.eqb p c then HasPrefix s' prefix' else false
  | String _ _, EmptyString => false
  end.

(** [strings.Contains(s, substr)]. *)
Fixpoint Contains (s substr : string) : bool :=
  if HasPrefix s substr then true
  else match s with
       | EmptyString => false
       | String _ s' => Contains s' substr
       end.

(** [strings.HasSuffix(s, suffix)]. *)
Definition HasSuffix (s suffix : string) : bool :=
  let n := String.length s in
  let m := String.length suffix in
  if Nat.leb m n
  then String.eqb (String.substring (n - m) m s) suffix
  else false.

(** [strings.TrimPrefix(s, prefix)]. *)
Definition TrimPrefix (s prefix : string) : string :=
  if HasPrefix s prefix
  then String.substring (String.length prefix)
         (String.length s - String.length prefix) s
  else s.

(** [strings.TrimSuffix(s, suffix)]. *)
Definition TrimSuffix (s suffix : string) : string :=
  if HasSuffix s suffix
  then String.substring 0 (String.length s - String.length suffix) s
  else s.

(** [strings.Count(s, sep)] for a separator of one byte. *)
Fixpoint Count (s : string) (sep : ascii) : nat :=
  match s with
  | EmptyString => 0
  | String c s' => (if Ascii.eqb c sep then 1 else 0) + Count s' sep
  end.

(** The text before the first [sep] and the text after it, when [s]
    has one. *)
Fixpoint Cut (s : string) (sep : ascii) : option (string * string) :=
  match s with
  | EmptyString => None
  | String c s' =>
      if Ascii.eqb c sep then Some (EmptyString, s')
      else match Cut s' sep with
           | Some (before, after) => Some (String c before, after)
           | None => None
           end
  end.

(** [strings.Split(s, sep)] for a separator of one byte: all the
    pieces between separators, [Count s sep + 1] of them. *)
Fixpoint Split (s : string) (sep : ascii) : list string :=
  match s with
  | EmptyString => [EmptyString]
  | String c s' =>
      if Ascii.eqb c sep then EmptyString :: Split s' sep
      else match Split s' sep with
           | piece :: pieces => String c piece :: pieces
           | [] => [String c EmptyString]
           end
  end.

(** [strings.SplitN(s, sep, n)] for [n > 0] and a separator of one
    byte: at most [n] pieces, the last one the unsplit remainder.
    ([n = 0] gives no piece at all.) *)
Fixpoint SplitN (s : string) (sep : ascii) (n : nat) : list string :=
  match n with
  | O => []
  | S O => [s]
  | S n' =>
      match Cut s sep with
      | Some (before, after) => before :: SplitN after sep n'
      | None => [s]
      end
  end.

(** [strings.LastIndex(s, sep)] for one byte, as the text after the
    last [sep] ([None] when there is no [sep]). *)
Fixpoint afterLast (s : string) (sep : ascii) : option string :=
  match s with
  | EmptyString => None
  | String c s' =>
      match afterLast s' sep with
      | Some t => Some t
      | None => if Ascii.eqb c sep then Some s' else None
      end
  end.

End strings.

Module path.

(** The loop of [path.Base] that strips trailing slashes. *)
Fixpoint stripTrailingSlashes (p : string) : string :=
  match p with
  | EmptyString => EmptyString
  | String c p' =>
      match stripTrailingSlashes p' with
      | EmptyString => if Ascii.eqb c "/" then EmptyString
                       else String c EmptyString
      | t => String c t
      end
  end.

(** [path.Base(path)]: the last element of the path; ["."] for the
    empty path, ["/"] for a path of slashes only. *)
Definition Base (p : string) : string :=
  match p with
  | EmptyString => "."
  | _ =>
      let p1 := stripTrailingSlashes p in
      let p2 := match strings.afterLast p1 "/" with
                | Some t => t
                | None => p1
                end in
      match p2 with
      | EmptyString => "/"
      | _ => p2
      end
  end.

End path.

Module strconv.

(** The [%d] verb of [fmt] on a non-negative [int]. *)
Definition Itoa (n : nat) : string :=
  NilZero.string_of_uint (Nat.to_uint n).

End strconv.

(** The numeric value of a byte, and the byte of a value below 256. *)
Definition byteN (c : ascii) : N := N_of_ascii c.
Definition byte (n : N) : ascii := ascii_of_N n.

(** [len(s)]. *)
Fixpoint len (s : string) : N :=
  match s with
  | EmptyString => 0
  | String _ s' => N.succ (len s')
  end.

(** [s[n:]]. *)
Fixpoint skip (n : nat) (s : string) : string :=
  match n, s with
  | O, _ => s
  | S n', String _ s' => skip n' s'
  | S _, EmptyString => EmptyString
  end.

Module base64.

(** [encodeStd]: the alphabet of the standard encoding. *)
Definition encodeStd : string :=
  "ABCDEFGHIJKLMNOPQRSTUVWXYZabcdefghijklmnopqrstuvwxyz0123456789+/".

(** [StdPadding]. *)
Definition padChar : ascii := "=".

(** [enc.encode[i]]. *)
Definition encode (i : N) : ascii :=
  match String.get (N.to_nat i) encodeStd with
  | Some c => c
  | None => padChar
  end.

(** [StdEncoding.EncodeToString(src)]: three source bytes make one
    24-bit value, written as four characters of the alphabet; the
    last one or two bytes are written as two or three characters and
    padded to four. *)
Fixpoint EncodeToString (src : string) : string :=
  match src with
  | String c0 (String c1 (String c2 rest)) =>
      let val := N.lor (N.lor (N.shiftl (byteN c0) 16)
                              (N.shiftl (byteN c1) 8)) (byteN c2) in
      String (encode (N.land (N.shiftr val 18) 0x3F))
        (String (encode (N.land (N.shiftr val 12) 0x3F))
           (String (encode (N.land (N.shiftr val 6) 0x3F))
              (String (encode (N.land val 0x3F))
                 (EncodeToString rest))))
  | String c0 (String c1 EmptyString) =>
      let val := N.lor (N.shiftl (byteN c0) 16) (N.shiftl (byteN c1) 8) in
      String (encode (N.land (N.shiftr val 18) 0x3F))
        (String (encode (N.land (N.shiftr val 12) 0x3F))
           (String (encode (N.land (N.shiftr val 6) 0x3F))
              (String padChar EmptyString)))
  | String c0 EmptyString =>
      let val := N.shiftl (byteN c0) 16 in
      String (encode (N.land (N.shiftr val 18) 0x3F))
        (String (encode (N.land (N.shiftr val 12) 0x3F))
           (String padChar (String padChar EmptyString)))
  | EmptyString => EmptyString
  end.

(** [enc.decodeMap[c]]: the index of [c] in the alphabet, [None]
    (0xFF in Go) for a byte outside it. *)
Fixpoint indexIn (c : ascii) (alphabet : string) (i : N) : option N :=
  match alphabet with
  | EmptyString => None
  | String a alphabet' =>
      if Ascii.eqb a c then Some i else indexIn c alphabet' (N.succ i)
  end.

Definition decodeMap (c : ascii) : option N := indexIn c encodeStd 0.

(** The three bytes of a 24-bit value. *)
Definition byte2 (val : N) : ascii := byte (N.land (N.shiftr val 16) 0xFF).
Definition byte1 (val : N) : ascii := byte (N.land (N.shiftr val 8) 0xFF).
Definition byte0 (val : N) : ascii := byte (N.land val 0xFF).

(** [StdEncoding.DecodeString(s)] on text without line breaks
    (RFC 4648, section 4): four characters give three bytes, and the
    last four may end in one or two padding characters.  [None] is a
    [CorruptInputError]. *)
Fixpoint DecodeString (s : string) : option string :=
  match s with
  | EmptyString => Some EmptyString
  | String c0 (String c1 (String c2 (String c3 rest))) =>
      match decodeMap c0, decodeMap c1 with
      | Some s0, Some s1 =>
          let val01 := N.lor (N.shiftl s0 18) (N.shiftl s1 12) in
          if Ascii.eqb c2 padChar then
            if Ascii.eqb c3 padChar && String.eqb rest EmptyString
            then Some (String (byte2 val01) EmptyString)
            else None
          else
            match decodeMap c2 with
            | Some s2 =>
                let val012 := N.lor val01 (N.shiftl s2 6) in
                if Ascii.eqb c3 padChar then
                  if String.eqb rest EmptyString
                  then Some (String (byte2 val012)
                               (String (byte1 val012) EmptyString))
                  else None
                else
                  match decodeMap c3 with
                  | Some s3 =>
                      let val := N.lor val012 s3 in
                      match DecodeString rest with
                      | Some tail =>
                          Some (String (byte2 val)
                                  (String (byte1 val)
                                     (String (byte0 val) tail)))
                      | None => None
                      end
                  | None => None
                  end
            | None => None
            end
      | _, _ => None
      end
  | _ => None
  end.

(** The six-bit digit of [val] at bit [n]. *)
Definition digit (val n : N) : N := N.land (N.shiftr val n) 0x3F.

(** The test that [decodeMap] gives back digit [i] from its
    character, and that the character is not the padding. *)
Definition digitOk (i : N) : bool :=
  match decodeMap (encode i) with
  | Some j => (j =? i) && negb (Ascii.eqb (encode i) padChar)
  | None => false
  end.

End base64.

Module utf8.

(** [utf8.RuneError], U+FFFD. *)
Definition RuneError : N := 0xFFFD.

Definition inRange (lo hi b : N) : bool := (lo <=? b) && (b <=? hi).

(** A continuation byte's six payload bits appended to [r]. *)
Definition cont (r b : N) : N := N.lor (N.shiftl r 6) (N.land b 0x3F).

(** [utf8.DecodeRune(p)]: the first rune of [p] and its width in
    bytes; [(RuneError, 1)] for an encoding that is invalid (a stray
    or missing continuation byte, an overlong form, a surrogate, a
    value above U+10FFFF), [(RuneError, 0)] for empty input. *)
Definition DecodeRune (p : string) : N * nat :=
  match p with
  | EmptyString => (RuneError, 0%nat)
  | String c0 p1 =>
      let b0 := byteN c0 in
      if b0 <? 0x80 then (b0, 1%nat)
      else if inRange 0xC2 0xDF b0 then
        match p1 with
        | String c1 _ =>
            if inRange 0x80 0xBF (byteN c1)
            then (cont (N.land b0 0x1F) (byteN c1), 2%nat)
            else (RuneError, 1%nat)
        | _ => (RuneError, 1%nat)
        end
      else if inRange 0xE0 0xEF b0 then
        let lo := if b0 =? 0xE0 then 0xA0 else 0x80 in
        let hi := if b0 =? 0xED then 0x9F else 0xBF in
        match p1 with
        | String c1 (String c2 _) =>
            if inRange lo hi (byteN c1) && inRange 0x80 0xBF (byteN c2)
            then (cont (cont (N.land b0 0x0F) (byteN c1)) (byteN c2), 3%nat)
            else (RuneError, 1%nat)
        | _ => (RuneError, 1%nat)
        end
      else if inRange 0xF0 0xF4 b0 then
        let lo := if b0 =? 0xF0 then 0x90 else 0x80 in
        let hi := if b0 =? 0xF4 then 0x8F else 0xBF in
        match p1 with
        | String c1 (String c2 (String c3 _)) =>
            if inRange lo hi (byteN c1) && inRange 0x80 0xBF (byteN c2)
               && inRange 0x80 0xBF (byteN c3)
            then (cont (cont (cont (N.land b0 0x07) (byteN c1)) (byteN c2))
                    (byteN c3), 4%nat)
            else (RuneError, 1%nat)
        | _ => (RuneError, 1%nat)
        end
      else (RuneError, 1%nat)
  end.

(** The loop of [utf8.Valid]: every rune of [p] decodes, none as the
    one-byte [RuneError].  Each turn consumes at least one byte, so
    [fuel = len(p)] turns are enough. *)
Fixpoint validLoop (fuel : nat) (p : string) : bool :=
  match p with
  | EmptyString => true
  | String _ _ =>
      match fuel with
      | O => false
      | S fuel' =>
          let '(r, size) := DecodeRune p in
          if (r =? RuneError) && Nat.leb size 1 then false
          else validLoop fuel' (skip size p)
      end
  end.

(** [utf8.Valid(p)]. *)
Definition Valid (p : string) : bool := validLoop (String.length p) p.

End utf8.

Module unicode.

(** [unicode.IsSpace(r)]: the Latin-1 spaces, and the code points of
    the Unicode White_Space property above U+00FF. *)
Definition IsSpace (r : N) : bool :=
  if r <=? 0xFF then
    (r =? 0x09) || (r =? 0x0A) || (r =? 0x0B) || (r =? 0x0C)
    || (r =? 0x0D) || (r =? 0x20) || (r =? 0x85) || (r =? 0xA0)
  else
    (r =? 0x1680) || utf8.inRange 0x2000 0x200A r
    || (r =? 0x2028) || (r =? 0x2029) || (r =? 0x202F)
    || (r =? 0x205F) || (r =? 0x3000).

End unicode.

Module bytes.

(** The loop of [indexFunc(s, f, false)] inside [bytes.TrimLeftFunc]:
    runes are dropped from the front while [f] holds. *)
Fixpoint trimLoop (fuel : nat) (s : string) (f : N -> bool) : string :=
  match s with
  | EmptyString => EmptyString
  | String _ _ =>
      match fuel with
      | O => s
      | S fuel' =>
          let '(r, wid) := utf8.DecodeRune s in
          if f r then trimLoop fuel' (skip wid s) f else s
      end
  end.

(** [bytes.TrimLeftFunc(s, f)]. *)
Definition TrimLeftFunc (s : string) (f : N -> bool) : string :=
  trimLoop (String.length s) s f.

End bytes.

Module utfbom.

(** [utfbom.SkipOnly(rd)]: the reader without its leading byte-order
    mark.  The marks are tried in the library's order: UTF-32 (big
    then little endian), UTF-8, UTF-16 (big then little endian). *)
Definition SkipOnly (content : string) : string :=
  match List.map byteN (list_ascii_of_string (String.substring 0 4 content)) with
  | [0x00; 0x00; 0xFE; 0xFF] => skip 4 content
  | [0xFF; 0xFE; 0x00; 0x00] => skip 4 content
  | 0xEF :: 0xBB :: 0xBF :: _ => skip 3 content
  | 0xFE :: 0xFF :: _ => skip 2 content
  | 0xFF :: 0xFE :: _ => skip 2 content
  | _ => content
  end.

End utfbom.

Module bufio.

(** [bufio.MaxScanTokenSize]: the size of the scanner's buffer. *)
Definition MaxScanTokenSize : N := 64 * 1024.

(** [bufio.ErrTooLong]. *)
Definition ErrTooLong : error := errNew "bufio.Scanner: token too long".

(** The pieces of the input between newlines.  As in [ScanLines],
    the text after the last newline is a piece only when it is not
    empty. *)
Fixpoint rawLines (s : string) : list string :=
  match s with
  | EmptyString => []
  | String c s' =>
      if Ascii.eqb c "010" then EmptyString :: rawLines s'
      else match rawLines s' with
           | l :: ls => String c l :: ls
           | [] => [String c EmptyString]
           end
  end.

(** [dropCR]: a line without its trailing carriage return. *)
Fixpoint dropCR (line : string) : string :=
  match line with
  | EmptyString => EmptyString
  | String c EmptyString =>
      if Ascii.eqb c "013" then EmptyString else line
  | String c line' => String c (dropCR line')
  end.

(** What [for scanner.Scan() { ... scanner.Bytes() ... }] and then
    [scanner.Err()] give for a scanner with the [ScanLines] split
    function: the lines in order, up to the first piece that fills
    the buffer of [MaxScanTokenSize] bytes without a newline in it;
    there scanning stops with [ErrTooLong]. *)
Fixpoint scan (pieces : list string) : list string * option error :=
  match pieces with
  | [] => ([], None)
  | piece :: pieces' =>
      if MaxScanTokenSize <=? len piece then ([], Some ErrTooLong)
      else let '(lines, err) := scan pieces' in (dropCR piece :: lines, err)
  end.

Definition Scanner (content : string) : list string * option error :=
  scan (rawLines content).

End bufio.

(** ** The data of [main.go] *)

Definition apiVersion : string := "kustomize.meiqia.com/v1beta1".
Definition kind : string := "SopsSecretGenerator".

(** [type kvMap map[string]string]. *)
Abbreviation kvMap := (gmap string string).

Record TypeMeta : Type := {
  APIVersion : string;
  Kind : string
}.

Record ObjectMeta : Type := {
  Name : string;
  Namespace : string;
  Labels : kvMap;
  Annotations : kvMap
}.

Record SopsSecretGenerator : Type := {
  inputTypeMeta : TypeMeta;
  inputObjectMeta : ObjectMeta;
  EnvSources : list string;
  FileSources : list string;
  Behavior : string;
  DisableNameSuffixHash : bool;
  inputType : string
}.

Record Secret : Type := {
  secretTypeMeta : TypeMeta;
  secretObjectMeta : ObjectMeta;
  Data : kvMap;
  secretType : string
}.

(** ** The calls into other packages

    What the program gets from the file system, from sops and from the
    yaml and json packages is not decided by [main.go]; every function
    below takes these calls as given.  The three file-name tests are
    those of [sopscommon]. *)

Class External : Type := {
  (** [ioutil.ReadFile(fn)] *)
  ReadFile : string -> result string;
  (** [sopsdecrypt.Data(content, format)] *)
  sopsdecryptData : string -> string -> result string;
  IsYAMLFile : string -> bool;
  IsJSONFile : string -> bool;
  IsEnvFile : string -> bool;
  (** [yaml.Unmarshal(content, &d)] and [json.Unmarshal(content, &d)]
      into a [kvMap] *)
  yamlUnmarshalMap : string -> result kvMap;
  jsonUnmarshalMap : string -> result kvMap;
  (** [yaml.Unmarshal(content, &input)] into the descriptor *)
  yamlUnmarshalInput : string -> result SopsSecretGenerator;
  (** [yaml.Marshal(secret)] *)
  yamlMarshal : Secret -> result string
}.

(** ** State

    [data] is the map that [parseInput] makes and that every parser
    writes to through the [data kvMap] argument (a Go map is a
    reference: all of them write to the same map).  [reads] and
    [stores] record, oldest first, the paths given to
    [ioutil.ReadFile] and the keys assigned by [data[k] = v]. *)

Record world : Type := World {
  data : kvMap;
  reads : list string;
  stores : list string
}.

Definition M (A : Type) : Type := world -> result A * world.

Definition ret {A} (a : A) : M A := fun w => (Ok a, w).

Definition fail {A} (e : error) : M A := fun w => (Err e, w).

Definition bind {A B} (m : M A) (k : A -> M B) : M B :=
  fun w =>
    match m w with
    | (Ok a, w') => k a w'
    | (Err e, w') => (Err e, w')
    end.

(** [x, err := m; if err != nil { return err }; k]. *)
Notation "'try' x := m 'in' k" := (bind m (fun x => k))
  (at level 10, x pattern, m at level 100, k at level 200, only parsing).

(** A call that touches neither the map nor the file system. *)
Definition lift {A} (r : result A) : M A := fun w => (r, w).

(** [errors.Wrapf(err, msg)] on the error of [m]. *)
Definition wrapf {A} (m : M A) (msg : string) : M A :=
  fun w =>
    match m w with
    | (Ok a, w') => (Ok a, w')
    | (Err e, w') => (Err (errWrap e msg), w')
    end.

(** [data[k] = v]. *)
Definition store (k v : string) : M unit :=
  fun w => (Ok tt, {| data := <[k := v]> (data w);
                      reads := reads w;
                      stores := stores w ++ [k] |}).

(** [data := make(kvMap)]. *)
Definition makeData : M unit :=
  fun w => (Ok tt, {| data := ∅; reads := reads w; stores := stores w |}).

Definition getData : M kvMap := fun w => (Ok (data w), w).

(** [for _, x := range xs { err := body(x); if err != nil { return err } }]. *)
Fixpoint forEach {A} (xs : list A) (body : A -> M unit) : M unit :=
  match xs with
  | [] => ret tt
  | x :: xs' => try _ := body x in forEach xs' body
  end.

(** The world [w] with the entries of [b] under those of its map, and
    with older entries in front of its two logs. *)
Definition extend (b : kvMap) (r0 s0 : list string) (w : world) : world :=
  {| data := data w ∪ b; reads := r0 ++ reads w; stores := s0 ++ stores w |}.

(** A computation is [framed] when it only adds to the world: entries
    already in the map that it does not overwrite stay, the result does
    not depend on them, and both logs only grow at the end. *)
Definition framed {A} (m : M A) : Prop :=
  forall b r0 s0 w,
    m (extend b r0 s0 w) = (fst (m w), extend b r0 s0 (snd (m w))).

(** A computation is [quiet] when it reads no file. *)
Definition quiet {A} (m : M A) : Prop :=
  forall w, reads (snd (m w)) = reads w.

Definition emptyWorld : world := {| data := ∅; reads := []; stores := [] |}.

(** The world after one more call of [ioutil.ReadFile]. *)
Definition logRead (fn : string) (w : world) : world :=
  {| data := data w; reads := reads w ++ [fn]; stores := stores w |}.

(** The keys of a log of stores in the order in which each was stored
    for the first time. *)
Fixpoint insertionOrder (keys : list string) : list string :=
  match keys with
  | [] => []
  | k :: keys' =>
      k :: List.filter (fun k' => negb (String.eqb k' k)) (insertionOrder keys')
  end.

Section Program.

Context `{External}.

Definition readFile (fn : string) : M string :=
  fun w => (ReadFile fn, {| data := data w;
                            reads := reads w ++ [fn];
                            stores := stores w |}).

Definition formatForPath (path : string) : string :=
  if IsYAMLFile path then "yaml"
  else if IsJSONFile path then "json"
  else if IsEnvFile path then "dotenv"
  else "binary".

Definition parseFileName (source : string) : result (string * string) :=
  match strings.Split source "=" with
  | [_] => Ok (path.Base source, source)
  | [key; fn] =>
      if String.eqb key "" then
        Err (errNew ("key name for file path "
                     +:+ strings.TrimPrefix source "=" +:+ " missing"))
      else if String.eqb fn "" then
        Err (errNew ("file path for key name "
                     +:+ strings.TrimSuffix source "=" +:+ " missing"))
      else Ok (key, fn)
  | _ => Err (errNew "key names or file paths cannot contain '='")
  end.

Definition parseFileSource (source : string) : M unit :=
  try (key, fn) := lift (parseFileName source) in
  try content := readFile fn in
  try decrypted := lift (sopsdecryptData content (formatForPath source)) in
  store key (base64.EncodeToString decrypted).

Definition parseFileSources (sources : list string) : M unit :=
  forEach sources (fun source =>
    wrapf (parseFileSource source) ("file source " +:+ source)).

Definition parseDotEnvLine (line : string) : M unit :=
  if negb (utf8.Valid line) then fail (errNew "invalid utf8 sequence")
  else
    let line := bytes.TrimLeftFunc line unicode.IsSpace in
    match line with
    | EmptyString => ret tt
    | String c _ =>
        if Ascii.eqb c "#" then ret tt
        else
          match strings.SplitN line "=" 2 with
          | [k; v] => store k (base64.EncodeToString v)
          | _ => fail (errNew ("requires value: " +:+ line))
          end
    end.

(** The body of the scanning loop of [parseDotEnvContent], from line
    number [lineNum] on. *)
Fixpoint parseDotEnvLines (lineNum : nat) (lines : list string) : M unit :=
  match lines with
  | [] => ret tt
  | line :: lines' =>
      try _ := wrapf (parseDotEnvLine line)
                 ("line " +:+ strconv.Itoa lineNum) in
      parseDotEnvLines (S lineNum) lines'
  end.

(** The scanner reads the content without its byte-order mark; the
    loop takes the lines it gives, and [scanner.Err()] is returned
    when the loop is through. *)
Definition parseDotEnvContent (content : string) : M unit :=
  let '(lines, scannerErr) := bufio.Scanner (utfbom.SkipOnly content) in
  try _ := parseDotEnvLines 0 lines in
  match scannerErr with
  | Some err => fail err
  | None => ret tt
  end.

(** [for k, v := range d { data[k] = base64(v) }].  Go visits the
    entries of [d] in no fixed order; [map_to_list d] is one of
    them. *)
Definition storeAll (d : kvMap) : M unit :=
  forEach (map_to_list d) (fun kv =>
    store (fst kv) (base64.EncodeToString (snd kv))).

Definition parseYAMLContent (content : string) : M unit :=
  try d := lift (yamlUnmarshalMap content) in
  storeAll d.

Definition parseJSONContent (content : string) : M unit :=
  try d := lift (jsonUnmarshalMap content) in
  storeAll d.

Definition parseEnvSource (source : string) : M unit :=
  try content := readFile source in
  let format := formatForPath source in
  try decrypted := lift (sopsdecryptData content format) in
  if String.eqb format "dotenv" then parseDotEnvContent decrypted
  else if String.eqb format "yaml" then parseYAMLContent decrypted
  else if String.eqb format "json" then parseJSONContent decrypted
  else fail (errNew "unknown file format, use dotenv, yaml or json").

Definition parseEnvSources (sources : list string) : M unit :=
  forEach sources (fun source =>
    wrapf (parseEnvSource source) ("env source " +:+ source)).

(** On an error the caller gets [nil, err]: the map is not part of
    the result. *)
Definition parseInput (input : SopsSecretGenerator) : M kvMap :=
  try _ := makeData in
  try _ := parseEnvSources (EnvSources input) in
  try _ := parseFileSources (FileSources input) in
  getData.

Definition needsHashKey : string := "kustomize.config.k8s.io/needs-hash".
Definition behaviorKey : string := "kustomize.config.k8s.io/behavior".

(** The annotations of the Secret: a copy of the descriptor's, then
    the two generated ones. *)
Definition makeAnnotations (sopsSecret : SopsSecretGenerator) : kvMap :=
  let annotations :=
    map_fold (fun k v (annotations : kvMap) => <[k := v]> annotations)
      ∅ (Annotations (inputObjectMeta sopsSecret)) in
  let annotations :=
    if negb (DisableNameSuffixHash sopsSecret)
    then <[needsHashKey := "true"]> annotations
    else annotations in
  if negb (String.eqb (Behavior sopsSecret) "")
  then <[behaviorKey := Behavior sopsSecret]> annotations
  else annotations.

Definition generateSecret (sopsSecret : SopsSecretGenerator) : M Secret :=
  try data := parseInput sopsSecret in
  ret {| secretTypeMeta := {| APIVersion := "v1"; Kind := "Secret" |};
         secretObjectMeta :=
           {| Name := Name (inputObjectMeta sopsSecret);
              Namespace := Namespace (inputObjectMeta sopsSecret);
              Labels := Labels (inputObjectMeta sopsSecret);
              Annotations := makeAnnotations sopsSecret |};
         Data := data;
         secretType := inputType sopsSecret |}.

Definition readInput (fn : string) : M SopsSecretGenerator :=
  try content := readFile fn in
  try input := lift (yamlUnmarshalInput content) in
  if negb (String.eqb (APIVersion (inputTypeMeta input)) apiVersion)
     || negb (String.eqb (Kind (inputTypeMeta input)) kind)
  then fail (errNew ("input must be apiVersion " +:+ apiVersion
                     +:+ ", kind " +:+ kind))
  else if String.eqb (Name (inputObjectMeta input)) ""
  then fail (errNew "input must contain metadata.name value")
  else ret input.

Definition processSopsSecretGenerator (fn : string) : M string :=
  try input := readInput fn in
  try secret := generateSecret input in
  try output := lift (yamlMarshal secret) in
  ret output.

(** ** Sources in processing order *)

(** A declared source: an entry of [envs] or an entry of [files]. *)
Inductive source : Type :=
| envSource (s : string)
| fileSource (s : string).

Definition sourceName (src : source) : string :=
  match src with
  | envSource s => s
  | fileSource s => s
  end.

(** The text that [errors.Wrapf] puts in front of a source's error. *)
Definition sourceLabel (src : source) : string :=
  match src with
  | envSource s => "env source " +:+ s
  | fileSource s => "file source " +:+ s
  end.

(** The body of the loop of [parseEnvSources] or of
    [parseFileSources], before the wrap. *)
Definition resolveSource (src : source) : M unit :=
  match src with
  | envSource s => parseEnvSource s
  | fileSource s => parseFileSource s
  end.

Definition resolve (src : source) : M unit :=
  wrapf (resolveSource src) (sourceLabel src).

(** The sources of a descriptor in the order [parseInput] takes
    them: all of [envs], then all of [files]. *)
Definition declared (input : SopsSecretGenerator) : list source :=
  List.map envSource (EnvSources input)
  ++ List.map fileSource (FileSources input).

(** The pairs a source yields: the map it leaves when it is resolved
    on its own into an empty map. *)
Definition yield (src : source) : result kvMap :=
  match resolve src emptyWorld with
  | (Ok _, w) => Ok (data w)
  | (Err e, _) => Err e
  end.

(** No two of the sources yield a pair for the same key. *)
Definition disjointYields (srcs : list source) : Prop :=
  forall i j src src' y y' K,
    i <> j -> srcs !! i = Some src -> srcs !! j = Some src' ->
    yield src = Ok y -> yield src' = Ok y' ->
    is_Some (y !! K) -> y' !! K = None.

End Program.

(** ** The command

    [os.Args] is the list of arguments with the name of the program
    in front.  [main] ends the process through [os.Exit] or by
    returning; what is left of a run is its exit code and what it wrote
    to the two streams.  Whether the cause of an error is a
    [sops.UserError], and the text of its [UserError()] method, is
    decided by sops: it is taken as given. *)

(** [errors.Cause]: the innermost error of a chain of wraps. *)
Fixpoint Cause (e : error) : error :=
  match e with
  | errNew msg => errNew msg
  | errWrap cause _ => Cause cause
  end.

Record outcome : Type := Outcome {
  exitCode : nat;
  stdout : string;
  stderr : string
}.

Section Main.

Context `{External}.
Variable sopsUserError : error -> option string.

Definition main (osArgs : list string) : world -> outcome * world :=
  fun w =>
    match osArgs with
    | [_; fn] =>
        match processSopsSecretGenerator fn w with
        | (Err err, w') =>
            match sopsUserError (Cause err) with
            | Some userError =>
                ({| exitCode := 2; stdout := "";
                    stderr := "Error: " +:+ Error err +:+ String "010" ""
                              +:+ userError +:+ String "010" "" |}, w')
            | None =>
                ({| exitCode := 2; stdout := "";
                    stderr := "Error: " +:+ Error err +:+ String "010" "" |},
                 w')
            end
        | (Ok output, w') =>
            ({| exitCode := 0; stdout := output; stderr := "" |}, w')
        end
    | _ =>
        ({| exitCode := 1; stdout := "";
            stderr := "usage: SopsSecretGenerator FILE" +:+ String "010" "" |},
         w)
    end.

(** The file that a source reads: an [envs] entry its own path, a
    [files] entry the path of its specification. *)
Definition readPath (src : source) : result string :=
  match src with
  | envSource s => Ok s
  | fileSource s =>
      match parseFileName s with
      | Ok (_, fn) => Ok fn
      | Err e => Err e
      end
  end.

End Main.

(** Every value of the map is the encoding of some bytes. *)
Definition encoded (m : kvMap) : Prop :=
  forall K v, m !! K = Some v -> exists V, v = base64.EncodeToString V.

(** A computation [keepsEncoded] when it leaves a map of encoded
    values a map of encoded values. *)
Definition keepsEncoded {A} (m : M A) : Prop :=
  forall w, encoded (data w) -> encoded (data (snd (m w))).




(** ** A concrete setting

    A small file system, a sops that takes every file as it is, and
    the file-name tests of [sopscommon]; the yaml and json documents
    are a table of the few texts that the examples use. *)

Module Demo.

Definition nl : string := String "010" "".
Definition tab : string := String "009" "".

Fixpoint repeatString (n : nat) (s : string) : string :=
  match n with
  | O => ""
  | S n' => s +:+ repeatString n' s
  end.

(** A line of [MaxScanTokenSize] bytes. *)
Definition tooLongLine : string :=
  repeatString 256 (repeatString 256 "A").

Definition descriptor (name : string) (annotations : kvMap)
    (envs files : list string) (behavior : string) (disable : bool)
    : SopsSecretGenerator :=
  {| inputTypeMeta := {| APIVersion := apiVersion; Kind := kind |};
     inputObjectMeta := {| Name := name; Namespace := ""; Labels := ∅;
                           Annotations := annotations |};
     EnvSources := envs;
     FileSources := files;
     Behavior := behavior;
     DisableNameSuffixHash := disable;
     inputType := "" |}.

(** The example of the specification: one dotenv file and one binary
    file; the second descriptor adds a yaml file and a keyed file that
    write over pairs of the first. *)
Definition example : SopsSecretGenerator :=
  descriptor "example" ∅ ["a.env"] ["b.bin"] "" false.

Definition overwriting : SopsSecretGenerator :=
  descriptor "overwriting" ∅ ["a.env"; "x.yaml"] ["b.bin"; "Z=a.env"] "" false.

(** Two descriptors that store the same two pairs in opposite
    orders. *)
Definition firstAthenB : SopsSecretGenerator :=
  descriptor "order" ∅ ["ab.env"] [] "" false.

Definition firstBthenA : SopsSecretGenerator :=
  descriptor "order" ∅ ["ba.env"] [] "" false.

Definition swapped1 : SopsSecretGenerator :=
  descriptor "swap" ∅ ["a.env"; "ab.env"] [] "" false.

Definition swapped2 : SopsSecretGenerator :=
  descriptor "swap" ∅ ["ab.env"; "a.env"] [] "" false.

(** A descriptor whose own annotations use the two generated keys. *)
Definition annotated : SopsSecretGenerator :=
  descriptor "annotated"
    {[ "kustomize.config.k8s.io/needs-hash" := "true";
       "kustomize.config.k8s.io/behavior" := "merge";
       "team" := "infra" ]}
    [] [] "" true.

Definition hashed : SopsSecretGenerator :=
  descriptor "hashed" {[ "team" := "infra" ]} [] [] "replace" false.

Definition wrongKind : SopsSecretGenerator :=
  {| inputTypeMeta := {| APIVersion := apiVersion; Kind := "Secret" |};
     inputObjectMeta := {| Name := "wrong"; Namespace := ""; Labels := ∅;
                           Annotations := ∅ |};
     EnvSources := ["a.env"];
     FileSources := ["b.bin"];
     Behavior := "";
     DisableNameSuffixHash := false;
     inputType := "" |}.

Definition tooLong : SopsSecretGenerator :=
  descriptor "long" ∅ ["big.env"; "a.env"] ["b.bin"] "" false.

Definition failing : SopsSecretGenerator :=
  descriptor "failing" ∅ ["a.env"; "tab.env"; "ab.env"] ["b.bin"] "" false.

Definition unreadable : SopsSecretGenerator :=
  descriptor "unreadable" ∅ ["missing.bin"] [] "" false.

(** The two bytes of the binary file of the example. *)
Definition twoBytes : string := String (byte 1) (String (byte 2) "").

(** A line with a key, a ['='] and a byte that is not UTF-8. *)
Definition notUTF8 : string := "K=" +:+ String (byte 0xFF) "".

(** What the failing descriptor leaves: the pair of [a.env] and the
    pair of line 0 of [tab.env], two files read. *)
Definition failingWorld : world :=
  {| data := {[ "FOO" := "YmFy"; "OK" := "MQ==" ]};
     reads := ["a.env"; "tab.env"];
     stores := ["FOO"; "OK"] |}.

Definition failingError : error :=
  errWrap (errWrap (errNew "requires value: FOO") "line 1")
    "env source tab.env".

Definition files : list (string * string) :=
  [ ("a.env", "FOO=bar" +:+ nl +:+ "#comment" +:+ nl);
    ("b.bin", twoBytes);
    ("x.yaml", "FOO: baz");
    ("ab.env", "A=1" +:+ nl +:+ "B=2" +:+ nl);
    ("ba.env", "B=2" +:+ nl +:+ "A=1" +:+ nl);
    ("tab.env", "OK=1" +:+ nl +:+ tab +:+ "FOO");
    ("big.env", tooLongLine);
    ("secret.bin", "payload");
    ("wrong.yaml", "kind: Secret") ].

Fixpoint lookupFile (fn : string) (table : list (string * string))
  : result string :=
  match table with
  | [] => Err (errNew ("open " +:+ fn +:+ ": no such file or directory"))
  | (name, content) :: table' =>
      if String.eqb fn name then Ok content else lookupFile fn table'
  end.

#[export] Instance external : External := {|
  ReadFile fn := lookupFile fn files;
  sopsdecryptData content format := Ok content;
  IsYAMLFile p := strings.HasSuffix p ".yaml" || strings.HasSuffix p ".yml";
  IsJSONFile p := strings.HasSuffix p ".json";
  IsEnvFile p := strings.HasSuffix p ".env";
  yamlUnmarshalMap content :=
    if String.eqb content "FOO: baz" then Ok {[ "FOO" := "baz" ]}
    else Err (errNew "yaml: unmarshal errors");
  jsonUnmarshalMap content :=
    Err (errNew "invalid character");
  yamlUnmarshalInput content :=
    if String.eqb content "kind: Secret" then Ok wrongKind
    else Err (errNew "yaml: unmarshal errors");
  yamlMarshal secret := Ok "apiVersion: v1"
|}.

End Demo.

(** ** A second concrete setting

    The file system of the first, with a descriptor that is accepted
    and one without a name; sops refuses content that starts with
    ["plain"]. *)

Module Demo2.

Definition accepted : SopsSecretGenerator :=
  {| inputTypeMeta := {| APIVersion := apiVersion; Kind := kind |};
     inputObjectMeta := {| Name := "accepted"; Namespace := "prod";
                           Labels := {[ "app" := "web" ]};
                           Annotations := ∅ |};
     EnvSources := ["a.env"; "x.yaml"];
     FileSources := ["b.bin"; "crt=secret.bin"];
     Behavior := "merge";
     DisableNameSuffixHash := false;
     inputType := "Opaque" |}.

Definition nameless : SopsSecretGenerator :=
  {| inputTypeMeta := {| APIVersion := apiVersion; Kind := "Secret" |};
     inputObjectMeta := {| Name := ""; Namespace := ""; Labels := ∅;
                           Annotations := ∅ |};
     EnvSources := [];
     FileSources := [];
     Behavior := "";
     DisableNameSuffixHash := false;
     inputType := "" |}.

Definition undecryptable : SopsSecretGenerator :=
  Demo.descriptor "undecryptable" ∅ ["a.env"; "plain.yaml"] ["b.bin"] "" false.

Definition files : list (string * string) :=
  Demo.files
  ++ [ ("gen.yaml", "kind: SopsSecretGenerator");
       ("nameless.yaml", "name: ''");
       ("undecryptable.yaml", "envs: [a.env, plain.yaml]");
       ("plain.yaml", "plain: text");
       ("crlf.env", "A=1" +:+ String "013" (String "010" "")
                    +:+ "B=2" +:+ String "013" (String "010" ""));
       ("twice.env", "K=old" +:+ Demo.nl +:+ "  K=new" +:+ Demo.nl
                     +:+ "# K=comment" +:+ Demo.nl) ].

Definition external : External := {|
  ReadFile fn := Demo.lookupFile fn files;
  sopsdecryptData content format :=
    if strings.HasPrefix content "plain"
    then Err (errNew "sops metadata not found")
    else Ok content;
  IsYAMLFile p := strings.HasSuffix p ".yaml" || strings.HasSuffix p ".yml";
  IsJSONFile p := strings.HasSuffix p ".json";
  IsEnvFile p := strings.HasSuffix p ".env";
  yamlUnmarshalMap content :=
    if String.eqb content "FOO: baz" then Ok {[ "FOO" := "baz" ]}
    else Err (errNew "yaml: unmarshal errors");
  jsonUnmarshalMap content :=
    if String.eqb content "{}" then Ok ∅
    else Err (errNew "invalid character");
  yamlUnmarshalInput content :=
    if String.eqb content "kind: SopsSecretGenerator" then Ok accepted
    else if String.eqb content "name: ''" then Ok nameless
    else if String.eqb content "envs: [a.env, plain.yaml]" then Ok undecryptable
    else Err (errNew "yaml: unmarshal errors");
  yamlMarshal secret :=
    Ok ("kind: " +:+ Kind (secretTypeMeta secret) +:+ ", name: "
        +:+ Name (secretObjectMeta secret))
|}.

(** sops marks the error of a file without sops metadata as a
    [UserError]. *)
Definition sopsUserError (cause : error) : option string :=
  match cause with
  | errNew "sops metadata not found" =>
      Some "The file is not encrypted with sops."
  | _ => None
  end.

End Demo2.

(** * Facts about the library functions *)

(** ** Bit operations as arithmetic *)

Ltac n_arith := zify; Z.to_euclidean_division_equations; lia.

Lemma land_0x3F (x : N) : N.land x 0x3F = x mod 64.
Proof. change 0x3F with (N.ones 6). apply N.land_ones. Qed.

Lemma land_0xFF (x : N) : N.land x 0xFF = x mod 256.
Proof. change 0xFF with (N.ones 8). apply N.land_ones. Qed.

Lemma lor_disjoint (q n r : N) :
  r < 2 ^ n -> N.lor (q * 2 ^ n) r = q * 2 ^ n + r.
Proof.
  intros Hr.
  assert (Hland : N.land (q * 2 ^ n) r = 0).
  { apply N.bits_inj. intros i. rewrite N.land_spec, N.bits_0.
    destruct (N.ltb_spec i n) as [Hlt | Hge].
    - rewrite N.mul_pow2_bits_low by assumption. reflexivity.
    - rewrite <- (N.mod_small r (2 ^ n)) by assumption.
      rewrite N.mod_pow2_bits_high by assumption.
      apply Bool.andb_false_r. }
  rewrite N.add_nocarry_lxor by assumption.
  symmetry. apply N.lxor_lor. assumption.
Qed.

Lemma byteN_lt (c : ascii) : byteN c < 256.
Proof. apply N_ascii_bounded. Qed.

Lemma byte_byteN (c : ascii) : byte (byteN c) = c.
Proof. apply ascii_N_embedding. Qed.

Module base64_facts.
Import base64.

(** The 24-bit value of one, two and three source bytes. *)
Lemma pack2 (a b : N) :
  b < 256 -> N.lor (N.shiftl a 16) (N.shiftl b 8) = a * 65536 + b * 256.
Proof.
  intros Hb. rewrite !N.shiftl_mul_pow2.
  change (2 ^ 8) with 256. rewrite (lor_disjoint a 16 (b * 256)).
  - reflexivity.
  - change (2 ^ 16) with 65536. lia.
Qed.

Lemma pack3 (a b c : N) :
  b < 256 -> c < 256 ->
  N.lor (N.lor (N.shiftl a 16) (N.shiftl b 8)) c
  = a * 65536 + b * 256 + c.
Proof.
  intros Hb Hc. rewrite pack2 by assumption.
  replace (a * 65536 + b * 256) with ((a * 256 + b) * 2 ^ 8)
    by (change (2 ^ 8) with 256; lia).
  rewrite lor_disjoint by (change (2 ^ 8) with 256; lia).
  reflexivity.
Qed.

(** The value put together again from its six-bit digits. *)
Lemma unpack2 (s0 s1 : N) :
  s1 < 64 ->
  N.lor (N.shiftl s0 18) (N.shiftl s1 12) = s0 * 262144 + s1 * 4096.
Proof.
  intros H1. rewrite !N.shiftl_mul_pow2.
  change (2 ^ 12) with 4096. rewrite (lor_disjoint s0 18 (s1 * 4096)).
  - reflexivity.
  - change (2 ^ 18) with 262144. lia.
Qed.

Lemma unpack3 (s0 s1 s2 : N) :
  s1 < 64 -> s2 < 64 ->
  N.lor (N.lor (N.shiftl s0 18) (N.shiftl s1 12)) (N.shiftl s2 6)
  = s0 * 262144 + s1 * 4096 + s2 * 64.
Proof.
  intros H1 H2. rewrite unpack2 by assumption. rewrite N.shiftl_mul_pow2.
  replace (s0 * 262144 + s1 * 4096) with ((s0 * 64 + s1) * 2 ^ 12)
    by (change (2 ^ 12) with 4096; lia).
  rewrite lor_disjoint by (change (2 ^ 12) with 4096; change (2 ^ 6) with 64; lia).
  reflexivity.
Qed.

Lemma unpack4 (s0 s1 s2 s3 : N) :
  s1 < 64 -> s2 < 64 -> s3 < 64 ->
  N.lor (N.lor (N.lor (N.shiftl s0 18) (N.shiftl s1 12)) (N.shiftl s2 6)) s3
  = s0 * 262144 + s1 * 4096 + s2 * 64 + s3.
Proof.
  intros H1 H2 H3. rewrite unpack3 by assumption.
  replace (s0 * 262144 + s1 * 4096 + s2 * 64)
    with ((s0 * 4096 + s1 * 64 + s2) * 2 ^ 6)
    by (change (2 ^ 6) with 64; lia).
  rewrite lor_disjoint by (change (2 ^ 6) with 64; lia).
  reflexivity.
Qed.

Lemma digit_div (val n : N) : digit val n = (val / 2 ^ n) mod 64.
Proof. unfold digit. rewrite land_0x3F, N.shiftr_div_pow2. reflexivity. Qed.

Lemma digit_lt (val n : N) : digit val n < 64.
Proof. rewrite digit_div. apply N.mod_lt. discriminate. Qed.

(** Every digit is a character of the alphabet, never the padding
    character, and [decodeMap] gives the digit back. *)
Lemma digits_ok : forallb digitOk (List.map N.of_nat (seq 0 64)) = true.
Proof. vm_compute. reflexivity. Qed.

Lemma decodeMap_encode (i : N) :
  i < 64 ->
  decodeMap (encode i) = Some i /\ Ascii.eqb (encode i) padChar = false.
Proof.
  intros Hi.
  assert (Hin : In i (List.map N.of_nat (seq 0 64))).
  { rewrite <- (N2Nat.id i). apply in_map. apply in_seq. lia. }
  pose proof (proj1 (forallb_forall _ _) digits_ok i Hin) as Hok.
  unfold digitOk in Hok.
  destruct (decodeMap (encode i)) as [j|]; [|discriminate].
  apply andb_prop in Hok as [Hj Hpad].
  apply N.eqb_eq in Hj. subst j.
  split; [reflexivity|]. now apply Bool.negb_true_iff in Hpad.
Qed.

(** One step of decoding undoes one step of encoding. *)
Lemma bytes_of_3 (a b c : N) :
  a < 256 -> b < 256 -> c < 256 ->
  let val := a * 65536 + b * 256 + c in
  let val' := digit val 18 * 262144 + digit val 12 * 4096
              + digit val 6 * 64 + digit val 0 in
  (val' / 65536) mod 256 = a /\ (val' / 256) mod 256 = b
  /\ val' mod 256 = c.
Proof.
  intros Ha Hb Hc val val'. subst val' val. rewrite !digit_div.
  change (2 ^ 18) with 262144. change (2 ^ 12) with 4096.
  change (2 ^ 6) with 64. change (2 ^ 0) with 1.
  repeat split; n_arith.
Qed.

Lemma bytes_of_2 (a b : N) :
  a < 256 -> b < 256 ->
  let val := a * 65536 + b * 256 in
  let val' := digit val 18 * 262144 + digit val 12 * 4096
              + digit val 6 * 64 in
  (val' / 65536) mod 256 = a /\ (val' / 256) mod 256 = b.
Proof.
  intros Ha Hb val val'. subst val' val. rewrite !digit_div.
  change (2 ^ 18) with 262144. change (2 ^ 12) with 4096.
  change (2 ^ 6) with 64.
  repeat split; n_arith.
Qed.

Lemma bytes_of_1 (a : N) :
  a < 256 ->
  let val := a * 65536 in
  let val' := digit val 18 * 262144 + digit val 12 * 4096 in
  (val' / 65536) mod 256 = a.
Proof.
  intros Ha val val'. subst val' val. rewrite !digit_div.
  change (2 ^ 18) with 262144. change (2 ^ 12) with 4096.
  n_arith.
Qed.

End base64_facts.

Module base64_roundtrip.
Import base64 base64_facts.

Lemma DecodeString_quad (s0 s1 s2 s3 : N) (rest : string) :
  s0 < 64 -> s1 < 64 -> s2 < 64 -> s3 < 64 ->
  DecodeString (String (encode s0) (String (encode s1)
                  (String (encode s2) (String (encode s3) rest))))
  = match DecodeString rest with
    | Some tail =>
        let val := N.lor (N.lor (N.lor (N.shiftl s0 18) (N.shiftl s1 12))
                            (N.shiftl s2 6)) s3 in
        Some (String (byte2 val) (String (byte1 val)
                (String (byte0 val) tail)))
    | None => None
    end.
Proof.
  intros H0 H1 H2 H3. cbn [DecodeString].
  destruct (decodeMap_encode s0 H0) as [-> _].
  destruct (decodeMap_encode s1 H1) as [-> _].
  destruct (decodeMap_encode s2 H2) as [-> ->].
  destruct (decodeMap_encode s3 H3) as [-> ->].
  reflexivity.
Qed.

Lemma DecodeString_pad1 (s0 s1 s2 : N) :
  s0 < 64 -> s1 < 64 -> s2 < 64 ->
  DecodeString (String (encode s0) (String (encode s1)
                  (String (encode s2) (String padChar EmptyString))))
  = let val := N.lor (N.lor (N.shiftl s0 18) (N.shiftl s1 12))
                 (N.shiftl s2 6) in
    Some (String (byte2 val) (String (byte1 val) EmptyString)).
Proof.
  intros H0 H1 H2. cbn [DecodeString].
  destruct (decodeMap_encode s0 H0) as [-> _].
  destruct (decodeMap_encode s1 H1) as [-> _].
  destruct (decodeMap_encode s2 H2) as [-> ->].
  reflexivity.
Qed.

Lemma DecodeString_pad2 (s0 s1 : N) :
  s0 < 64 -> s1 < 64 ->
  DecodeString (String (encode s0) (String (encode s1)
                  (String padChar (String padChar EmptyString))))
  = let val := N.lor (N.shiftl s0 18) (N.shiftl s1 12) in
    Some (String (byte2 val) EmptyString).
Proof.
  intros H0 H1. cbn [DecodeString].
  destruct (decodeMap_encode s0 H0) as [-> _].
  destruct (decodeMap_encode s1 H1) as [-> _].
  reflexivity.
Qed.

(** Induction on a string three bytes at a time, as the encoder
    reads it. *)
Lemma string_ind3 (P : string -> Prop) :
  P EmptyString ->
  (forall a, P (String a EmptyString)) ->
  (forall a b, P (String a (String b EmptyString))) ->
  (forall a b c rest, P rest -> P (String a (String b (String c rest)))) ->
  forall s, P s.
Proof.
  intros H0 H1 H2 H3 s.
  enough (P s /\ (forall a, P (String a s))
          /\ (forall a b, P (String a (String b s)))) by tauto.
  induction s as [|c s (IH0 & IH1 & IH2)]; [auto|].
  repeat split; auto.
Qed.

Lemma DecodeString_EncodeToString (src : string) :
  DecodeString (EncodeToString src) = Some src.
Proof.
  induction src as [|a|a b|a b c rest IH] using string_ind3.
  - reflexivity.
  - cbn [EncodeToString]. cbv zeta.
    fold (digit (N.shiftl (byteN a) 16) 18).
    fold (digit (N.shiftl (byteN a) 16) 12).
    rewrite DecodeString_pad2 by apply digit_lt.
    cbv zeta. unfold byte2. rewrite unpack2 by apply digit_lt.
    rewrite land_0xFF, N.shiftr_div_pow2, N.shiftl_mul_pow2.
    change (2 ^ 16) with 65536.
    rewrite (bytes_of_1 (byteN a) (byteN_lt a)), byte_byteN.
    reflexivity.
  - cbn [EncodeToString]. cbv zeta.
    set (val := N.lor (N.shiftl (byteN a) 16) (N.shiftl (byteN b) 8)).
    fold (digit val 18). fold (digit val 12). fold (digit val 6).
    rewrite DecodeString_pad1 by apply digit_lt.
    cbv zeta. unfold byte2, byte1. rewrite unpack3 by apply digit_lt.
    rewrite !land_0xFF, !N.shiftr_div_pow2.
    change (2 ^ 16) with 65536. change (2 ^ 8) with 256.
    subst val. rewrite pack2 by apply byteN_lt.
    destruct (bytes_of_2 (byteN a) (byteN b) (byteN_lt a) (byteN_lt b))
      as [-> ->].
    rewrite !byte_byteN. reflexivity.
  - cbn [EncodeToString]. cbv zeta.
    set (val := N.lor (N.lor (N.shiftl (byteN a) 16) (N.shiftl (byteN b) 8))
                  (byteN c)).
    fold (digit val 18). fold (digit val 12). fold (digit val 6).
    change (N.land val 0x3F) with (digit val 0).
    rewrite DecodeString_quad by apply digit_lt.
    rewrite IH. cbv zeta. unfold byte2, byte1, byte0.
    rewrite unpack4 by apply digit_lt.
    rewrite !land_0xFF, !N.shiftr_div_pow2.
    change (2 ^ 16) with 65536. change (2 ^ 8) with 256.
    subst val. rewrite pack3 by apply byteN_lt.
    destruct (bytes_of_3 (byteN a) (byteN b) (byteN c)
                (byteN_lt a) (byteN_lt b) (byteN_lt c)) as (-> & -> & ->).
    rewrite !byte_byteN. reflexivity.
Qed.

(** The encoding is padded: every three bytes, and the one or two
    bytes that may remain, give four characters. *)
Lemma len_EncodeToString (src : string) :
  len (EncodeToString src) = 4 * ((len src + 2) / 3).
Proof.
  induction src as [|a|a b|a b c rest IH] using string_ind3;
    cbn [EncodeToString len]; cbv zeta; cbn [len];
    [reflexivity | reflexivity | reflexivity |].
  rewrite IH. generalize (len rest). intros n. n_arith.
Qed.

End base64_roundtrip.

(** ** The loops over runes have fuel enough *)

Lemma String_length_cons (c : ascii) (s : string) :
  String.length (String c s) = S (String.length s).
Proof. reflexivity. Qed.

Lemma length_skip (n : nat) (s : string) :
  String.length (skip n s) = (String.length s - n)%nat.
Proof.
  revert s. induction n as [|n IH]; intros s; cbn [skip].
  - lia.
  - destruct s as [|c s]; [reflexivity|].
    rewrite String_length_cons. apply IH.
Qed.

(** A rune of a string that is not empty is at least one byte wide. *)
Lemma DecodeRune_width (c : ascii) (s : string) :
  (1 <= snd (utf8.DecodeRune (String c s)))%nat.
Proof.
  unfold utf8.DecodeRune.
  repeat match goal with
         | |- context [if ?b then _ else _] => destruct b
         | |- context [match ?x with EmptyString => _ | String _ _ => _ end] =>
             destruct x
         end; cbn [snd]; lia.
Qed.

(** With at least [len(p)] turns the loop of [utf8.Valid] never stops
    for want of fuel: more fuel gives the same answer. *)
Lemma validLoop_fuel (fuel fuel' : nat) (p : string) :
  (String.length p <= fuel)%nat -> (String.length p <= fuel')%nat ->
  utf8.validLoop fuel p = utf8.validLoop fuel' p.
Proof.
  revert fuel' p. induction fuel as [|fuel IH]; intros fuel' p Hfuel Hfuel'.
  - destruct p as [|c s]; [destruct fuel'; reflexivity|].
    rewrite String_length_cons in Hfuel. lia.
  - destruct p as [|c s]; [destruct fuel'; reflexivity|].
    rewrite String_length_cons in Hfuel, Hfuel'.
    destruct fuel' as [|fuel']; [lia|]. cbn [utf8.validLoop].
    pose proof (DecodeRune_width c s) as Hwidth.
    destruct (utf8.DecodeRune (String c s)) as [r size]. cbn [snd] in Hwidth.
    destruct ((r =? utf8.RuneError) && Nat.leb size 1); [reflexivity|].
    apply IH; rewrite length_skip, String_length_cons; lia.
Qed.

Lemma trimLoop_fuel (fuel fuel' : nat) (s : string) (f : N -> bool) :
  (String.length s <= fuel)%nat -> (String.length s <= fuel')%nat ->
  bytes.trimLoop fuel s f = bytes.trimLoop fuel' s f.
Proof.
  revert fuel' s. induction fuel as [|fuel IH]; intros fuel' s Hfuel Hfuel'.
  - destruct s as [|c t]; [destruct fuel'; reflexivity|].
    rewrite String_length_cons in Hfuel. lia.
  - destruct s as [|c t]; [destruct fuel'; reflexivity|].
    rewrite String_length_cons in Hfuel, Hfuel'.
    destruct fuel' as [|fuel']; [lia|]. cbn [bytes.trimLoop].
    pose proof (DecodeRune_width c t) as Hwidth.
    destruct (utf8.DecodeRune (String c t)) as [r wid]. cbn [snd] in Hwidth.
    destruct (f r); [|reflexivity].
    apply IH; rewrite length_skip, String_length_cons; lia.
Qed.

(** Text of bytes below 0x80 is valid UTF-8. *)
Lemma Valid_ascii (s : string) :
  (forall c, In c (list_ascii_of_string s) -> byteN c < 0x80) ->
  utf8.Valid s = true.
Proof.
  unfold utf8.Valid. induction s as [|c s IH]; intros Hascii; [reflexivity|].
  rewrite String_length_cons. cbn [utf8.validLoop]. unfold utf8.DecodeRune.
  assert (Hc : byteN c < 0x80) by (apply Hascii; left; reflexivity).
  destruct (N.ltb_spec (byteN c) 0x80) as [_|Hge]; [|lia].
  replace (byteN c =? utf8.RuneError) with false
    by (symmetry; apply N.eqb_neq; unfold utf8.RuneError; lia).
  cbn [andb skip]. apply IH. intros c' Hc'. apply Hascii. right. exact Hc'.
Qed.

(** A line whose first byte is below 0x80 and no space is left as it
    is by the trimming. *)
Lemma TrimLeftFunc_no_space (c : ascii) (s : string) :
  byteN c < 0x80 -> unicode.IsSpace (byteN c) = false ->
  bytes.TrimLeftFunc (String c s) unicode.IsSpace = String c s.
Proof.
  intros Hc Hspace. unfold bytes.TrimLeftFunc.
  rewrite String_length_cons. cbn [bytes.trimLoop]. unfold utf8.DecodeRune.
  destruct (N.ltb_spec (byteN c) 0x80) as [_|Hge]; [|lia].
  rewrite Hspace. reflexivity.
Qed.

(** * Facts about the program *)

(** ** Sequencing *)

Lemma forEach_app {A} (xs ys : list A) (body : A -> M unit) (w : world) :
  forEach (xs ++ ys) body w
  = (try _ := forEach xs body in forEach ys body) w.
Proof.
  revert w. induction xs as [|x xs IH]; intros w; cbn [forEach app].
  - reflexivity.
  - unfold bind. destruct (body x w) as [[[]|e] w1]; [|reflexivity].
    rewrite IH. reflexivity.
Qed.

Lemma forEach_map {A B} (f : A -> B) (xs : list A) (body : B -> M unit) :
  forEach (List.map f xs) body = forEach xs (fun x => body (f x)).
Proof.
  induction xs as [|x xs IH]; cbn [forEach List.map]; [reflexivity|].
  rewrite IH. reflexivity.
Qed.

(** A loop that fails stopped at one element: the elements before it
    went through, and the world of the failure is the world the loop
    leaves. *)
Lemma forEach_Err {A} (xs : list A) (body : A -> M unit) (w w' : world)
    (e : error) :
  forEach xs body w = (Err e, w') ->
  exists pre x post w1,
    xs = pre ++ x :: post
    /\ forEach pre body w = (Ok tt, w1)
    /\ body x w1 = (Err e, w').
Proof.
  revert w. induction xs as [|x xs IH]; intros w; cbn [forEach].
  - discriminate.
  - unfold bind. destruct (body x w) as [[[]|e0] w1] eqn:Hx.
    + intros Hrest. destruct (IH _ Hrest) as (pre & y & post & w2 & -> & Hpre & Hy).
      exists (x :: pre), y, post, w2. split; [reflexivity|]. split; [|exact Hy].
      cbn [forEach]. unfold bind. rewrite Hx. exact Hpre.
    + intros [= <- <-]. exists [], x, xs, w. auto.
Qed.

(** The first failure ends the loop: what comes after the failing
    element plays no part. *)
Lemma forEach_stops {A} (pre post : list A) (x : A) (body : A -> M unit)
    (w w1 w' : world) (e : error) :
  forEach pre body w = (Ok tt, w1) ->
  body x w1 = (Err e, w') ->
  forEach (pre ++ x :: post) body w = (Err e, w').
Proof.
  intros Hpre Hx. rewrite forEach_app. unfold bind. rewrite Hpre.
  cbn [forEach]. unfold bind. rewrite Hx. reflexivity.
Qed.

(** ** The frame property *)

Create HintDb framed.

Lemma framed_ret {A} (a : A) : framed (ret a).
Proof. intros b r0 s0 w. reflexivity. Qed.

Lemma framed_fail {A} (e : error) : framed (@fail A e).
Proof. intros b r0 s0 w. reflexivity. Qed.

Lemma framed_lift {A} (r : result A) : framed (lift r).
Proof. intros b r0 s0 w. reflexivity. Qed.

Lemma framed_bind {A B} (m : M A) (k : A -> M B) :
  framed m -> (forall a, framed (k a)) -> framed (bind m k).
Proof.
  intros Hm Hk b r0 s0 w. unfold bind. rewrite Hm.
  destruct (m w) as [[a|e] w1]; cbn [fst snd]; [apply Hk | reflexivity].
Qed.

Lemma framed_wrapf {A} (m : M A) (msg : string) :
  framed m -> framed (wrapf m msg).
Proof.
  intros Hm b r0 s0 w. unfold wrapf. rewrite Hm.
  destruct (m w) as [[a|e] w1]; reflexivity.
Qed.

Lemma framed_store (k v : string) : framed (store k v).
Proof.
  intros b r0 s0 w. unfold store, extend. cbn.
  rewrite insert_union_l, app_assoc. reflexivity.
Qed.

Lemma framed_forEach {A} (xs : list A) (body : A -> M unit) :
  (forall x, framed (body x)) -> framed (forEach xs body).
Proof.
  intros Hbody. induction xs as [|x xs IH]; cbn [forEach].
  - apply framed_ret.
  - apply framed_bind; [apply Hbody | intros _; exact IH].
Qed.

#[export] Hint Resolve framed_ret framed_fail framed_lift framed_wrapf
  framed_store framed_forEach : framed.
#[export] Hint Extern 2 (framed (bind _ _)) =>
  apply framed_bind; [|intros ?] : framed.
#[export] Hint Extern 5 (framed (match ?x with _ => _ end)) =>
  destruct x : framed.
#[export] Hint Extern 5 (framed (if ?x then _ else _)) =>
  destruct x : framed.

Section ProgramFacts.

Context `{External}.

Lemma framed_readFile (fn : string) : framed (readFile fn).
Proof.
  intros b r0 s0 w. unfold readFile, extend. cbn.
  rewrite app_assoc. reflexivity.
Qed.
Hint Resolve framed_readFile : framed.

Lemma framed_parseFileSource (source : string) :
  framed (parseFileSource source).
Proof. unfold parseFileSource. auto 10 with framed. Qed.

Lemma framed_parseDotEnvLine (line : string) : framed (parseDotEnvLine line).
Proof.
  unfold parseDotEnvLine. destruct (negb (utf8.Valid line)); [auto with framed|].
  destruct (bytes.TrimLeftFunc line unicode.IsSpace) as [|c t];
    [auto with framed|].
  destruct (Ascii.eqb c "#"); [auto with framed|].
  destruct (strings.SplitN (String c t) "=" 2) as [|k [|v [|]]];
    auto with framed.
Qed.
Hint Resolve framed_parseDotEnvLine : framed.

Lemma framed_parseDotEnvLines (lines : list string) (lineNum : nat) :
  framed (parseDotEnvLines lineNum lines).
Proof.
  revert lineNum. induction lines as [|line lines IH]; intros lineNum;
    cbn [parseDotEnvLines]; auto with framed.
Qed.
Hint Resolve framed_parseDotEnvLines : framed.

Lemma framed_parseDotEnvContent (content : string) :
  framed (parseDotEnvContent content).
Proof.
  unfold parseDotEnvContent.
  destruct (bufio.Scanner (utfbom.SkipOnly content)) as [lines [err|]];
    auto 6 with framed.
Qed.

Lemma framed_storeAll (d : kvMap) : framed (storeAll d).
Proof. unfold storeAll. auto with framed. Qed.
Hint Resolve framed_parseDotEnvContent framed_storeAll : framed.

Lemma framed_parseYAMLContent (content : string) :
  framed (parseYAMLContent content).
Proof. unfold parseYAMLContent. auto with framed. Qed.

Lemma framed_parseJSONContent (content : string) :
  framed (parseJSONContent content).
Proof. unfold parseJSONContent. auto with framed. Qed.
Hint Resolve framed_parseYAMLContent framed_parseJSONContent : framed.

Lemma framed_parseEnvSource (source : string) :
  framed (parseEnvSource source).
Proof.
  unfold parseEnvSource. apply framed_bind; [auto with framed|].
  intros content. apply framed_bind; [auto with framed|]. intros decrypted.
  destruct (String.eqb _ "dotenv"); [auto with framed|].
  destruct (String.eqb _ "yaml"); [auto with framed|].
  destruct (String.eqb _ "json"); auto with framed.
Qed.

(** ** Sources in processing order *)

Lemma parseInput_declared (input : SopsSecretGenerator) (w : world) :
  parseInput input w
  = (try _ := makeData in
     try _ := forEach (declared input) resolve in
     getData) w.
Proof.
  unfold parseInput, declared, parseEnvSources, parseFileSources.
  unfold bind. cbn [makeData]. rewrite forEach_app. unfold bind.
  rewrite !forEach_map. cbn [resolve resolveSource sourceLabel].
  destruct (forEach (EnvSources input) _ _) as [[[]|e] w1]; reflexivity.
Qed.

Lemma framed_resolve (src : source) : framed (resolve src).
Proof.
  destruct src; apply framed_wrapf;
    [apply framed_parseEnvSource | apply framed_parseFileSource].
Qed.

Lemma extend_emptyWorld (w : world) :
  extend (data w) (reads w) (stores w) emptyWorld = w.
Proof.
  destruct w as [d r s]. unfold extend, emptyWorld. cbn.
  rewrite (left_id_L ∅ (∪)), !app_nil_r. reflexivity.
Qed.

(** Resolving a source in any world: it succeeds exactly when it
    yields, and then the pairs it yields are laid over the map. *)
Lemma resolve_yield (src : source) (w : world) :
  match yield src with
  | Ok y => exists w', resolve src w = (Ok tt, w') /\ data w' = y ∪ data w
  | Err e => exists w', resolve src w = (Err e, w')
  end.
Proof.
  pose proof (framed_resolve src (data w) (reads w) (stores w) emptyWorld)
    as Hframe.
  rewrite extend_emptyWorld in Hframe. unfold yield. rewrite Hframe.
  destruct (resolve src emptyWorld) as [[[]|e] w1]; cbn [fst snd].
  - eexists. split; reflexivity.
  - eexists. reflexivity.
Qed.

(** A loop over sources that never yield [K] leaves the entry of [K]
    as it was. *)
Lemma forEach_resolve_untouched (srcs : list source) (K : string)
    (w w' : world) :
  forEach srcs resolve w = (Ok tt, w') ->
  (forall src y, src ∈ srcs -> yield src = Ok y -> y !! K = None) ->
  data w' !! K = data w !! K.
Proof.
  revert w. induction srcs as [|src srcs IH]; intros w; cbn [forEach].
  - intros [= <-]. reflexivity.
  - unfold bind. intros Hrun Hnone.
    pose proof (resolve_yield src w) as Hsrc.
    destruct (yield src) as [y|e] eqn:Hy.
    + destruct Hsrc as (w1 & Hres & Hdata). rewrite Hres in Hrun.
      rewrite (IH w1 Hrun).
      * rewrite Hdata. apply lookup_union_r. apply (Hnone src); [left|exact Hy].
      * intros src' y' Hin. apply Hnone. right. exact Hin.
    + destruct Hsrc as (w1 & Hres). rewrite Hres in Hrun. discriminate.
Qed.

(** The pair of the last source that yields [K] is the one in the map
    at the end. *)
Lemma forEach_resolve_last (srcs : list source) (j : nat) (src : source)
    (y : kvMap) (K v : string) (w w' : world) :
  forEach srcs resolve w = (Ok tt, w') ->
  srcs !! j = Some src -> yield src = Ok y -> y !! K = Some v ->
  (forall j' src' y', (j < j')%nat -> srcs !! j' = Some src' ->
                      yield src' = Ok y' -> y' !! K = None) ->
  data w' !! K = Some v.
Proof.
  revert j w. induction srcs as [|src0 srcs IH]; intros j w; [discriminate|].
  cbn [forEach]. unfold bind. intros Hrun Hj Hy HK Hlater.
  pose proof (resolve_yield src0 w) as Hsrc.
  destruct (yield src0) as [y0|e] eqn:Hy0.
  - destruct Hsrc as (w1 & Hres & Hdata). rewrite Hres in Hrun.
    destruct j as [|j]; cbn in Hj.
    + injection Hj as ->. assert (y0 = y) as -> by congruence.
      rewrite (forEach_resolve_untouched srcs K w1 w' Hrun).
      * rewrite Hdata. apply lookup_union_Some_l. exact HK.
      * intros src' y' Hin Hy'.
        apply list_elem_of_lookup in Hin as [j' Hj'].
        apply (Hlater (S j') src' y'); [lia | exact Hj' | exact Hy'].
    + apply (IH j w1 Hrun Hj Hy HK).
      intros j' src' y' Hlt. apply (Hlater (S j')). lia.
  - destruct Hsrc as (w1 & Hres). rewrite Hres in Hrun. discriminate.
Qed.

(** The loop over the sources goes through exactly when each of them
    yields: what is already in the map plays no part. *)
Lemma forEach_resolve_Ok (srcs : list source) (w : world) :
  (forall src, src ∈ srcs -> exists y, yield src = Ok y)
  <-> exists w', forEach srcs resolve w = (Ok tt, w').
Proof.
  revert w. induction srcs as [|src srcs IH]; intros w; cbn [forEach].
  - split; [eexists; reflexivity|]. intros _ src Hin. inversion Hin.
  - unfold bind. pose proof (resolve_yield src w) as Hsrc. split.
    + intros Hall. destruct (Hall src) as [y Hy]; [left|].
      rewrite Hy in Hsrc. destruct Hsrc as (w1 & -> & _).
      apply IH. intros src' Hin. apply Hall. right. exact Hin.
    + intros [w' Hrun] src' Hin.
      destruct (yield src) as [y|e] eqn:Hy.
      * destruct Hsrc as (w1 & Hres & _). rewrite Hres in Hrun.
        apply elem_of_cons in Hin as [->|Hin]; [eauto|].
        eapply IH; eauto.
      * destruct Hsrc as (w1 & Hres). rewrite Hres in Hrun. discriminate.
Qed.

Lemma parseInput_Ok (input : SopsSecretGenerator) (w w' : world) (d : kvMap) :
  parseInput input w = (Ok d, w') ->
  d = data w'
  /\ forEach (declared input) resolve
       {| data := ∅; reads := reads w; stores := stores w |} = (Ok tt, w').
Proof.
  rewrite parseInput_declared. unfold bind, makeData, getData.
  destruct (forEach _ _ _) as [[[]|e] w1]; [|discriminate].
  intros [= <- <-]. auto.
Qed.

(** C1. Last write wins.  A run of [parseInput] goes through exactly
    when every declared source yields its pairs: a key that two sources
    share is never an error.  The sources are taken in the order
    [envs] (as listed), then [files] (as listed).  When two sources
    both yield a pair for the key [K], and no source after the later
    of the two yields one, the map that [parseInput] returns holds at
    [K] the value of the later source. *)
Theorem C1_last_write_wins (input : SopsSecretGenerator) (w : world) :
  ((forall src, src ∈ declared input -> exists y, yield src = Ok y)
   <-> exists d w', parseInput input w = (Ok d, w'))
  /\ (forall i s, EnvSources input !! i = Some s ->
                  declared input !! i = Some (envSource s))
  /\ (forall k s, FileSources input !! k = Some s ->
                  declared input !! (length (EnvSources input) + k)%nat
                  = Some (fileSource s))
  /\ forall d w' i j src1 src2 y1 y2 K v1 v2,
       parseInput input w = (Ok d, w') ->
       (i < j)%nat ->
       declared input !! i = Some src1 -> yield src1 = Ok y1 ->
       y1 !! K = Some v1 ->
       declared input !! j = Some src2 -> yield src2 = Ok y2 ->
       y2 !! K = Some v2 ->
       (forall j' src' y', (j < j')%nat -> declared input !! j' = Some src' ->
                           yield src' = Ok y' -> y' !! K = None) ->
       d !! K = Some v2.
Proof.
  repeat split.
  - intros Hall.
    apply (forEach_resolve_Ok _
             {| data := ∅; reads := reads w; stores := stores w |}) in Hall.
    destruct Hall as [w' Hrun]. exists (data w'), w'.
    rewrite parseInput_declared. unfold bind, makeData, getData.
    rewrite Hrun. reflexivity.
  - intros (d & w' & Hrun). apply parseInput_Ok in Hrun as [_ Hrun].
    eapply forEach_resolve_Ok. eauto.
  - intros i s Hi. unfold declared.
    rewrite lookup_app_l.
    + rewrite list_lookup_fmap, Hi. reflexivity.
    + rewrite length_map. eapply lookup_lt_Some. exact Hi.
  - intros k s Hk. unfold declared.
    rewrite lookup_app_r; rewrite length_map; [|lia].
    replace (length (EnvSources input) + k - length (EnvSources input))%nat
      with k by lia.
    rewrite list_lookup_fmap, Hk. reflexivity.
  - intros d w' i j src1 src2 y1 y2 K v1 v2 Hrun _ _ _ _ Hj Hy2 HK Hlater.
    apply parseInput_Ok in Hrun as [-> Hrun].
    eapply forEach_resolve_last; eauto.
Qed.

(** ** What each parser stores *)

(** The loop over the entries of a decoded document stores every
    entry; the order of the visits does not show in the map, because
    the keys of a map are distinct. *)
Lemma forEach_store_data (f : string -> string) (l : list (string * string))
    (w : world) :
  NoDup l.*1 ->
  exists w',
    forEach l (fun kv => store (fst kv) (f (snd kv))) w = (Ok tt, w')
    /\ data w' = list_to_map (prod_map id f <$> l) ∪ data w
    /\ reads w' = reads w.
Proof.
  revert w. induction l as [|[k v] l IH]; intros w Hnodup; cbn [forEach].
  - exists w. repeat split. cbn. rewrite (left_id_L ∅ (∪)). reflexivity.
  - rewrite fmap_cons in Hnodup. apply NoDup_cons in Hnodup as [Hk Hnodup].
    unfold bind. cbn [store fst snd].
    destruct (IH {| data := <[k := f v]> (data w); reads := reads w;
                    stores := stores w ++ [k] |} Hnodup)
      as (w' & -> & Hdata & Hreads).
    exists w'. repeat split; [|exact Hreads]. rewrite Hdata. cbn.
    rewrite <- insert_union_r, insert_union_l; [reflexivity|].
    apply not_elem_of_list_to_map_1.
    rewrite <- list_fmap_compose.
    erewrite list_fmap_ext; [exact Hk|]. intros _ [??] _. reflexivity.
Qed.

Lemma storeAll_data (d : kvMap) (w : world) :
  exists w',
    storeAll d w = (Ok tt, w')
    /\ data w' = (base64.EncodeToString <$> d) ∪ data w
    /\ reads w' = reads w.
Proof.
  unfold storeAll.
  destruct (forEach_store_data base64.EncodeToString (map_to_list d) w
              (NoDup_fst_map_to_list d)) as (w' & Hrun & Hdata & Hreads).
  exists w'. repeat split; [exact Hrun| |exact Hreads].
  rewrite Hdata, list_to_map_fmap, list_to_map_to_list. reflexivity.
Qed.

Lemma parseFileSource_Ok (source key fn content decrypted : string)
    (w : world) :
  parseFileName source = Ok (key, fn) ->
  ReadFile fn = Ok content ->
  sopsdecryptData content (formatForPath source) = Ok decrypted ->
  parseFileSource source w
  = (Ok tt, {| data := <[key := base64.EncodeToString decrypted]> (data w);
               reads := reads w ++ [fn];
               stores := stores w ++ [key] |}).
Proof.
  intros Hname Hread Hdec. unfold parseFileSource, bind, lift, readFile.
  rewrite Hname, Hread. cbn [data reads stores]. rewrite Hdec. reflexivity.
Qed.

(** A line of valid UTF-8 that, without its leading white space, is not
    empty, is no comment and holds a ['=']: the text after the first
    ['='] is stored, encoded, under the text before it. *)
Lemma parseDotEnvLine_pair (line k v : string) (w : world) :
  utf8.Valid line = true ->
  strings.HasPrefix (bytes.TrimLeftFunc line unicode.IsSpace) "#" = false ->
  strings.Cut (bytes.TrimLeftFunc line unicode.IsSpace) "=" = Some (k, v) ->
  parseDotEnvLine line w
  = (Ok tt, {| data := <[k := base64.EncodeToString v]> (data w);
               reads := reads w;
               stores := stores w ++ [k] |}).
Proof.
  intros Hvalid Hcomment Hcut. unfold parseDotEnvLine. rewrite Hvalid.
  cbn [negb]. destruct (bytes.TrimLeftFunc line unicode.IsSpace) as [|c t].
  - discriminate.
  - cbn [strings.HasPrefix] in Hcomment. rewrite Ascii.eqb_sym in Hcomment.
    destruct (Ascii.eqb c "#"); [discriminate Hcomment|].
    cbn [strings.SplitN]. rewrite Hcut. reflexivity.
Qed.

(** C2. Round-trip encoding.  Whatever value [V] a source gives (the
    decrypted bytes of a file source, the text after ['='] of a dotenv
    line, a value of a decoded yaml or json document), the entry that
    is stored is the standard base64 encoding of [V], with the
    alphabet that ends in ['+'] and ['/'] and with ['='] padding, and
    decoding the entry gives [V] back. *)
Theorem C2_roundtrip_encoding (V : string) :
  base64.DecodeString (base64.EncodeToString V) = Some V
  /\ base64.EncodeToString (String (byte 0xFB) (String (byte 0xFF) "")) = "+/8="
  /\ len (base64.EncodeToString V) = 4 * ((len V + 2) / 3)
  /\ (forall source key fn content w,
        parseFileName source = Ok (key, fn) ->
        ReadFile fn = Ok content ->
        sopsdecryptData content (formatForPath source) = Ok V ->
        exists w', parseFileSource source w = (Ok tt, w')
                   /\ data w' !! key = Some (base64.EncodeToString V))
  /\ (forall line k w,
        utf8.Valid line = true ->
        strings.HasPrefix (bytes.TrimLeftFunc line unicode.IsSpace) "#" = false ->
        strings.Cut (bytes.TrimLeftFunc line unicode.IsSpace) "=" = Some (k, V) ->
        exists w', parseDotEnvLine line w = (Ok tt, w')
                   /\ data w' !! k = Some (base64.EncodeToString V))
  /\ (forall (d : kvMap) k w,
        d !! k = Some V ->
        exists w', storeAll d w = (Ok tt, w')
                   /\ data w' !! k = Some (base64.EncodeToString V)).
Proof.
  split; [apply base64_roundtrip.DecodeString_EncodeToString|].
  split; [reflexivity|].
  split; [apply base64_roundtrip.len_EncodeToString|]. repeat split.
  - intros source key fn content w Hname Hread Hdec.
    eexists. split; [eapply parseFileSource_Ok; eauto|].
    cbn. apply lookup_insert_eq.
  - intros line k w Hvalid Hcomment Hcut.
    eexists. split; [eapply parseDotEnvLine_pair; eauto|].
    cbn. apply lookup_insert_eq.
  - intros d k w Hk. destruct (storeAll_data d w) as (w' & Hrun & Hdata & _).
    exists w'. split; [exact Hrun|]. rewrite Hdata.
    apply lookup_union_Some_l. rewrite lookup_fmap, Hk. reflexivity.
Qed.

(** ** Splitting at a separator *)

Lemma app_String (c : ascii) (l r : string) :
  String c l +:+ r = String c (l +:+ r).
Proof. reflexivity. Qed.

Lemma app_Empty (r : string) : "" +:+ r = r.
Proof. reflexivity. Qed.

Ltac app_cbn := rewrite ?app_String, ?app_Empty.

Lemma app_Empty_r (l : string) : l +:+ "" = l.
Proof. induction l as [|c l IH]; app_cbn; [reflexivity|]. now rewrite IH. Qed.

Lemma app_app (l m r : string) : (l +:+ m) +:+ r = l +:+ (m +:+ r).
Proof. induction l as [|c l IH]; app_cbn; [reflexivity|]. now rewrite IH. Qed.


Lemma Count_0_cons (c : ascii) (s : string) (sep : ascii) :
  strings.Count (String c s) sep = 0%nat ->
  Ascii.eqb c sep = false /\ strings.Count s sep = 0%nat.
Proof.
  cbn [strings.Count]. destruct (Ascii.eqb c sep); [discriminate|]. auto.
Qed.

Lemma Split_no_sep (s : string) (sep : ascii) :
  strings.Count s sep = 0%nat -> strings.Split s sep = [s].
Proof.
  induction s as [|c s IH]; [reflexivity|].
  intros [Hc Hs]%Count_0_cons. cbn [strings.Split].
  rewrite Hc, (IH Hs). reflexivity.
Qed.

Lemma Split_app (l r : string) (sep : ascii) :
  strings.Count l sep = 0%nat ->
  strings.Split (l +:+ String sep r) sep = l :: strings.Split r sep.
Proof.
  induction l as [|c l IH]; app_cbn; cbn [strings.Split].
  - intros _. rewrite Ascii.eqb_refl. reflexivity.
  - intros [Hc Hl]%Count_0_cons. rewrite Hc, (IH Hl). reflexivity.
Qed.

Lemma length_Split (s : string) (sep : ascii) :
  length (strings.Split s sep) = S (strings.Count s sep).
Proof.
  induction s as [|c s IH]; [reflexivity|]. cbn [strings.Split strings.Count].
  destruct (Ascii.eqb c sep); cbn [length].
  - rewrite IH. reflexivity.
  - destruct (strings.Split s sep); cbn [length] in *; lia.
Qed.

Lemma Cut_app (k v : string) (sep : ascii) :
  strings.Count k sep = 0%nat ->
  strings.Cut (k +:+ String sep v) sep = Some (k, v).
Proof.
  induction k as [|c k IH]; app_cbn; cbn [strings.Cut].
  - intros _. rewrite Ascii.eqb_refl. reflexivity.
  - intros [Hc Hk]%Count_0_cons. rewrite Hc, (IH Hk). reflexivity.
Qed.

Lemma Cut_Some (s k v : string) (sep : ascii) :
  strings.Cut s sep = Some (k, v) ->
  s = k +:+ String sep v /\ strings.Count k sep = 0%nat.
Proof.
  revert k. induction s as [|c s IH]; intros k; cbn [strings.Cut].
  - discriminate.
  - destruct (Ascii.eqb c sep) eqn:Hc.
    + apply Ascii.eqb_eq in Hc as ->. intros [= <- <-]. auto.
    + destruct (strings.Cut s sep) as [[k' v']|]; [|discriminate].
      intros [= <- <-]. destruct (IH k' eq_refl) as [-> Hk].
      app_cbn; cbn [strings.Count]. rewrite Hc. auto.
Qed.

Lemma Cut_None (s : string) (sep : ascii) :
  strings.Cut s sep = None <-> strings.Count s sep = 0%nat.
Proof.
  induction s as [|c s IH]; cbn [strings.Cut strings.Count]; [tauto|].
  destruct (Ascii.eqb c sep); [split; discriminate|].
  destruct (strings.Cut s sep) as [[k v]|].
  - split; [discriminate|]. intros Hs. apply IH in Hs. discriminate.
  - cbn. rewrite <- IH. tauto.
Qed.

(** ** Prefixes and suffixes *)

Lemma substring_0_app (l r : string) :
  String.substring 0 (String.length l) (l +:+ r) = l.
Proof.
  induction l as [|c l IH]; app_cbn; cbn [String.length String.substring].
  - destruct r; reflexivity.
  - rewrite IH. reflexivity.
Qed.

Lemma substring_0_all (r : string) :
  String.substring 0 (String.length r) r = r.
Proof.
  induction r as [|c r IH]; cbn [String.length String.substring];
    [reflexivity|]. now rewrite IH.
Qed.

Lemma substring_length_app (l r : string) :
  String.substring (String.length l) (String.length r) (l +:+ r) = r.
Proof.
  induction l as [|c l IH]; app_cbn; cbn [String.length String.substring].
  - apply substring_0_all.
  - exact IH.
Qed.

Lemma String_length_app (l r : string) :
  String.length (l +:+ r) = (String.length l + String.length r)%nat.
Proof.
  induction l as [|c l IH]; app_cbn; cbn [String.length]; [reflexivity|].
  rewrite IH. reflexivity.
Qed.

Lemma TrimPrefix_sep (r : string) : strings.TrimPrefix (String "=" r) "=" = r.
Proof.
  unfold strings.TrimPrefix. cbn [strings.HasPrefix String.length].
  rewrite Ascii.eqb_refl. cbn [String.substring].
  replace (S (String.length r) - 1)%nat with (String.length r) by lia.
  apply substring_0_all.
Qed.

Lemma TrimSuffix_sep (l : string) : strings.TrimSuffix (l +:+ "=") "=" = l.
Proof.
  unfold strings.TrimSuffix, strings.HasSuffix.
  rewrite String_length_app. cbn [String.length].
  replace (1 <=? String.length l + 1)%nat with true
    by (symmetry; apply Nat.leb_le; lia).
  replace (String.length l + 1 - 1)%nat with (String.length l) by lia.
  pose proof (substring_length_app l "=") as Hsuffix.
  cbn [String.length] in Hsuffix. rewrite Hsuffix, String.eqb_refl.
  apply substring_0_app.
Qed.

(** ** The last element of a path *)

Lemma stripTrailingSlashes_name (p name : string) :
  name <> "" -> strings.Count name "/" = 0%nat ->
  path.stripTrailingSlashes (p +:+ name) = p +:+ name.
Proof.
  intros Hne Hcount.
  assert (Hname : path.stripTrailingSlashes name = name).
  { clear Hne. induction name as [|c n IH]; [reflexivity|].
    apply Count_0_cons in Hcount as [Hc Hn].
    cbn [path.stripTrailingSlashes]. rewrite (IH Hn), Hc.
    destruct n; reflexivity. }
  induction p as [|c p IH]; [exact Hname|].
  app_cbn; cbn [path.stripTrailingSlashes]. rewrite IH.
  destruct (p +:+ name) eqn:Hp; [|reflexivity].
  destruct p; [contradiction | discriminate].
Qed.

Lemma afterLast_None (s : string) (sep : ascii) :
  strings.Count s sep = 0%nat -> strings.afterLast s sep = None.
Proof.
  induction s as [|c s IH]; [reflexivity|].
  intros [Hc Hs]%Count_0_cons. cbn [strings.afterLast].
  rewrite (IH Hs), Hc. reflexivity.
Qed.

Lemma afterLast_app (dir name : string) (sep : ascii) :
  strings.Count name sep = 0%nat ->
  strings.afterLast (dir +:+ String sep name) sep = Some name.
Proof.
  intros Hname. induction dir as [|c dir IH];
    app_cbn; cbn [strings.afterLast].
  - rewrite (afterLast_None name sep Hname), Ascii.eqb_refl. reflexivity.
  - rewrite IH. reflexivity.
Qed.

Lemma Base_nonempty (p : string) :
  p <> "" ->
  path.Base p
  = let p1 := path.stripTrailingSlashes p in
    let p2 := match strings.afterLast p1 "/" with
              | Some t => t
              | None => p1
              end in
    match p2 with
    | EmptyString => "/"
    | _ => p2
    end.
Proof. destruct p; [contradiction | reflexivity]. Qed.

Lemma Base_name (name : string) :
  name <> "" -> strings.Count name "/" = 0%nat -> path.Base name = name.
Proof.
  intros Hne Hcount. rewrite (Base_nonempty name Hne). cbv zeta.
  pose proof (stripTrailingSlashes_name "" name Hne Hcount) as Hstrip.
  rewrite app_Empty in Hstrip. rewrite Hstrip.
  rewrite (afterLast_None name "/" Hcount).
  destruct name; [contradiction | reflexivity].
Qed.

Lemma Base_dir_name (dir name : string) :
  name <> "" -> strings.Count name "/" = 0%nat ->
  path.Base (dir +:+ String "/" name) = name.
Proof.
  intros Hne Hcount. rewrite Base_nonempty by (destruct dir; discriminate).
  cbv zeta.
  replace (dir +:+ String "/" name) with ((dir +:+ "/") +:+ name)
    by (rewrite app_app; reflexivity).
  rewrite (stripTrailingSlashes_name _ name Hne Hcount).
  replace ((dir +:+ "/") +:+ name) with (dir +:+ String "/" name)
    by (rewrite app_app; reflexivity).
  rewrite (afterLast_app dir name "/" Hcount).
  destruct name; [contradiction | reflexivity].
Qed.

(** C3. Single-file source specification.  Without ['='] the key is
    the last element of the path and the path is the whole entry.
    With one ['='] the text before it is the key and the text after it
    the path; an empty key is the error that names the path, an empty
    path (after a key) is the error that names the key.  With two or
    more ['='] the entry is rejected. *)
Theorem C3_parseFileName :
  (forall source,
     strings.Count source "=" = 0%nat ->
     parseFileName source = Ok (path.Base source, source))
  /\ (forall dir name,
        name <> "" -> strings.Count name "/" = 0%nat ->
        path.Base name = name /\ path.Base (dir +:+ String "/" name) = name)
  /\ (forall key fn,
        strings.Count key "=" = 0%nat -> strings.Count fn "=" = 0%nat ->
        parseFileName (key +:+ String "=" fn)
        = if String.eqb key "" then
            Err (errNew ("key name for file path " +:+ fn +:+ " missing"))
          else if String.eqb fn "" then
            Err (errNew ("file path for key name " +:+ key +:+ " missing"))
          else Ok (key, fn))
  /\ (forall source,
        (2 <= strings.Count source "=")%nat ->
        parseFileName source
        = Err (errNew "key names or file paths cannot contain '='"))
  /\ parseFileName "a/b/file.txt" = Ok ("file.txt", "a/b/file.txt")
  /\ parseFileName "k=path/to/f" = Ok ("k", "path/to/f")
  /\ parseFileName "=path"
     = Err (errNew "key name for file path path missing")
  /\ parseFileName "k=" = Err (errNew "file path for key name k missing")
  /\ parseFileName "a=b=c"
     = Err (errNew "key names or file paths cannot contain '='").
Proof.
  split; [|split; [|split; [|split]]].
  - intros source Hcount. unfold parseFileName.
    rewrite (Split_no_sep source "=" Hcount). reflexivity.
  - intros dir name Hne Hcount.
    split; [apply Base_name | apply Base_dir_name]; assumption.
  - intros key fn Hkey Hfn. unfold parseFileName.
    rewrite (Split_app key fn "=" Hkey), (Split_no_sep fn "=" Hfn).
    destruct (String.eqb_spec key "") as [->|Hk].
    + app_cbn. rewrite TrimPrefix_sep. reflexivity.
    + destruct (String.eqb_spec fn "") as [->|Hf]; [|reflexivity].
      rewrite TrimSuffix_sep. reflexivity.
  - intros source Hcount. unfold parseFileName.
    pose proof (length_Split source "=") as Hlen.
    destruct (strings.Split source "=") as [|a [|b [|c l]]];
      cbn [length] in Hlen; try lia. reflexivity.
  - repeat split; reflexivity.
Qed.

(** ** Lines of a dotenv document *)

(** The four cases of [parseDotEnvLine]. *)
Lemma parseDotEnvLine_invalid (line : string) (w : world) :
  utf8.Valid line = false ->
  parseDotEnvLine line w = (Err (errNew "invalid utf8 sequence"), w).
Proof. intros Hvalid. unfold parseDotEnvLine. rewrite Hvalid. reflexivity. Qed.

Lemma parseDotEnvLine_skip (line : string) (w : world) :
  utf8.Valid line = true ->
  bytes.TrimLeftFunc line unicode.IsSpace = ""
  \/ strings.HasPrefix (bytes.TrimLeftFunc line unicode.IsSpace) "#" = true ->
  parseDotEnvLine line w = (Ok tt, w).
Proof.
  intros Hvalid Hskip. unfold parseDotEnvLine. rewrite Hvalid. cbn [negb].
  destruct (bytes.TrimLeftFunc line unicode.IsSpace) as [|c t]; [reflexivity|].
  destruct Hskip as [Hempty|Hcomment]; [discriminate|].
  cbn [strings.HasPrefix] in Hcomment. rewrite Ascii.eqb_sym in Hcomment.
  destruct (Ascii.eqb c "#"); [reflexivity | discriminate].
Qed.

Lemma parseDotEnvLine_no_value (line : string) (w : world) :
  utf8.Valid line = true ->
  bytes.TrimLeftFunc line unicode.IsSpace <> "" ->
  strings.HasPrefix (bytes.TrimLeftFunc line unicode.IsSpace) "#" = false ->
  strings.Count (bytes.TrimLeftFunc line unicode.IsSpace) "=" = 0%nat ->
  parseDotEnvLine line w
  = (Err (errNew ("requires value: "
                  +:+ bytes.TrimLeftFunc line unicode.IsSpace)), w).
Proof.
  intros Hvalid Hne Hcomment Hcount. unfold parseDotEnvLine.
  rewrite Hvalid. cbn [negb].
  destruct (bytes.TrimLeftFunc line unicode.IsSpace) as [|c t];
    [contradiction|].
  cbn [strings.HasPrefix] in Hcomment. rewrite Ascii.eqb_sym in Hcomment.
  destruct (Ascii.eqb c "#"); [discriminate Hcomment|].
  cbn [strings.SplitN]. apply Cut_None in Hcount. rewrite Hcount. reflexivity.
Qed.

Lemma parseDotEnvLines_app (n : nat) (pre rest : list string) (w : world) :
  parseDotEnvLines n (pre ++ rest) w
  = (try _ := parseDotEnvLines n pre in
     parseDotEnvLines (n + length pre) rest) w.
Proof.
  revert n w. induction pre as [|line pre IH]; intros n w;
    cbn [app parseDotEnvLines length].
  - unfold bind, ret. rewrite Nat.add_0_r. reflexivity.
  - unfold bind.
    destruct (wrapf (parseDotEnvLine line) _ w) as [[[]|e] w1]; [|reflexivity].
    rewrite IH. unfold bind.
    replace (S n + length pre)%nat with (n + S (length pre))%nat by lia.
    reflexivity.
Qed.

(** The loop at the line that follows lines that went through: the
    number in the wrap is the count of the lines before it. *)
Lemma parseDotEnvLines_at (pre post : list string) (line : string)
    (w w1 : world) :
  parseDotEnvLines 0 pre w = (Ok tt, w1) ->
  parseDotEnvLines 0 (pre ++ line :: post) w
  = (try _ := wrapf (parseDotEnvLine line)
                ("line " +:+ strconv.Itoa (length pre)) in
     parseDotEnvLines (S (length pre)) post) w1.
Proof.
  intros Hpre. rewrite parseDotEnvLines_app. unfold bind.
  rewrite Hpre. reflexivity.
Qed.

Lemma parseDotEnvContent_unfold (content : string) (w : world) :
  parseDotEnvContent content w
  = match parseDotEnvLines 0 (fst (bufio.Scanner (utfbom.SkipOnly content))) w
    with
    | (Ok _, w') =>
        match snd (bufio.Scanner (utfbom.SkipOnly content)) with
        | Some err => (Err err, w')
        | None => (Ok tt, w')
        end
    | (Err e, w') => (Err e, w')
    end.
Proof.
  unfold parseDotEnvContent.
  destruct (bufio.Scanner (utfbom.SkipOnly content)) as [lines scannerErr].
  cbn [fst snd]. unfold bind.
  destruct (parseDotEnvLines 0 lines w) as [[[]|e] w']; [|reflexivity].
  destruct scannerErr; reflexivity.
Qed.

(** ** The scanner *)

Lemma scan_short (pieces : list string) :
  (forall piece, piece ∈ pieces -> len piece < bufio.MaxScanTokenSize) ->
  bufio.scan pieces = (bufio.dropCR <$> pieces, None).
Proof.
  induction pieces as [|piece pieces IH]; intros Hshort; cbn [bufio.scan].
  - reflexivity.
  - destruct (N.leb_spec bufio.MaxScanTokenSize (len piece)) as [Hlong|_].
    + specialize (Hshort piece ltac:(left)). lia.
    + rewrite IH; [reflexivity|]. intros p Hp. apply Hshort. right. exact Hp.
Qed.

(** The only error of the scanner is [ErrTooLong]; it stands for a
    piece of [MaxScanTokenSize] bytes or more, and the lines are the
    pieces before that one. *)
Lemma scan_err (pieces lines : list string) (err : error) :
  bufio.scan pieces = (lines, Some err) ->
  err = bufio.ErrTooLong
  /\ exists pre piece post,
       pieces = pre ++ piece :: post
       /\ lines = bufio.dropCR <$> pre
       /\ bufio.MaxScanTokenSize <= len piece.
Proof.
  revert lines. induction pieces as [|piece pieces IH]; intros lines;
    cbn [bufio.scan]; [discriminate|].
  destruct (N.leb_spec bufio.MaxScanTokenSize (len piece)) as [Hlong|_].
  - intros [= <- <-]. split; [reflexivity|]. exists [], piece, pieces. auto.
  - destruct (bufio.scan pieces) as [lines' err'] eqn:Hscan.
    intros [= <- ->]. destruct (IH lines' eq_refl)
      as (-> & pre & p & post & -> & -> & Hlong).
    split; [reflexivity|]. exists (piece :: pre), p, post. auto.
Qed.

Lemma SkipOnly_utf8_bom (s : string) :
  utfbom.SkipOnly (String (byte 0xEF) (String (byte 0xBB) (String (byte 0xBF) s)))
  = s.
Proof. destruct s; reflexivity. Qed.

(** C4 (amended). Dotenv parsing rules.  A leading byte-order mark is
    stripped.  The lines are scanned in order up to the first line of
    [MaxScanTokenSize] (65536) bytes or more; at such a line, once the
    lines before it are through, the document fails with the scanner's
    own error, which names no line.  For a scanned line that the lines
    before it let through, with [n] of them before it: a line that is
    not valid UTF-8 fails with the line number [n], whatever its
    content; a valid line that is empty or starts with ['#'] after its
    leading white space is trimmed changes nothing; a valid line of
    another kind without ['='] fails with an error whose message holds
    the line number [n] and the trimmed text of the line; a valid line
    with ['='] stores the text after the first ['='], encoded, under
    the trimmed text before it. *)
Theorem C4_dotenv_rules (content : string) (w : world) :
  let body := utfbom.SkipOnly content in
  let lines := fst (bufio.Scanner body) in
  let scannerErr := snd (bufio.Scanner body) in
  (forall s, utfbom.SkipOnly
               (String (byte 0xEF) (String (byte 0xBB) (String (byte 0xBF) s)))
             = s)
  /\ ((forall piece, piece ∈ bufio.rawLines body ->
                     len piece < bufio.MaxScanTokenSize) ->
      lines = bufio.dropCR <$> bufio.rawLines body /\ scannerErr = None)
  /\ (forall err, scannerErr = Some err ->
        err = bufio.ErrTooLong
        /\ exists pre piece post,
             bufio.rawLines body = pre ++ piece :: post
             /\ lines = bufio.dropCR <$> pre
             /\ bufio.MaxScanTokenSize <= len piece)
  /\ (forall w', parseDotEnvLines 0 lines w = (Ok tt, w') ->
        parseDotEnvContent content w
        = match scannerErr with
          | Some err => (Err err, w')
          | None => (Ok tt, w')
          end)
  /\ forall pre line post w1,
       lines = pre ++ line :: post ->
       parseDotEnvLines 0 pre w = (Ok tt, w1) ->
       let trimmed := bytes.TrimLeftFunc line unicode.IsSpace in
       let label := "line " +:+ strconv.Itoa (length pre) in
       (utf8.Valid line = false ->
        parseDotEnvContent content w
        = (Err (errWrap (errNew "invalid utf8 sequence") label), w1))
       /\ (utf8.Valid line = true ->
           trimmed = "" \/ strings.HasPrefix trimmed "#" = true ->
           parseDotEnvLines 0 (pre ++ [line]) w = (Ok tt, w1))
       /\ (utf8.Valid line = true ->
           trimmed <> "" -> strings.HasPrefix trimmed "#" = false ->
           strings.Count trimmed "=" = 0%nat ->
           parseDotEnvContent content w
           = (Err (errWrap (errNew ("requires value: " +:+ trimmed)) label), w1)
           /\ Error (errWrap (errNew ("requires value: " +:+ trimmed)) label)
              = "line " +:+ strconv.Itoa (length pre)
                +:+ ": requires value: " +:+ trimmed)
       /\ (forall k v,
             utf8.Valid line = true ->
             strings.HasPrefix trimmed "#" = false ->
             trimmed = k +:+ String "=" v -> strings.Count k "=" = 0%nat ->
             parseDotEnvLines 0 (pre ++ [line]) w
             = (Ok tt, {| data := <[k := base64.EncodeToString v]> (data w1);
                          reads := reads w1;
                          stores := stores w1 ++ [k] |})).
Proof.
  intros body lines scannerErr.
  split; [exact SkipOnly_utf8_bom|].
  split.
  { intros Hshort. subst lines scannerErr. unfold bufio.Scanner.
    rewrite (scan_short _ Hshort). auto. }
  split.
  { intros err Herr. subst lines scannerErr. unfold bufio.Scanner in *.
    destruct (bufio.scan (bufio.rawLines body)) as [ls e] eqn:Hscan.
    cbn [fst snd] in *. subst e. exact (scan_err _ _ _ Hscan). }
  split.
  { intros w' Hlines. rewrite parseDotEnvContent_unfold.
    fold body. fold lines. fold scannerErr. rewrite Hlines. reflexivity. }
  intros pre line post w1 Hsplit Hpre trimmed label.
  assert (Hfail : forall e,
    parseDotEnvLine line w1 = (Err e, w1) ->
    parseDotEnvContent content w = (Err (errWrap e label), w1)).
  { intros e Hline. rewrite parseDotEnvContent_unfold.
    fold body. fold lines. rewrite Hsplit.
    rewrite (parseDotEnvLines_at pre post line w w1 Hpre).
    unfold bind, wrapf. rewrite Hline. reflexivity. }
  assert (Hpass : forall w2,
    parseDotEnvLine line w1 = (Ok tt, w2) ->
    parseDotEnvLines 0 (pre ++ [line]) w = (Ok tt, w2)).
  { intros w2 Hline.
    rewrite (parseDotEnvLines_at pre [] line w w1 Hpre).
    unfold bind, wrapf. rewrite Hline. reflexivity. }
  repeat split.
  - intros Hvalid. apply Hfail. apply parseDotEnvLine_invalid. exact Hvalid.
  - intros Hvalid Hskip. apply Hpass. apply parseDotEnvLine_skip; assumption.
  - apply Hfail. apply parseDotEnvLine_no_value; assumption.
  - intros k v Hvalid Hcomment Htrimmed Hk. apply Hpass.
    apply parseDotEnvLine_pair; [assumption..|].
    fold trimmed. rewrite Htrimmed. apply Cut_app. exact Hk.
Qed.

(** C10 (amended). A dotenv line of valid UTF-8 that, after its
    leading white space is trimmed, is not empty, is no comment and
    holds at least one ['='] is parsed without error, also when the
    text on either side of the first ['='] is empty: ["K="] stores the
    encoding of the empty string under ["K"], and ["=v"] stores the
    encoding of ["v"] under the empty key. *)
Theorem C10_dotenv_empty_sides (line : string) (w : world) :
  let trimmed := bytes.TrimLeftFunc line unicode.IsSpace in
  utf8.Valid line = true ->
  trimmed <> "" ->
  strings.HasPrefix trimmed "#" = false ->
  (1 <= strings.Count trimmed "=")%nat ->
  (exists k v,
     trimmed = k +:+ String "=" v /\ strings.Count k "=" = 0%nat
     /\ parseDotEnvLine line w
        = (Ok tt, {| data := <[k := base64.EncodeToString v]> (data w);
                     reads := reads w;
                     stores := stores w ++ [k] |}))
  /\ parseDotEnvLine "K=" w
     = (Ok tt, {| data := <["K" := ""]> (data w);
                  reads := reads w; stores := stores w ++ ["K"] |})
  /\ parseDotEnvLine "=v" w
     = (Ok tt, {| data := <["" := "dg=="]> (data w);
                  reads := reads w; stores := stores w ++ [""] |})
  /\ base64.EncodeToString "" = "" /\ base64.EncodeToString "v" = "dg==".
Proof.
  intros trimmed Hvalid Hne Hcomment Hcount.
  split; [|repeat split].
  destruct (strings.Cut trimmed "=") as [[k v]|] eqn:Hcut.
  - destruct (Cut_Some _ _ _ _ Hcut) as [Htrimmed Hk].
    exists k, v. repeat split; [assumption..|].
    apply parseDotEnvLine_pair; assumption.
  - apply Cut_None in Hcut. lia.
Qed.

(** ** Formats *)

Lemma formatForPath_binary (p : string) :
  formatForPath p = "binary"
  <-> IsYAMLFile p = false /\ IsJSONFile p = false /\ IsEnvFile p = false.
Proof.
  unfold formatForPath.
  destruct (IsYAMLFile p), (IsJSONFile p), (IsEnvFile p);
    intuition discriminate.
Qed.

(** C5 (amended). Format asymmetry.  A path is classified as binary
    when it passes none of the three file-name tests.  An [envs] entry
    whose path is classified as binary never resolves: reading the file comes first
    and decrypting it (with the binary hint) second, and the error of
    either is the error of the source; when both go through, the
    error is "unknown file format, use dotenv, yaml or json".  A
    [files] entry is resolved whatever its classification: once its
    specification is parsed and its file is read and decrypted, the
    whole decrypted payload is stored, encoded, under the key. *)
Theorem C5_format_asymmetry (source : string) (w : world) :
  (formatForPath source = "binary"
   <-> IsYAMLFile source = false /\ IsJSONFile source = false
       /\ IsEnvFile source = false)
  /\ (formatForPath source = "binary" ->
      (exists e, parseEnvSource source w = (Err e, logRead source w))
      /\ (forall e, ReadFile source = Err e ->
                    parseEnvSource source w = (Err e, logRead source w))
      /\ (forall content e,
            ReadFile source = Ok content ->
            sopsdecryptData content "binary" = Err e ->
            parseEnvSource source w = (Err e, logRead source w))
      /\ (forall content decrypted,
            ReadFile source = Ok content ->
            sopsdecryptData content "binary" = Ok decrypted ->
            parseEnvSource source w
            = (Err (errNew "unknown file format, use dotenv, yaml or json"),
               logRead source w)))
  /\ (forall key fn content decrypted,
        parseFileName source = Ok (key, fn) ->
        ReadFile fn = Ok content ->
        sopsdecryptData content (formatForPath source) = Ok decrypted ->
        parseFileSource source w
        = (Ok tt, {| data := <[key := base64.EncodeToString decrypted]> (data w);
                     reads := reads w ++ [fn];
                     stores := stores w ++ [key] |})).
Proof.
  split; [apply formatForPath_binary|].
  split; [|intros; apply parseFileSource_Ok with (content := content); assumption].
  intros Hbinary.
  assert (Hrun : parseEnvSource source w
    = match ReadFile source with
      | Ok content =>
          match sopsdecryptData content "binary" with
          | Ok _ => (Err (errNew "unknown file format, use dotenv, yaml or json"),
                     logRead source w)
          | Err e => (Err e, logRead source w)
          end
      | Err e => (Err e, logRead source w)
      end).
  { unfold parseEnvSource, bind, readFile, lift. rewrite Hbinary.
    fold (logRead source w).
    destruct (ReadFile source) as [content|e]; [|reflexivity].
    destruct (sopsdecryptData content "binary"); reflexivity. }
  rewrite Hrun. repeat split.
  - destruct (ReadFile source) as [content|e]; [|eauto].
    destruct (sopsdecryptData content "binary"); eauto.
  - intros e ->. reflexivity.
  - intros content e -> ->. reflexivity.
  - intros content decrypted -> ->. reflexivity.
Qed.

(** ** The descriptor *)

(** C6. Descriptor rejection.  A descriptor whose [apiVersion] or
    [kind] is not the expected one, or whose [metadata.name] is empty,
    is rejected by [readInput]; the whole run ends there, and the only
    file that was read is the descriptor itself. *)
Theorem C6_descriptor_rejection (fn content : string)
    (input : SopsSecretGenerator) (w : world) :
  ReadFile fn = Ok content ->
  yamlUnmarshalInput content = Ok input ->
  APIVersion (inputTypeMeta input) <> apiVersion
  \/ Kind (inputTypeMeta input) <> kind
  \/ Name (inputObjectMeta input) = "" ->
  exists e,
    readInput fn w = (Err e, logRead fn w)
    /\ processSopsSecretGenerator fn w = (Err e, logRead fn w)
    /\ reads (logRead fn w) = reads w ++ [fn]
    /\ stores (logRead fn w) = stores w
    /\ (e = errNew "input must be apiVersion kustomize.meiqia.com/v1beta1, kind SopsSecretGenerator"
        \/ e = errNew "input must contain metadata.name value").
Proof.
  intros Hread Hyaml Hbad.
  assert (Hinput : exists e,
    readInput fn w = (Err e, logRead fn w)
    /\ (e = errNew "input must be apiVersion kustomize.meiqia.com/v1beta1, kind SopsSecretGenerator"
        \/ e = errNew "input must contain metadata.name value")).
  { unfold readInput, bind, readFile, lift. rewrite Hread, Hyaml.
    fold (logRead fn w).
    destruct (String.eqb_spec (APIVersion (inputTypeMeta input)) apiVersion)
      as [Hv|Hv]; cbn [negb orb]; [|eexists; split; [reflexivity|]; left; reflexivity].
    destruct (String.eqb_spec (Kind (inputTypeMeta input)) kind)
      as [Hk|Hk]; cbn [negb]; [|eexists; split; [reflexivity|]; left; reflexivity].
    destruct (String.eqb_spec (Name (inputObjectMeta input)) "") as [Hn|Hn];
      [eexists; split; [reflexivity|]; right; reflexivity|].
    destruct Hbad as [?|[?|?]]; contradiction. }
  destruct Hinput as (e & Hinput & He). exists e.
  split; [exact Hinput|]. split; [|auto].
  unfold processSopsSecretGenerator, bind. rewrite Hinput. reflexivity.
Qed.

(** ** Annotations *)

Lemma copy_annotations (m : kvMap) :
  map_fold (fun k v (annotations : kvMap) => <[k := v]> annotations) ∅ m = m.
Proof.
  rewrite map_fold_foldr. rewrite <- (list_to_map_to_list m) at 2.
  induction (map_to_list m) as [|[k v] l IH]; [reflexivity|].
  cbn. rewrite IH. reflexivity.
Qed.

Lemma needsHashKey_behaviorKey : needsHashKey <> behaviorKey.
Proof. discriminate. Qed.

Lemma makeAnnotations_lookup (sopsSecret : SopsSecretGenerator) (k : string) :
  makeAnnotations sopsSecret !! k
  = if decide (k = behaviorKey /\ Behavior sopsSecret <> "")
    then Some (Behavior sopsSecret)
    else if decide (k = needsHashKey /\ DisableNameSuffixHash sopsSecret = false)
    then Some "true"
    else Annotations (inputObjectMeta sopsSecret) !! k.
Proof.
  unfold makeAnnotations. rewrite copy_annotations.
  pose proof needsHashKey_behaviorKey as Hkeys.
  destruct (String.eqb_spec (Behavior sopsSecret) "") as [Hb|Hb];
    destruct (DisableNameSuffixHash sopsSecret); cbn [negb];
    rewrite ?lookup_insert; repeat case_decide; subst;
    first [reflexivity | exfalso; intuition congruence].
Qed.

Lemma generateSecret_Ok (sopsSecret : SopsSecretGenerator) (w w' : world)
    (secret : Secret) :
  generateSecret sopsSecret w = (Ok secret, w') ->
  parseInput sopsSecret w = (Ok (Data secret), w')
  /\ Annotations (secretObjectMeta secret) = makeAnnotations sopsSecret.
Proof.
  unfold generateSecret, bind, ret.
  destruct (parseInput sopsSecret w) as [[d|e] w1]; [|discriminate].
  intros [= <- <-]. auto.
Qed.

(** C7 (amended). Annotation policy.  The annotations of the output
    are the descriptor's own, with the two generated ones written over
    them: under the needs-hash key the value is "true" when
    [disableNameSuffixHash] is unset or false, and otherwise whatever
    the descriptor itself gives for that key (absent when it gives
    nothing); under the behavior key the value is the descriptor's
    [behavior] when that is not empty, and otherwise whatever the
    descriptor itself gives for that key.  Every other key is as the
    descriptor gives it. *)
Theorem C7_annotation_policy (sopsSecret : SopsSecretGenerator)
    (w w' : world) (secret : Secret) :
  generateSecret sopsSecret w = (Ok secret, w') ->
  let explicit := Annotations (inputObjectMeta sopsSecret) in
  let annotations := Annotations (secretObjectMeta secret) in
  (forall k, k <> needsHashKey -> k <> behaviorKey ->
             annotations !! k = explicit !! k)
  /\ (DisableNameSuffixHash sopsSecret = false ->
      annotations !! needsHashKey = Some "true")
  /\ (DisableNameSuffixHash sopsSecret = true ->
      annotations !! needsHashKey = explicit !! needsHashKey)
  /\ (Behavior sopsSecret <> "" ->
      annotations !! behaviorKey = Some (Behavior sopsSecret))
  /\ (Behavior sopsSecret = "" ->
      annotations !! behaviorKey = explicit !! behaviorKey).
Proof.
  intros [_ Hannotations]%generateSecret_Ok explicit annotations.
  subst explicit annotations. rewrite Hannotations.
  pose proof needsHashKey_behaviorKey as Hkeys.
  repeat split; intros; rewrite makeAnnotations_lookup;
    repeat case_decide; first [reflexivity | exfalso; intuition congruence].
Qed.

(** ** Failures *)

Lemma HasPrefix_app (s t : string) : strings.HasPrefix (s +:+ t) s = true.
Proof.
  induction s as [|c s IH]; [reflexivity|]. app_cbn.
  cbn [strings.HasPrefix]. rewrite Ascii.eqb_refl. exact IH.
Qed.

Lemma Contains_app (pre s post : string) :
  strings.Contains (pre +:+ s +:+ post) s = true.
Proof.
  induction pre as [|c pre IH]; app_cbn.
  - destruct (s +:+ post) eqn:Hs; cbn [strings.Contains];
      rewrite <- Hs, HasPrefix_app; reflexivity.
  - cbn [strings.Contains]. rewrite IH.
    destruct (strings.HasPrefix _ s); reflexivity.
Qed.

Lemma Error_resolve (src : source) (e : error) :
  Error (errWrap e (sourceLabel src)) = sourceLabel src +:+ ": " +:+ Error e
  /\ strings.Contains (Error (errWrap e (sourceLabel src))) (sourceName src)
     = true.
Proof.
  split; [reflexivity|]. cbn [Error].
  destruct src as [s|s]; cbn [sourceLabel sourceName].
  - rewrite (app_app "env source " s). apply Contains_app.
  - rewrite (app_app "file source " s). apply Contains_app.
Qed.

(** ** Computations that read no file *)

Create HintDb quiet.

Lemma quiet_ret {A} (a : A) : quiet (ret a).
Proof. intros w. reflexivity. Qed.

Lemma quiet_fail {A} (e : error) : quiet (@fail A e).
Proof. intros w. reflexivity. Qed.

Lemma quiet_lift {A} (r : result A) : quiet (lift r).
Proof. intros w. reflexivity. Qed.

Lemma quiet_store (k v : string) : quiet (store k v).
Proof. intros w. reflexivity. Qed.

Lemma quiet_bind {A B} (m : M A) (k : A -> M B) :
  quiet m -> (forall a, quiet (k a)) -> quiet (bind m k).
Proof.
  intros Hm Hk w. unfold bind. specialize (Hm w).
  destruct (m w) as [[a|e] w1]; cbn [snd] in *; [|exact Hm].
  rewrite Hk. exact Hm.
Qed.

Lemma quiet_wrapf {A} (m : M A) (msg : string) : quiet m -> quiet (wrapf m msg).
Proof.
  intros Hm w. unfold wrapf. specialize (Hm w).
  destruct (m w) as [[a|e] w1]; exact Hm.
Qed.

Lemma quiet_forEach {A} (xs : list A) (body : A -> M unit) :
  (forall x, quiet (body x)) -> quiet (forEach xs body).
Proof.
  intros Hbody. induction xs as [|x xs IH]; cbn [forEach].
  - apply quiet_ret.
  - apply quiet_bind; [apply Hbody | intros _; exact IH].
Qed.

#[local] Hint Resolve quiet_ret quiet_fail quiet_lift quiet_store quiet_wrapf
  quiet_forEach : quiet.
#[local] Hint Extern 2 (quiet (bind _ _)) =>
  apply quiet_bind; [|intros ?] : quiet.

Lemma quiet_parseDotEnvLine (line : string) : quiet (parseDotEnvLine line).
Proof.
  unfold parseDotEnvLine. destruct (negb (utf8.Valid line)); [auto with quiet|].
  destruct (bytes.TrimLeftFunc line unicode.IsSpace) as [|c t];
    [auto with quiet|].
  destruct (Ascii.eqb c "#"); [auto with quiet|].
  destruct (strings.SplitN (String c t) "=" 2) as [|k [|v [|]]];
    auto with quiet.
Qed.

Lemma quiet_parseDotEnvLines (lines : list string) (lineNum : nat) :
  quiet (parseDotEnvLines lineNum lines).
Proof.
  revert lineNum. induction lines as [|line lines IH]; intros lineNum;
    cbn [parseDotEnvLines]; [auto with quiet|].
  apply quiet_bind; [|intros _; apply IH].
  apply quiet_wrapf, quiet_parseDotEnvLine.
Qed.

Lemma quiet_parseDotEnvContent (content : string) :
  quiet (parseDotEnvContent content).
Proof.
  unfold parseDotEnvContent.
  destruct (bufio.Scanner (utfbom.SkipOnly content)) as [lines [err|]];
    (apply quiet_bind; [apply quiet_parseDotEnvLines | auto with quiet]).
Qed.

Lemma quiet_storeAll (d : kvMap) : quiet (storeAll d).
Proof. unfold storeAll. auto with quiet. Qed.

Lemma quiet_parseYAMLContent (content : string) :
  quiet (parseYAMLContent content).
Proof.
  unfold parseYAMLContent.
  apply quiet_bind; [auto with quiet | intros d; apply quiet_storeAll].
Qed.

Lemma quiet_parseJSONContent (content : string) :
  quiet (parseJSONContent content).
Proof.
  unfold parseJSONContent.
  apply quiet_bind; [auto with quiet | intros d; apply quiet_storeAll].
Qed.

(** A source reads at most one file: an [envs] entry its own path, a
    [files] entry the path of its specification, when that parses. *)
Lemma resolveSource_reads (src : source) (w w' : world) (r : result unit) :
  resolveSource src w = (r, w') ->
  exists fns, reads w' = reads w ++ fns /\ (length fns <= 1)%nat.
Proof.
  destruct src as [s|s]; cbn [resolveSource].
  - unfold parseEnvSource, bind, readFile, lift. cbn [data reads stores].
    fold (logRead s w).
    assert (Hquiet : forall (m : M unit),
      quiet m -> m (logRead s w) = (r, w') -> reads w' = reads w ++ [s]).
    { intros m Hm Hrun. specialize (Hm (logRead s w)).
      rewrite Hrun in Hm. exact Hm. }
    intros Hrun. exists [s]. split; [|cbn; lia].
    destruct (ReadFile s) as [content|e];
      [|apply (Hquiet (fail e) (quiet_fail e)); exact Hrun].
    destruct (sopsdecryptData content (formatForPath s)) as [decrypted|e];
      [|apply (Hquiet (fail e) (quiet_fail e)); exact Hrun].
    destruct (String.eqb _ "dotenv");
      [exact (Hquiet _ (quiet_parseDotEnvContent decrypted) Hrun)|].
    destruct (String.eqb _ "yaml");
      [exact (Hquiet _ (quiet_parseYAMLContent decrypted) Hrun)|].
    destruct (String.eqb _ "json");
      [exact (Hquiet _ (quiet_parseJSONContent decrypted) Hrun)|].
    exact (Hquiet _ (quiet_fail _) Hrun).
  - unfold parseFileSource, bind, readFile, lift.
    destruct (parseFileName s) as [[key fn]|e].
    + cbn [data reads stores].
      destruct (ReadFile fn) as [content|e].
      * destruct (sopsdecryptData content (formatForPath s));
          intros [= _ <-]; exists [fn]; (split; [reflexivity | cbn; lia]).
      * intros [= _ <-]. exists [fn]. split; [reflexivity | cbn; lia].
    + intros [= _ <-]. exists []. rewrite app_nil_r. split; [reflexivity|cbn;lia].
Qed.

Lemma parseDotEnvLines_Err (lines : list string) (n : nat) (w w' : world)
    (e : error) :
  parseDotEnvLines n lines w = (Err e, w') ->
  exists pre line post w1 e',
    lines = pre ++ line :: post
    /\ parseDotEnvLines n pre w = (Ok tt, w1)
    /\ parseDotEnvLine line w1 = (Err e', w')
    /\ e = errWrap e' ("line " +:+ strconv.Itoa (n + length pre)).
Proof.
  revert n w. induction lines as [|line lines IH]; intros n w;
    cbn [parseDotEnvLines]; [discriminate|].
  unfold bind, wrapf.
  destruct (parseDotEnvLine line w) as [[[]|e0] w1] eqn:Hline.
  - intros Hrest.
    destruct (IH _ _ Hrest) as (pre & l & post & w2 & e' & -> & Hpre & Hl & ->).
    exists (line :: pre), l, post, w2, e'.
    split; [reflexivity|]. split; [|split; [exact Hl|]].
    + cbn [parseDotEnvLines]. unfold bind, wrapf. rewrite Hline. exact Hpre.
    + cbn [length]. replace (S n + length pre)%nat
        with (n + S (length pre))%nat by lia. reflexivity.
  - intros [= <- <-]. exists [], line, lines, w, e0.
    cbn [length]. rewrite Nat.add_0_r. auto.
Qed.

(** A dotenv document fails in one of two ways: at a line, with the
    number of that line in front of the error, or at the end of the
    scan, with the scanner's error and no line number. *)
Lemma parseDotEnvContent_Err (content : string) (w w' : world) (e : error) :
  parseDotEnvContent content w = (Err e, w') ->
  (e = bufio.ErrTooLong
   /\ snd (bufio.Scanner (utfbom.SkipOnly content)) = Some bufio.ErrTooLong
   /\ parseDotEnvLines 0 (fst (bufio.Scanner (utfbom.SkipOnly content))) w
      = (Ok tt, w'))
  \/ exists n line w1 e',
       fst (bufio.Scanner (utfbom.SkipOnly content)) !! n = Some line
       /\ parseDotEnvLine line w1 = (Err e', w')
       /\ e = errWrap e' ("line " +:+ strconv.Itoa n).
Proof.
  rewrite parseDotEnvContent_unfold.
  destruct (parseDotEnvLines 0 _ w) as [[[]|e0] w1] eqn:Hlines.
  - destruct (snd (bufio.Scanner (utfbom.SkipOnly content))) as [err|] eqn:Herr;
      [|discriminate].
    intros [= <- <-]. left.
    unfold bufio.Scanner in Herr.
    destruct (bufio.scan _) as [ls err'] eqn:Hscan. cbn [snd] in Herr.
    subst err'. destruct (scan_err _ _ _ Hscan) as [-> _]. auto.
  - intros [= <- <-]. right.
    destruct (parseDotEnvLines_Err _ _ _ _ _ Hlines)
      as (pre & line & post & w2 & e' & Hsplit & _ & Hline & ->).
    exists (length pre), line, w2, e'. split; [|auto].
    rewrite Hsplit. apply list_lookup_middle. reflexivity.
Qed.

(** C9 (amended). First failure aborts.  When the sources before
    [src] resolve and [src] fails, the run fails there: [parseInput]
    returns no map but the error of [src] wrapped in the label of
    [src], whatever sources come after it, and leaves the world as the
    failure of [src] left it; [generateSecret] and the whole run fail
    with the same error.  At most one file was read for [src].  The
    message holds the source string.  When [src] is a dotenv document
    that was read and decrypted, the message also holds the number of
    the failing line, unless the failure is the scanner's "token too
    long", which names no line. *)
Theorem C9_first_failure (input : SopsSecretGenerator)
    (pre post : list source) (src : source) (w w1 w2 : world) (e : error) :
  declared input = pre ++ src :: post ->
  forEach pre resolve {| data := ∅; reads := reads w; stores := stores w |}
  = (Ok tt, w1) ->
  resolveSource src w1 = (Err e, w2) ->
  let err := errWrap e (sourceLabel src) in
  parseInput input w = (Err err, w2)
  /\ generateSecret input w = (Err err, w2)
  /\ (forall fn w0, readInput fn w0 = (Ok input, w) ->
                    processSopsSecretGenerator fn w0 = (Err err, w2))
  /\ (exists fns, reads w2 = reads w1 ++ fns /\ (length fns <= 1)%nat)
  /\ Error err = sourceLabel src +:+ ": " +:+ Error e
  /\ strings.Contains (Error err) (sourceName src) = true
  /\ (forall s content decrypted,
        src = envSource s -> formatForPath s = "dotenv" ->
        ReadFile s = Ok content ->
        sopsdecryptData content "dotenv" = Ok decrypted ->
        (e = bufio.ErrTooLong
         /\ snd (bufio.Scanner (utfbom.SkipOnly decrypted))
            = Some bufio.ErrTooLong)
        \/ exists n line e',
             fst (bufio.Scanner (utfbom.SkipOnly decrypted)) !! n = Some line
             /\ e = errWrap e' ("line " +:+ strconv.Itoa n)
             /\ Error err = "env source " +:+ s +:+ ": line "
                            +:+ strconv.Itoa n +:+ ": " +:+ Error e').
Proof.
  intros Hdeclared Hpre Hsrc err.
  assert (Hparse : parseInput input w = (Err err, w2)).
  { assert (Hresolve : resolve src w1 = (Err err, w2))
      by (unfold resolve, wrapf; rewrite Hsrc; reflexivity).
    rewrite parseInput_declared. unfold bind, makeData. rewrite Hdeclared.
    rewrite (forEach_stops pre post src resolve _ w1 w2 err Hpre Hresolve).
    reflexivity. }
  split; [exact Hparse|].
  split; [unfold generateSecret, bind; rewrite Hparse; reflexivity|].
  split.
  { intros fn w0 Hinput. unfold processSopsSecretGenerator, bind.
    rewrite Hinput. unfold generateSecret, bind. rewrite Hparse.
    reflexivity. }
  split; [exact (resolveSource_reads src w1 w2 _ Hsrc)|].
  split; [apply Error_resolve|]. split; [apply Error_resolve|].
  intros s content decrypted -> Hformat Hread Hdec.
  cbn [resolveSource] in Hsrc.
  unfold parseEnvSource, bind, readFile, lift in Hsrc.
  rewrite Hread in Hsrc. cbn [data reads stores] in Hsrc.
  rewrite Hformat, Hdec in Hsrc. cbn [String.eqb Ascii.eqb] in Hsrc.
  change (String.eqb "dotenv" "dotenv") with true in Hsrc. cbv iota in Hsrc.
  destruct (parseDotEnvContent_Err _ _ _ _ Hsrc)
    as [(-> & Hscan & _) | (n & line & w3 & e' & Hn & _ & ->)].
  - left. auto.
  - right. exists n, line, e'. split; [exact Hn|]. split; reflexivity.
Qed.

(** ** The map keeps no order *)

(** Every entry of the map at the end was there at the start or is a
    pair that one of the sources yields. *)
Lemma forEach_resolve_origin (srcs : list source) (K v : string)
    (w w' : world) :
  forEach srcs resolve w = (Ok tt, w') ->
  data w' !! K = Some v ->
  data w !! K = Some v
  \/ exists src y, src ∈ srcs /\ yield src = Ok y /\ y !! K = Some v.
Proof.
  revert w. induction srcs as [|src srcs IH]; intros w; cbn [forEach].
  - intros [= <-]. auto.
  - unfold bind. intros Hrun HK.
    pose proof (resolve_yield src w) as Hsrc.
    destruct (yield src) as [y|e] eqn:Hy.
    + destruct Hsrc as (w1 & Hres & Hdata). rewrite Hres in Hrun.
      destruct (IH w1 Hrun HK) as [Hw1 | (src' & y' & Hin & Hy' & HK')].
      * rewrite Hdata in Hw1.
        apply lookup_union_Some_raw in Hw1 as [Hhere | [_ Hold]]; [|auto].
        right. exists src, y. split; [left | auto].
      * right. exists src', y'. split; [right; exact Hin | auto].
    + destruct Hsrc as (w1 & Hres). rewrite Hres in Hrun. discriminate.
Qed.

Lemma forEach_resolve_disjoint (srcs : list source) (src : source)
    (y : kvMap) (K v : string) (w w' : world) :
  forEach srcs resolve w = (Ok tt, w') ->
  disjointYields srcs ->
  src ∈ srcs -> yield src = Ok y -> y !! K = Some v ->
  data w' !! K = Some v.
Proof.
  intros Hrun Hdisjoint [j Hj]%list_elem_of_lookup Hy HK.
  apply (forEach_resolve_last srcs j src y K v w w' Hrun Hj Hy HK).
  intros j' src' y' Hlt Hj' Hy'.
  apply (Hdisjoint j j' src src' y y' K); eauto. lia.
Qed.

(** C8 (amended). The data map is a map without order.  It holds one
    value per key and no trace of the order in which the keys were
    stored: two runs over the same sources, listed in any two orders,
    return the same map when no two sources share a key. *)
Theorem C8_unordered_data (input input' : SopsSecretGenerator)
    (w w' w1 w1' : world) (d d' : kvMap) :
  parseInput input w = (Ok d, w1) ->
  parseInput input' w' = (Ok d', w1') ->
  (forall src, src ∈ declared input <-> src ∈ declared input') ->
  disjointYields (declared input) ->
  disjointYields (declared input') ->
  d = d'.
Proof.
  intros [-> Hrun]%parseInput_Ok [-> Hrun']%parseInput_Ok Hsame Hdis Hdis'.
  assert (Hcopy : forall srcs srcs' u u' a a',
    forEach srcs resolve {| data := ∅; reads := a; stores := a' |} = (Ok tt, u) ->
    forEach srcs' resolve u' = (Ok tt, w1') ->
    (forall src, src ∈ srcs -> src ∈ srcs') ->
    disjointYields srcs' ->
    forall K v, data u !! K = Some v -> data w1' !! K = Some v).
  { intros srcs srcs' u u' a a' Hu Hu' Hsub Hd K v HK.
    destruct (forEach_resolve_origin srcs K v _ u Hu HK)
      as [Hempty | (src & y & Hin & Hy & Hyk)].
    - cbn in Hempty. rewrite lookup_empty in Hempty. discriminate.
    - eapply forEach_resolve_disjoint; eauto. }
  apply map_eq. intros K.
  destruct (data w1 !! K) as [v|] eqn:HK.
  - symmetry. eapply (Hcopy (declared input) (declared input')); eauto.
    intros src. apply Hsame.
  - destruct (data w1' !! K) as [v'|] eqn:HK'; [|reflexivity].
    assert (Hback : data w1 !! K = Some v'); [|congruence].
    clear Hcopy.
    destruct (forEach_resolve_origin (declared input') K v' _ w1' Hrun' HK')
      as [Hempty | (src & y & Hin & Hy & Hyk)].
    + cbn in Hempty. rewrite lookup_empty in Hempty. discriminate.
    + eapply forEach_resolve_disjoint; eauto. apply Hsame. exact Hin.
Qed.

(** * More of the program *)

(** ** Every failure of [parseInput] is the failure of a source *)

(** X1. [parseInput] fails only when a declared source fails: the
    sources before it resolved, the error is the error of that source
    behind its label, so the message starts with "env source " or
    "file source " and the source string.  A descriptor without
    sources gives the empty map and reads nothing. *)
Theorem parseInput_fails_at_a_source (input : SopsSecretGenerator)
    (w : world) :
  (forall e w',
     parseInput input w = (Err e, w') ->
     exists pre src post w1 e0,
       declared input = pre ++ src :: post
       /\ forEach pre resolve
            {| data := ∅; reads := reads w; stores := stores w |}
          = (Ok tt, w1)
       /\ resolveSource src w1 = (Err e0, w')
       /\ e = errWrap e0 (sourceLabel src)
       /\ strings.HasPrefix (Error e) (sourceLabel src) = true)
  /\ (EnvSources input = [] -> FileSources input = [] ->
      parseInput input w
      = (Ok ∅, {| data := ∅; reads := reads w; stores := stores w |})).
Proof.
  split.
  - intros e w'. rewrite parseInput_declared. unfold bind, makeData, getData.
    destruct (forEach (declared input) resolve _) as [[[]|e1] w2] eqn:Hrun;
      [discriminate|].
    intros [= <- <-].
    destruct (forEach_Err _ _ _ _ _ Hrun)
      as (pre & src & post & w1 & Hsplit & Hpre & Hsrc).
    unfold resolve, wrapf in Hsrc.
    destruct (resolveSource src w1) as [[[]|e0] w3] eqn:Hres; [discriminate|].
    injection Hsrc as <- <-.
    exists pre, src, post, w1, e0. repeat split; try assumption.
    cbn [Error]. apply HasPrefix_app.
  - intros Henvs Hfiles. unfold parseInput, bind, makeData, getData,
      parseEnvSources, parseFileSources.
    rewrite Henvs, Hfiles. reflexivity.
Qed.

(** ** What is in the map does not matter to a source *)

(** X2. Resolving a source does not depend on the world it starts
    from: whether it fails, and with what error, is the same from any
    world; when it resolves, the pairs it yields are the same, they
    are written over the map, and every other key keeps its value. *)
Theorem resolve_context_free (src : source) (w : world) :
  fst (resolve src w) = fst (resolve src emptyWorld)
  /\ forall y, yield src = Ok y ->
       exists w', resolve src w = (Ok tt, w')
                  /\ (forall K v, y !! K = Some v -> data w' !! K = Some v)
                  /\ (forall K, y !! K = None -> data w' !! K = data w !! K).
Proof.
  split.
  - pose proof (framed_resolve src (data w) (reads w) (stores w) emptyWorld)
      as Hframe.
    rewrite extend_emptyWorld in Hframe. rewrite Hframe. reflexivity.
  - intros y Hy. pose proof (resolve_yield src w) as Hsrc. rewrite Hy in Hsrc.
    destruct Hsrc as (w' & Hrun & Hdata). exists w'.
    split; [exact Hrun|]. rewrite Hdata. split.
    + intros K v HK. apply lookup_union_Some_l. exact HK.
    + intros K HK. apply lookup_union_r. exact HK.
Qed.

(** ** The keys of the result *)

Lemma forEach_resolve_kept (srcs : list source) (K : string) (w w' : world) :
  forEach srcs resolve w = (Ok tt, w') ->
  is_Some (data w !! K)
  \/ (exists src y, src ∈ srcs /\ yield src = Ok y /\ is_Some (y !! K)) ->
  is_Some (data w' !! K).
Proof.
  revert w. induction srcs as [|src srcs IH]; intros w; cbn [forEach].
  - intros [= <-] [Hold | (src & y & Hin & _)]; [exact Hold | inversion Hin].
  - unfold bind. intros Hrun HK.
    pose proof (resolve_yield src w) as Hsrc.
    destruct (yield src) as [y|e] eqn:Hy.
    + destruct Hsrc as (w1 & Hres & Hdata). rewrite Hres in Hrun.
      apply (IH w1 Hrun).
      destruct HK as [Hold | (src' & y' & Hin & Hy' & HK)].
      * left. rewrite Hdata. apply lookup_union_is_Some. right. exact Hold.
      * apply elem_of_cons in Hin as [->|Hin].
        -- left. assert (y' = y) as -> by congruence.
           rewrite Hdata. apply lookup_union_is_Some. left. exact HK.
        -- right. eauto.
    + destruct Hsrc as (w1 & Hres). rewrite Hres in Hrun. discriminate.
Qed.

(** X3. The map that [parseInput] returns has exactly the keys that
    its sources yield: no key of a source is lost, and no key comes
    from anywhere else (not from the map of an earlier call
    either). *)
Theorem parseInput_keys (input : SopsSecretGenerator) (w w' : world)
    (d : kvMap) :
  parseInput input w = (Ok d, w') ->
  forall K,
    is_Some (d !! K)
    <-> exists src y, src ∈ declared input /\ yield src = Ok y
                      /\ is_Some (y !! K).
Proof.
  intros [-> Hrun]%parseInput_Ok K. split.
  - intros [v HK].
    destruct (forEach_resolve_origin _ K v _ _ Hrun HK)
      as [Hempty | (src & y & Hin & Hy & Hyk)].
    + cbn in Hempty. rewrite lookup_empty in Hempty. discriminate.
    + exists src, y. eauto.
  - intros Hsrc. apply (forEach_resolve_kept _ K _ _ Hrun). right. exact Hsrc.
Qed.

(** ** The files that a run reads *)

Lemma resolveSource_Ok_reads (src : source) (w w' : world) :
  resolveSource src w = (Ok tt, w') ->
  exists fn, readPath src = Ok fn /\ reads w' = reads w ++ [fn].
Proof.
  destruct src as [s|s]; cbn [resolveSource readPath].
  - intros Hrun. exists s. split; [reflexivity|].
    destruct (resolveSource_reads (envSource s) w w' _ Hrun) as (fns & Hfns & _).
    unfold parseEnvSource, bind, readFile, lift in Hrun.
    cbn [data reads stores] in Hrun. fold (logRead s w) in Hrun.
    assert (Hquiet : forall (m : M unit),
      quiet m -> m (logRead s w) = (Ok tt, w') -> reads w' = reads w ++ [s]).
    { intros m Hm Hm'. specialize (Hm (logRead s w)). rewrite Hm' in Hm.
      exact Hm. }
    destruct (ReadFile s) as [content|e]; [|discriminate].
    destruct (sopsdecryptData content (formatForPath s)) as [decrypted|e];
      [|discriminate].
    destruct (String.eqb _ "dotenv");
      [exact (Hquiet _ (quiet_parseDotEnvContent decrypted) Hrun)|].
    destruct (String.eqb _ "yaml");
      [exact (Hquiet _ (quiet_parseYAMLContent decrypted) Hrun)|].
    destruct (String.eqb _ "json");
      [exact (Hquiet _ (quiet_parseJSONContent decrypted) Hrun)|].
    discriminate.
  - unfold parseFileSource, bind, readFile, lift.
    destruct (parseFileName s) as [[key fn]|e]; [|discriminate].
    cbn [data reads stores].
    destruct (ReadFile fn) as [content|e]; [|discriminate].
    destruct (sopsdecryptData content (formatForPath s)); [|discriminate].
    intros [= <-]. exists fn. split; reflexivity.
Qed.

Lemma forEach_resolve_reads (srcs : list source) (w w' : world) :
  forEach srcs resolve w = (Ok tt, w') ->
  exists fns, Forall2 (fun src fn => readPath src = Ok fn) srcs fns
              /\ reads w' = reads w ++ fns.
Proof.
  revert w. induction srcs as [|src srcs IH]; intros w; cbn [forEach].
  - intros [= <-]. exists []. rewrite app_nil_r. split; [constructor | reflexivity].
  - unfold bind, resolve, wrapf.
    destruct (resolveSource src w) as [[[]|e] w1] eqn:Hsrc; [|discriminate].
    intros Hrest.
    destruct (resolveSource_Ok_reads src w w1 Hsrc) as (fn & Hfn & Hreads).
    destruct (IH w1 Hrest) as (fns & Hfns & Hreads').
    exists (fn :: fns). split; [constructor; assumption|].
    rewrite Hreads', Hreads, <- app_assoc. reflexivity.
Qed.

Lemma forEach_resolve_reads_bound (srcs : list source) (w w' : world)
    (r : result unit) :
  forEach srcs resolve w = (r, w') ->
  exists fns, reads w' = reads w ++ fns /\ (length fns <= length srcs)%nat.
Proof.
  revert w. induction srcs as [|src srcs IH]; intros w; cbn [forEach].
  - intros [= <- <-]. exists []. rewrite app_nil_r. split; [reflexivity | cbn; lia].
  - unfold bind, resolve, wrapf.
    destruct (resolveSource src w) as [[[]|e] w1] eqn:Hsrc.
    + intros Hrest.
      destruct (resolveSource_reads src w w1 _ Hsrc) as (fns1 & Hreads & Hlen).
      destruct (IH w1 Hrest) as (fns & Hreads' & Hlen').
      exists (fns1 ++ fns). split.
      * rewrite Hreads', Hreads, <- app_assoc. reflexivity.
      * rewrite length_app. cbn [length]. lia.
    + destruct (resolveSource_reads src w w1 _ Hsrc) as (fns1 & Hreads & Hlen).
      intros [= <- <-]. exists fns1. split; [exact Hreads | cbn [length]; lia].
Qed.

Lemma readInput_reads (fn : string) (w w' : world)
    (r : result SopsSecretGenerator) :
  readInput fn w = (r, w') -> w' = logRead fn w.
Proof.
  unfold readInput, bind, readFile, lift. fold (logRead fn w).
  destruct (ReadFile fn) as [content|e]; [|intros [= _ <-]; reflexivity].
  destruct (yamlUnmarshalInput content) as [input|e];
    [|intros [= _ <-]; reflexivity].
  destruct (_ || _); [intros [= _ <-]; reflexivity|].
  destruct (String.eqb _ ""); intros [= _ <-]; reflexivity.
Qed.

(** X4. The files of a run.  A run that succeeds has read the
    descriptor and then, in the order of declaration, one file for
    each source (the path of an [envs] entry, the path in the
    specification of a [files] entry), each once, and no other file.
    A run that fails has read the descriptor first and at most one
    file for each source. *)
Theorem run_reads (fn : string) (w w' : world) :
  (forall output,
     processSopsSecretGenerator fn w = (Ok output, w') ->
     exists input fns,
       readInput fn w = (Ok input, logRead fn w)
       /\ Forall2 (fun src p => readPath src = Ok p) (declared input) fns
       /\ reads w' = reads w ++ fn :: fns)
  /\ (forall e,
        processSopsSecretGenerator fn w = (Err e, w') ->
        exists fns,
          reads w' = reads w ++ fn :: fns
          /\ forall input, readInput fn w = (Ok input, logRead fn w) ->
                           (length fns <= length (declared input))%nat).
Proof.
  unfold processSopsSecretGenerator, bind, generateSecret, bind, lift, ret.
  destruct (readInput fn w) as [[input|e0] w0] eqn:Hinput;
    pose proof (readInput_reads _ _ _ _ Hinput) as ->.
  - rewrite parseInput_declared. unfold bind, makeData, getData.
    destruct (forEach (declared input) resolve _) as [[[]|e1] w1] eqn:Hrun.
    + destruct (forEach_resolve_reads _ _ _ Hrun) as (fns & Hfns & Hreads).
      destruct (forEach_resolve_reads_bound _ _ _ _ Hrun)
        as (fns' & Hreads' & Hlen).
      cbn [reads logRead] in Hreads, Hreads'.
      split.
      * intros output Hout. exists input, fns.
        destruct (yamlMarshal _); [|discriminate]. injection Hout as _ <-.
        split; [reflexivity|]. split; [exact Hfns|].
        rewrite Hreads, <- app_assoc. reflexivity.
      * intros e He. exists fns'.
        destruct (yamlMarshal _); [discriminate|]. injection He as _ <-.
        split; [rewrite Hreads', <- app_assoc; reflexivity|].
        intros input' [= <-]. exact Hlen.
    + destruct (forEach_resolve_reads_bound _ _ _ _ Hrun)
        as (fns' & Hreads' & Hlen).
      cbn [reads logRead] in Hreads'.
      split; [discriminate|]. intros e [= _ <-]. exists fns'.
      split; [rewrite Hreads', <- app_assoc; reflexivity|].
      intros input' [= <-]. exact Hlen.
  - split; [discriminate|]. intros e [= _ <-]. exists [].
    split; [reflexivity|]. discriminate.
Qed.

(** ** Every value is an encoding *)

Lemma encoded_empty : encoded ∅.
Proof. intros K v HK. rewrite lookup_empty in HK. discriminate. Qed.

Lemma encoded_insert (m : kvMap) (k V : string) :
  encoded m -> encoded (<[k := base64.EncodeToString V]> m).
Proof.
  intros Hm K v. rewrite lookup_insert. case_decide.
  - intros [= <-]. eauto.
  - apply Hm.
Qed.

Lemma keepsEncoded_ret {A} (a : A) : keepsEncoded (ret a).
Proof. intros w Hw. exact Hw. Qed.

Lemma keepsEncoded_fail {A} (e : error) : keepsEncoded (@fail A e).
Proof. intros w Hw. exact Hw. Qed.

Lemma keepsEncoded_lift {A} (r : result A) : keepsEncoded (lift r).
Proof. intros w Hw. exact Hw. Qed.

Lemma keepsEncoded_readFile (fn : string) : keepsEncoded (readFile fn).
Proof. intros w Hw. exact Hw. Qed.

Lemma keepsEncoded_store (k V : string) :
  keepsEncoded (store k (base64.EncodeToString V)).
Proof. intros w Hw. apply encoded_insert. exact Hw. Qed.

Lemma keepsEncoded_bind {A B} (m : M A) (k : A -> M B) :
  keepsEncoded m -> (forall a, keepsEncoded (k a)) -> keepsEncoded (bind m k).
Proof.
  intros Hm Hk w Hw. unfold bind. specialize (Hm w Hw).
  destruct (m w) as [[a|e] w1]; cbn [snd] in *; [|exact Hm].
  apply Hk. exact Hm.
Qed.

Lemma keepsEncoded_wrapf {A} (m : M A) (msg : string) :
  keepsEncoded m -> keepsEncoded (wrapf m msg).
Proof.
  intros Hm w Hw. unfold wrapf. specialize (Hm w Hw).
  destruct (m w) as [[a|e] w1]; exact Hm.
Qed.

Lemma keepsEncoded_forEach {A} (xs : list A) (body : A -> M unit) :
  (forall x, keepsEncoded (body x)) -> keepsEncoded (forEach xs body).
Proof.
  intros Hbody. induction xs as [|x xs IH]; cbn [forEach].
  - apply keepsEncoded_ret.
  - apply keepsEncoded_bind; [apply Hbody | intros _; exact IH].
Qed.

Lemma keepsEncoded_parseDotEnvLine (line : string) :
  keepsEncoded (parseDotEnvLine line).
Proof.
  unfold parseDotEnvLine.
  destruct (negb (utf8.Valid line)); [apply keepsEncoded_fail|].
  destruct (bytes.TrimLeftFunc line unicode.IsSpace) as [|c t];
    [apply keepsEncoded_ret|].
  destruct (Ascii.eqb c "#"); [apply keepsEncoded_ret|].
  destruct (strings.SplitN (String c t) "=" 2) as [|k [|v [|]]];
    first [apply keepsEncoded_fail | apply keepsEncoded_store].
Qed.

Lemma keepsEncoded_parseDotEnvContent (content : string) :
  keepsEncoded (parseDotEnvContent content).
Proof.
  unfold parseDotEnvContent.
  destruct (bufio.Scanner (utfbom.SkipOnly content)) as [lines scannerErr].
  apply keepsEncoded_bind.
  - generalize 0%nat. induction lines as [|line lines IH]; intros n;
      cbn [parseDotEnvLines]; [apply keepsEncoded_ret|].
    apply keepsEncoded_bind; [|intros _; apply IH].
    apply keepsEncoded_wrapf, keepsEncoded_parseDotEnvLine.
  - intros _. destruct scannerErr;
      [apply keepsEncoded_fail | apply keepsEncoded_ret].
Qed.

Lemma keepsEncoded_storeAll (d : kvMap) : keepsEncoded (storeAll d).
Proof.
  unfold storeAll. apply keepsEncoded_forEach. intros kv.
  apply keepsEncoded_store.
Qed.

Lemma keepsEncoded_resolve (src : source) : keepsEncoded (resolve src).
Proof.
  apply keepsEncoded_wrapf. destruct src as [s|s]; cbn [resolveSource].
  - unfold parseEnvSource.
    apply keepsEncoded_bind; [apply keepsEncoded_readFile|]. intros content.
    apply keepsEncoded_bind; [apply keepsEncoded_lift|]. intros decrypted.
    destruct (String.eqb _ "dotenv"); [apply keepsEncoded_parseDotEnvContent|].
    destruct (String.eqb _ "yaml").
    { apply keepsEncoded_bind; [apply keepsEncoded_lift|].
      intros d. apply keepsEncoded_storeAll. }
    destruct (String.eqb _ "json"); [|apply keepsEncoded_fail].
    apply keepsEncoded_bind; [apply keepsEncoded_lift|].
    intros d. apply keepsEncoded_storeAll.
  - unfold parseFileSource.
    apply keepsEncoded_bind; [apply keepsEncoded_lift|]. intros [key fn].
    apply keepsEncoded_bind; [apply keepsEncoded_readFile|]. intros content.
    apply keepsEncoded_bind; [apply keepsEncoded_lift|]. intros decrypted.
    apply keepsEncoded_store.
Qed.

Lemma parseInput_encoded (input : SopsSecretGenerator) (w w' : world)
    (d : kvMap) :
  parseInput input w = (Ok d, w') -> encoded d.
Proof.
  intros [-> Hrun]%parseInput_Ok.
  pose proof (keepsEncoded_forEach (declared input) resolve keepsEncoded_resolve
                {| data := ∅; reads := reads w; stores := stores w |}
                encoded_empty) as Henc.
  rewrite Hrun in Henc. exact Henc.
Qed.

(** X5. Every value of the map that [parseInput] returns is the
    standard base64 encoding of some bytes, and decodes to them:
    nothing is ever stored that is not encoded. *)
Theorem parseInput_values_decode (input : SopsSecretGenerator)
    (w w' : world) (d : kvMap) :
  parseInput input w = (Ok d, w') ->
  forall K v, d !! K = Some v ->
    exists V, v = base64.EncodeToString V /\ base64.DecodeString v = Some V.
Proof.
  intros Hrun K v HK.
  destruct (parseInput_encoded input w w' d Hrun K v HK) as [V ->].
  exists V. split; [reflexivity|].
  apply base64_roundtrip.DecodeString_EncodeToString.
Qed.

(** ** What is handed to the serializer *)

Lemma readInput_Ok (fn : string) (w w' : world) (input : SopsSecretGenerator) :
  readInput fn w = (Ok input, w') ->
  (exists content, ReadFile fn = Ok content
                   /\ yamlUnmarshalInput content = Ok input)
  /\ APIVersion (inputTypeMeta input) = apiVersion
  /\ Kind (inputTypeMeta input) = kind
  /\ Name (inputObjectMeta input) <> ""
  /\ w' = logRead fn w.
Proof.
  unfold readInput, bind, readFile, lift. fold (logRead fn w).
  destruct (ReadFile fn) as [content|e]; [|discriminate].
  destruct (yamlUnmarshalInput content) as [input0|e] eqn:Hyaml; [|discriminate].
  destruct (String.eqb_spec (APIVersion (inputTypeMeta input0)) apiVersion)
    as [Hv|Hv]; [|discriminate].
  destruct (String.eqb_spec (Kind (inputTypeMeta input0)) kind) as [Hk|Hk];
    [|discriminate].
  destruct (String.eqb_spec (Name (inputObjectMeta input0)) "") as [Hn|Hn];
    [discriminate|].
  cbn [negb orb]. intros [= <- <-]. eauto 10.
Qed.

(** X6. A run that succeeds printed the serialization of a Secret of
    [apiVersion] "v1" and kind "Secret" that carries the name (never
    empty), the namespace, the labels and the type of the descriptor
    unchanged, and a data map of decodable base64 values only. *)
Theorem run_serializes_a_secret (fn output : string) (w w' : world) :
  processSopsSecretGenerator fn w = (Ok output, w') ->
  exists input secret,
    readInput fn w = (Ok input, logRead fn w)
    /\ yamlMarshal secret = Ok output
    /\ secretTypeMeta secret = {| APIVersion := "v1"; Kind := "Secret" |}
    /\ Name (secretObjectMeta secret) = Name (inputObjectMeta input)
    /\ Name (secretObjectMeta secret) <> ""
    /\ Namespace (secretObjectMeta secret) = Namespace (inputObjectMeta input)
    /\ Labels (secretObjectMeta secret) = Labels (inputObjectMeta input)
    /\ secretType secret = inputType input
    /\ parseInput input (logRead fn w) = (Ok (Data secret), w')
    /\ forall K v, Data secret !! K = Some v ->
         exists V, v = base64.EncodeToString V
                   /\ base64.DecodeString v = Some V.
Proof.
  unfold processSopsSecretGenerator, bind, lift, ret.
  destruct (readInput fn w) as [[input|e0] w0] eqn:Hinput; [|discriminate].
  destruct (readInput_Ok _ _ _ _ Hinput) as (_ & _ & _ & Hname & ->).
  destruct (generateSecret input (logRead fn w)) as [[secret|e1] w1] eqn:Hgen;
    [|discriminate].
  destruct (yamlMarshal secret) as [out|e2] eqn:Hout; [|discriminate].
  intros [= <- <-]. exists input, secret.
  unfold generateSecret, bind, ret in Hgen.
  destruct (parseInput input (logRead fn w)) as [[d|e3] w2] eqn:Hparse;
    [|discriminate].
  injection Hgen as <- <-. cbn.
  repeat split; try assumption; try reflexivity.
  intros K v HK.
  destruct (parseInput_encoded input _ _ d Hparse K v HK) as [V ->].
  exists V. split; [reflexivity|].
  apply base64_roundtrip.DecodeString_EncodeToString.
Qed.

(** ** The command *)

(** X7. The contract of the command.  With an argument count other
    than one the exit code is 1, the usage line goes to standard
    error and no file is touched.  With one argument the exit code is
    0 exactly when the run succeeds, and then the output is on
    standard output and standard error is empty; otherwise the exit
    code is 2, standard output is empty and standard error starts with
    "Error: " and the message of the error. *)
Theorem main_contract (sopsUserError : error -> option string)
    (osArgs : list string) (w : world) :
  (length osArgs <> 2%nat ->
   main sopsUserError osArgs w
   = ({| exitCode := 1; stdout := "";
         stderr := "usage: SopsSecretGenerator FILE" +:+ String "010" "" |}, w))
  /\ (forall prog fn,
        osArgs = [prog; fn] ->
        (forall output w',
           processSopsSecretGenerator fn w = (Ok output, w') ->
           main sopsUserError osArgs w
           = ({| exitCode := 0; stdout := output; stderr := "" |}, w'))
        /\ (forall err w',
              processSopsSecretGenerator fn w = (Err err, w') ->
              exists out,
                main sopsUserError osArgs w = (out, w')
                /\ exitCode out = 2%nat /\ stdout out = ""
                /\ strings.HasPrefix (stderr out) ("Error: " +:+ Error err)
                   = true
                /\ (sopsUserError (Cause err) = None ->
                    stderr out
                    = "Error: " +:+ Error err +:+ String "010" "")
                /\ (forall userError,
                      sopsUserError (Cause err) = Some userError ->
                      stderr out
                      = "Error: " +:+ Error err +:+ String "010" ""
                        +:+ userError +:+ String "010" ""))
        /\ (exitCode (fst (main sopsUserError osArgs w)) = 0%nat
            <-> exists output w',
                  processSopsSecretGenerator fn w = (Ok output, w'))).
Proof.
  split.
  - intros Hlen. destruct osArgs as [|a [|b [|c l]]]; try reflexivity.
    cbn [length] in Hlen. contradiction.
  - intros prog fn ->. unfold main. split; [|split].
    + intros output w' ->. reflexivity.
    + intros err w' ->.
      destruct (sopsUserError (Cause err)) as [userError|];
        eexists; (split; [reflexivity|]); cbn [exitCode stdout stderr];
        repeat split; try discriminate; try reflexivity.
      * rewrite <- (app_app "Error: " (Error err)). apply HasPrefix_app.
      * intros u [= <-]. reflexivity.
      * rewrite <- (app_app "Error: " (Error err)). apply HasPrefix_app.
    + destruct (processSopsSecretGenerator fn w) as [[output|err] w'].
      * cbn. split; eauto.
      * destruct (sopsUserError (Cause err)); cbn;
          (split; [discriminate | intros (? & ? & ?); discriminate]).
Qed.

(** ** Structured documents *)

(** The loop over the entries gives the same map in whatever order it
    visits them. *)
Lemma forEach_store_any_order (d : kvMap) (l : list (string * string))
    (w : world) :
  l ≡ₚ map_to_list d ->
  data (snd (forEach l (fun kv => store (fst kv)
                                    (base64.EncodeToString (snd kv))) w))
  = (base64.EncodeToString <$> d) ∪ data w.
Proof.
  intros Hperm.
  assert (Hnodup : NoDup l.*1).
  { rewrite Hperm. apply NoDup_fst_map_to_list. }
  destruct (forEach_store_data base64.EncodeToString l w Hnodup)
    as (w' & Hrun & Hdata & _).
  rewrite Hrun. cbn [snd]. rewrite Hdata, list_to_map_fmap.
  rewrite (list_to_map_proper l (map_to_list d) Hnodup Hperm).
  rewrite list_to_map_to_list. reflexivity.
Qed.

(** X8. A yaml or json document.  When the document decodes to the
    map [d], every entry of [d] is stored encoded under its key, the
    other keys of the data map keep their values, no file is read, and
    the result is the same for every order in which the entries of [d]
    may be visited.  When it does not decode, the error of the decoder
    is returned as it is and nothing is stored. *)
Theorem structured_content (content : string) (w : world) :
  (forall d, yamlUnmarshalMap content = Ok d ->
     exists w', parseYAMLContent content w = (Ok tt, w')
       /\ data w' = (base64.EncodeToString <$> d) ∪ data w
       /\ (forall K V, d !! K = Some V ->
                       data w' !! K = Some (base64.EncodeToString V))
       /\ (forall K, d !! K = None -> data w' !! K = data w !! K)
       /\ reads w' = reads w
       /\ forall l, l ≡ₚ map_to_list d ->
            data (snd (forEach l (fun kv =>
                         store (fst kv) (base64.EncodeToString (snd kv))) w))
            = data w')
  /\ (forall d, jsonUnmarshalMap content = Ok d ->
        exists w', parseJSONContent content w = (Ok tt, w')
          /\ data w' = (base64.EncodeToString <$> d) ∪ data w
          /\ reads w' = reads w)
  /\ (forall e, yamlUnmarshalMap content = Err e ->
                parseYAMLContent content w = (Err e, w))
  /\ (forall e, jsonUnmarshalMap content = Err e ->
                parseJSONContent content w = (Err e, w)).
Proof.
  split; [|split; [|split]].
  - intros d Hd. destruct (storeAll_data d w) as (w' & Hrun & Hdata & Hreads).
    exists w'. unfold parseYAMLContent, bind, lift. rewrite Hd.
    split; [exact Hrun|]. split; [exact Hdata|]. rewrite Hdata.
    split; [|split; [|split; [exact Hreads|]]].
    + intros K V HK. apply lookup_union_Some_l.
      rewrite lookup_fmap, HK. reflexivity.
    + intros K HK. apply lookup_union_r. rewrite lookup_fmap, HK. reflexivity.
    + intros l Hl. apply forEach_store_any_order. exact Hl.
  - intros d Hd. destruct (storeAll_data d w) as (w' & Hrun & Hdata & Hreads).
    exists w'. unfold parseJSONContent, bind, lift. rewrite Hd. auto.
  - intros e He. unfold parseYAMLContent, bind, lift. rewrite He. reflexivity.
  - intros e He. unfold parseJSONContent, bind, lift. rewrite He. reflexivity.
Qed.

(** ** The descriptor, accepted *)

(** X9. [readInput] accepts a descriptor exactly when the file is
    read and decoded, [apiVersion] and [kind] are the expected ones
    and [metadata.name] is not empty; it returns the decoded
    descriptor unchanged and has read that one file.  A read or decode
    error is returned as it is; a wrong [apiVersion] or [kind] is
    reported also when the name is empty as well. *)
Theorem readInput_accepts (fn : string) (w : world) :
  (forall input w',
     readInput fn w = (Ok input, w')
     <-> (exists content, ReadFile fn = Ok content
                          /\ yamlUnmarshalInput content = Ok input)
         /\ APIVersion (inputTypeMeta input) = apiVersion
         /\ Kind (inputTypeMeta input) = kind
         /\ Name (inputObjectMeta input) <> ""
         /\ w' = logRead fn w)
  /\ (forall e, ReadFile fn = Err e -> readInput fn w = (Err e, logRead fn w))
  /\ (forall content e,
        ReadFile fn = Ok content -> yamlUnmarshalInput content = Err e ->
        readInput fn w = (Err e, logRead fn w))
  /\ (forall content input,
        ReadFile fn = Ok content -> yamlUnmarshalInput content = Ok input ->
        APIVersion (inputTypeMeta input) <> apiVersion
        \/ Kind (inputTypeMeta input) <> kind ->
        readInput fn w
        = (Err (errNew ("input must be apiVersion " +:+ apiVersion
                        +:+ ", kind " +:+ kind)), logRead fn w)).
Proof.
  split; [|split; [|split]].
  - intros input w'. split; [apply readInput_Ok|].
    intros ((content & Hread & Hyaml) & Hv & Hk & Hn & ->).
    unfold readInput, bind, readFile, lift. rewrite Hread, Hyaml.
    fold (logRead fn w). rewrite Hv, Hk, !String.eqb_refl. cbn [negb orb].
    destruct (String.eqb_spec (Name (inputObjectMeta input)) "");
      [contradiction | reflexivity].
  - intros e Hread. unfold readInput, bind, readFile. rewrite Hread.
    reflexivity.
  - intros content e Hread Hyaml. unfold readInput, bind, readFile, lift.
    rewrite Hread, Hyaml. reflexivity.
  - intros content input Hread Hyaml Hbad.
    unfold readInput, bind, readFile, lift. rewrite Hread, Hyaml.
    fold (logRead fn w).
    destruct (String.eqb_spec (APIVersion (inputTypeMeta input)) apiVersion)
      as [Hv|Hv]; [|reflexivity].
    destruct (String.eqb_spec (Kind (inputTypeMeta input)) kind) as [Hk|Hk];
      [|reflexivity].
    destruct Hbad; contradiction.
Qed.

(** ** File specifications, read backwards *)

Lemma Split_cons_inv (s a : string) (rest : list string) (sep : ascii) :
  strings.Split s sep = a :: rest ->
  strings.Count a sep = 0%nat
  /\ (rest = [] /\ s = a
      \/ exists s', s = a +:+ String sep s' /\ strings.Split s' sep = rest).
Proof.
  revert a rest. induction s as [|c s IH]; intros a rest; cbn [strings.Split].
  - intros [= <- <-]. auto.
  - destruct (Ascii.eqb c sep) eqn:Hc.
    + apply Ascii.eqb_eq in Hc as ->. intros [= <- <-].
      split; [reflexivity|]. right. exists s. auto.
    + destruct (strings.Split s sep) as [|piece pieces] eqn:Hs.
      * pose proof (length_Split s sep) as Hlen. rewrite Hs in Hlen.
        discriminate.
      * intros [= <- <-]. destruct (IH piece pieces eq_refl) as [Hpiece Hrest].
        split; [cbn [strings.Count]; rewrite Hc; exact Hpiece|].
        destruct Hrest as [[-> ->] | (s' & -> & Hs')]; [left; auto|].
        right. exists s'. auto.
Qed.

Lemma Count_stripTrailingSlashes (p : string) (c : ascii) :
  (strings.Count (path.stripTrailingSlashes p) c <= strings.Count p c)%nat.
Proof.
  induction p as [|a p IH]; [reflexivity|].
  cbn [path.stripTrailingSlashes].
  destruct (path.stripTrailingSlashes p) as [|b t] eqn:Hstrip.
  - destruct (Ascii.eqb a "/"); cbn [strings.Count] in *; lia.
  - cbn [strings.Count] in *. lia.
Qed.

Lemma Count_afterLast (p t : string) (sep c : ascii) :
  strings.afterLast p sep = Some t ->
  (strings.Count t c <= strings.Count p c)%nat.
Proof.
  revert t. induction p as [|a p IH]; intros t; cbn [strings.afterLast];
    [discriminate|].
  destruct (strings.afterLast p sep) as [t'|].
  - intros [= <-]. specialize (IH t' eq_refl). cbn [strings.Count]. lia.
  - destruct (Ascii.eqb a sep); [|discriminate].
    intros [= <-]. cbn [strings.Count]. lia.
Qed.

Lemma Base_not_empty (p : string) : path.Base p <> "".
Proof.
  unfold path.Base. destruct p as [|a p]; [discriminate|].
  destruct (match strings.afterLast _ _ with Some t => t | None => _ end);
    discriminate.
Qed.

Lemma Count_Base (p : string) :
  strings.Count p "=" = 0%nat -> strings.Count (path.Base p) "=" = 0%nat.
Proof.
  intros Hp. destruct (String.eqb_spec p "") as [->|Hne]; [reflexivity|].
  rewrite (Base_nonempty p Hne). cbv zeta.
  pose proof (Count_stripTrailingSlashes p "=") as Hstrip.
  destruct (strings.afterLast (path.stripTrailingSlashes p) "/") as [t|] eqn:Ht.
  - pose proof (Count_afterLast _ _ "/" "=" Ht) as Hafter.
    destruct t; [reflexivity|]. lia.
  - destruct (path.stripTrailingSlashes p); [reflexivity|]. lia.
Qed.

(** X10. What [parseFileName] returns tells what it was given.  A key
    is never empty and neither key nor path holds a ['=']; either the
    entry is the path alone and the key is the last element of the
    path, or the entry is the key, a ['='] and a path that is not
    empty.  The path is empty only for the empty entry. *)
Theorem parseFileName_inverse (source key fn : string) :
  parseFileName source = Ok (key, fn) ->
  key <> ""
  /\ strings.Count key "=" = 0%nat
  /\ strings.Count fn "=" = 0%nat
  /\ (source = fn /\ key = path.Base fn
      \/ source = key +:+ String "=" fn /\ fn <> "")
  /\ (fn = "" -> source = "").
Proof.
  unfold parseFileName.
  destruct (strings.Split source "=") as [|a [|b [|c l]]] eqn:Hsplit;
    try discriminate.
  - intros [= <- <-].
    destruct (Split_cons_inv _ _ _ _ Hsplit)
      as [Ha [[_ <-] | (s' & _ & Hs')]].
    + split; [apply Base_not_empty|]. split; [apply Count_Base; exact Ha|].
      split; [exact Ha|]. split; [left; auto | auto].
    + pose proof (length_Split s' "=") as Hlen. rewrite Hs' in Hlen.
      discriminate.
  - destruct (String.eqb_spec a "") as [Ha|Ha]; [discriminate|].
    destruct (String.eqb_spec b "") as [Hb|Hb]; [discriminate|].
    intros [= <- <-].
    destruct (Split_cons_inv _ _ _ _ Hsplit)
      as [Hca [[Hnil _] | (s' & -> & Hs')]]; [discriminate|].
    destruct (Split_cons_inv _ _ _ _ Hs')
      as [Hcb [[_ ->] | (s'' & _ & Hs'')]].
    + repeat split; try assumption; [right; auto | contradiction].
    + pose proof (length_Split s'' "=") as Hlen. rewrite Hs'' in Hlen.
      discriminate.
Qed.

(** ** A dotenv line, read backwards *)



Lemma parseDotEnvLine_Ok_inv (line : string) (w w' : world) :
  parseDotEnvLine line w = (Ok tt, w') ->
  utf8.Valid line = true
  /\ (w' = w
      /\ (bytes.TrimLeftFunc line unicode.IsSpace = ""
          \/ strings.HasPrefix (bytes.TrimLeftFunc line unicode.IsSpace) "#"
             = true)
      \/ exists k v,
           bytes.TrimLeftFunc line unicode.IsSpace = k +:+ String "=" v
           /\ strings.Count k "=" = 0%nat
           /\ strings.HasPrefix (bytes.TrimLeftFunc line unicode.IsSpace) "#"
              = false
           /\ w' = {| data := <[k := base64.EncodeToString v]> (data w);
                      reads := reads w;
                      stores := stores w ++ [k] |}).
Proof.
  unfold parseDotEnvLine. destruct (utf8.Valid line); [|discriminate].
  cbn [negb]. intros Hrun. split; [reflexivity|]. revert Hrun.
  destruct (bytes.TrimLeftFunc line unicode.IsSpace) as [|c t] eqn:Htrim.
  - intros [= <-]. left. auto.
  - cbn [strings.HasPrefix]. rewrite (Ascii.eqb_sym "#" c).
    destruct (Ascii.eqb c "#") eqn:Hc.
    + intros [= <-]. left. auto.
    + cbn [strings.SplitN].
      destruct (strings.Cut (String c t) "=") as [[k v]|] eqn:Hcut;
        [|discriminate].
      intros [= <-]. right. exists k, v.
      destruct (Cut_Some _ _ _ _ Hcut) as [-> Hk]. auto.
Qed.


(** ** A dotenv document: the last line of a key wins *)

Lemma parseDotEnvLines_untouched (lines : list string) (n : nat) (K : string)
    (w w' : world) :
  parseDotEnvLines n lines w = (Ok tt, w') ->
  (forall l k v, l ∈ lines ->
     bytes.TrimLeftFunc l unicode.IsSpace = k +:+ String "=" v ->
     strings.Count k "=" = 0%nat ->
     strings.HasPrefix (bytes.TrimLeftFunc l unicode.IsSpace) "#" = false ->
     k <> K) ->
  data w' !! K = data w !! K.
Proof.
  revert n w. induction lines as [|line lines IH]; intros n w;
    cbn [parseDotEnvLines].
  - intros [= <-]. reflexivity.
  - unfold bind, wrapf.
    destruct (parseDotEnvLine line w) as [[[]|e] w1] eqn:Hline; [|discriminate].
    intros Hrest Hother. rewrite (IH _ _ Hrest).
    + destruct (parseDotEnvLine_Ok_inv line w w1 Hline)
        as [_ [[-> _] | (k & v & Htrim & Hk & Hcomment & ->)]]; [reflexivity|].
      cbn [data]. apply lookup_insert_ne.
      apply (Hother line k v); [left | assumption..].
    + intros l k v Hin. apply Hother. right. exact Hin.
Qed.

(** X12. In a dotenv document that is parsed without error, the pair
    of a line is in the map at the end unless a later line has the
    same key, and a key that no line has keeps the value it had: in
    particular a document of blank lines and comments, or an empty
    one, changes nothing. *)
Theorem dotenv_last_line_wins (content : string) (w w' : world) :
  parseDotEnvContent content w = (Ok tt, w') ->
  (forall pre line post k v,
     fst (bufio.Scanner (utfbom.SkipOnly content)) = pre ++ line :: post ->
     utf8.Valid line = true ->
     strings.HasPrefix (bytes.TrimLeftFunc line unicode.IsSpace) "#" = false ->
     bytes.TrimLeftFunc line unicode.IsSpace = k +:+ String "=" v ->
     strings.Count k "=" = 0%nat ->
     (forall l k' v', l ∈ post ->
        bytes.TrimLeftFunc l unicode.IsSpace = k' +:+ String "=" v' ->
        strings.Count k' "=" = 0%nat ->
        strings.HasPrefix (bytes.TrimLeftFunc l unicode.IsSpace) "#" = false ->
        k' <> k) ->
     data w' !! k = Some (base64.EncodeToString v))
  /\ (forall K,
        (forall l k' v', l ∈ fst (bufio.Scanner (utfbom.SkipOnly content)) ->
           bytes.TrimLeftFunc l unicode.IsSpace = k' +:+ String "=" v' ->
           strings.Count k' "=" = 0%nat ->
           strings.HasPrefix (bytes.TrimLeftFunc l unicode.IsSpace) "#" = false ->
           k' <> K) ->
        data w' !! K = data w !! K).
Proof.
  rewrite parseDotEnvContent_unfold.
  destruct (parseDotEnvLines 0 _ w) as [[[]|e] w1] eqn:Hlines; [|discriminate].
  destruct (snd (bufio.Scanner (utfbom.SkipOnly content))); [discriminate|].
  intros [= <-]. split.
  - intros pre line post k v Hsplit Hvalid Hcomment Htrim Hk Hlater.
    rewrite Hsplit, parseDotEnvLines_app in Hlines. unfold bind in Hlines.
    destruct (parseDotEnvLines 0 pre w) as [[[]|e] w0]; [|discriminate].
    cbn [parseDotEnvLines] in Hlines. unfold bind, wrapf in Hlines.
    rewrite (parseDotEnvLine_pair line k v w0 Hvalid Hcomment) in Hlines
      by (rewrite Htrim; apply Cut_app; exact Hk).
    rewrite (parseDotEnvLines_untouched post _ k _ _ Hlines Hlater).
    cbn [data]. apply lookup_insert_eq.
  - intros K Hnone. exact (parseDotEnvLines_untouched _ _ K _ _ Hlines Hnone).
Qed.

(** ** Line ends *)






(** ** A source that fails *)

(** X14. A source that fails and is not a dotenv document has stored
    nothing: a [files] entry, a yaml or json document and an entry of
    unknown format fail before the first store.  A dotenv document
    that fails has stored the pairs of the lines before the failure,
    and whatever the failure, no key that was in the map is gone. *)
Theorem failing_source_stores (s : string) (w w' : world) (e : error) :
  (parseFileSource s w = (Err e, w') ->
   data w' = data w /\ stores w' = stores w)
  /\ (formatForPath s <> "dotenv" ->
      parseEnvSource s w = (Err e, w') ->
      data w' = data w /\ stores w' = stores w)
  /\ (parseEnvSource s w = (Err e, w') ->
      forall K, is_Some (data w !! K) -> is_Some (data w' !! K)).
Proof.
  split; [|split].
  - unfold parseFileSource, bind, readFile, lift.
    destruct (parseFileName s) as [[key fn]|e0]; [|intros [= _ <-]; auto].
    cbn [data reads stores].
    destruct (ReadFile fn) as [content|e0]; [|intros [= _ <-]; auto].
    destruct (sopsdecryptData content (formatForPath s));
      [discriminate | intros [= _ <-]; auto].
  - intros Hformat. unfold parseEnvSource, bind, readFile, lift.
    cbn [data reads stores].
    destruct (ReadFile s) as [content|e0]; [|intros [= _ <-]; auto].
    destruct (sopsdecryptData content (formatForPath s)) as [decrypted|e0];
      [|intros [= _ <-]; auto].
    destruct (String.eqb_spec (formatForPath s) "dotenv"); [contradiction|].
    destruct (String.eqb _ "yaml").
    { unfold parseYAMLContent, bind, lift.
      destruct (yamlUnmarshalMap decrypted) as [d|e0];
        [|intros [= _ <-]; auto].
      destruct (storeAll_data d (logRead s w)) as (w1 & Hrun & _).
      fold (logRead s w). rewrite Hrun. discriminate. }
    destruct (String.eqb _ "json"); [|intros [= _ <-]; auto].
    unfold parseJSONContent, bind, lift.
    destruct (jsonUnmarshalMap decrypted) as [d|e0];
      [|intros [= _ <-]; auto].
    destruct (storeAll_data d (logRead s w)) as (w1 & Hrun & _).
    fold (logRead s w). rewrite Hrun. discriminate.
  - intros Hrun K HK.
    pose proof (framed_parseEnvSource s (data w) (reads w) (stores w)
                  emptyWorld) as Hframe.
    rewrite extend_emptyWorld, Hrun in Hframe. injection Hframe as _ ->.
    cbn [data extend]. apply lookup_union_is_Some. right. exact HK.
Qed.

(** ** Entries and values *)

(** X15. The stored entry determines the value: two values with the
    same encoding are the same bytes, so two file sources that store
    equal entries hold equal decrypted payloads. *)
Theorem stored_entry_determines_value :
  (forall V1 V2,
     base64.EncodeToString V1 = base64.EncodeToString V2 -> V1 = V2)
  /\ forall s1 s2 key1 key2 fn1 fn2 content1 content2 V1 V2 w1 w2,
       parseFileName s1 = Ok (key1, fn1) -> ReadFile fn1 = Ok content1 ->
       sopsdecryptData content1 (formatForPath s1) = Ok V1 ->
       parseFileName s2 = Ok (key2, fn2) -> ReadFile fn2 = Ok content2 ->
       sopsdecryptData content2 (formatForPath s2) = Ok V2 ->
       data (snd (parseFileSource s1 w1)) !! key1
       = data (snd (parseFileSource s2 w2)) !! key2 ->
       V1 = V2.
Proof.
  assert (Hinj : forall V1 V2,
    base64.EncodeToString V1 = base64.EncodeToString V2 -> V1 = V2).
  { intros V1 V2 Heq.
    pose proof (base64_roundtrip.DecodeString_EncodeToString V1) as H1.
    rewrite Heq, base64_roundtrip.DecodeString_EncodeToString in H1.
    congruence. }
  split; [exact Hinj|].
  intros s1 s2 key1 key2 fn1 fn2 content1 content2 V1 V2 w1 w2
    Hn1 Hr1 Hd1 Hn2 Hr2 Hd2.
  rewrite (parseFileSource_Ok s1 key1 fn1 content1 V1 w1 Hn1 Hr1 Hd1).
  rewrite (parseFileSource_Ok s2 key2 fn2 content2 V2 w2 Hn2 Hr2 Hd2).
  cbn [snd data]. rewrite !lookup_insert_eq. intros [= Heq].
  apply Hinj. exact Heq.
Qed.

(** ** Where the error of a run comes from *)

(** X16. A run fails in one of three places, and returns the error
    of that place as it is, with no text of its own in front: the
    descriptor was refused, and then no source was touched; or a
    declared source failed, and then the message starts with the label
    of that source; or every source resolved and the serializer
    failed. *)
Theorem run_error_origin (fn : string) (w w' : world) (e : error) :
  processSopsSecretGenerator fn w = (Err e, w') ->
  (readInput fn w = (Err e, w') /\ w' = logRead fn w)
  \/ exists input,
       readInput fn w = (Ok input, logRead fn w)
       /\ ((parseInput input (logRead fn w) = (Err e, w')
            /\ exists src, src ∈ declared input
                 /\ strings.HasPrefix (Error e) (sourceLabel src) = true)
           \/ exists secret,
                generateSecret input (logRead fn w) = (Ok secret, w')
                /\ parseInput input (logRead fn w) = (Ok (Data secret), w')
                /\ yamlMarshal secret = Err e).
Proof.
  unfold processSopsSecretGenerator, bind, lift, ret.
  destruct (readInput fn w) as [[input|e0] w0] eqn:Hinput;
    pose proof (readInput_reads _ _ _ _ Hinput) as ->.
  - intros Hrun. right. exists input. split; [reflexivity|]. revert Hrun.
    unfold generateSecret, bind, ret.
    destruct (parseInput input (logRead fn w)) as [[d|e1] w1] eqn:Hparse.
    + destruct (yamlMarshal _) as [output|e1] eqn:Hmarshal; [discriminate|].
      intros [= <- <-]. right. eexists. split; [reflexivity|].
      split; [reflexivity | exact Hmarshal].
    + intros [= <- <-]. left. split; [reflexivity|].
      rewrite parseInput_declared in Hparse.
      unfold bind, makeData, getData in Hparse.
      destruct (forEach (declared input) resolve _) as [[[]|e2] w2] eqn:Hrun;
        [discriminate|].
      injection Hparse as <- <-.
      destruct (forEach_Err _ _ _ _ _ Hrun)
        as (pre & src & post & w3 & Hsplit & _ & Hsrc).
      unfold resolve, wrapf in Hsrc.
      destruct (resolveSource src w3) as [[[]|e0] w4]; [discriminate|].
      injection Hsrc as <- <-.
      exists src. split; [rewrite Hsplit; apply elem_of_app; right; left|].
      cbn [Error]. apply HasPrefix_app.
  - intros [= <- <-]. left. split; reflexivity.
Qed.

End ProgramFacts.

(** * The theorems at work in the concrete setting *)

Import Demo.

(** The example of the specification: [a.env] decrypts to [FOO=bar]
    and a comment, [b.bin] to the bytes 1 and 2. *)
Example end_to_end :
  fst (parseInput example emptyWorld)
  = Ok {[ "FOO" := base64.EncodeToString "bar";
          "b.bin" := base64.EncodeToString twoBytes ]}.
Proof. vm_compute. reflexivity. Qed.

(** The overwriting descriptor: [a.env] yields [FOO=bar], [x.yaml]
    yields [FOO: baz] after it, and no file source yields [FOO]. *)
Lemma C1_witness :
  exists d,
    fst (parseInput overwriting emptyWorld) = Ok d
    /\ d !! "FOO" = Some "YmF6".
Proof.
  pose (d := ({[ "FOO" := "YmF6"; "b.bin" := "AQI=";
                 "Z" := "Rk9PPWJhcgojY29tbWVudAo=" ]} : kvMap)).
  assert (Hrun : parseInput overwriting emptyWorld
                 = (Ok d, snd (parseInput overwriting emptyWorld)))
    by (vm_compute; reflexivity).
  exists d. split; [rewrite Hrun; reflexivity|].
  assert (Ha : yield (envSource "a.env") = Ok {[ "FOO" := "YmFy" ]})
    by (vm_compute; reflexivity).
  assert (Hx : yield (envSource "x.yaml") = Ok {[ "FOO" := "YmF6" ]})
    by (vm_compute; reflexivity).
  assert (Hb : yield (fileSource "b.bin") = Ok {[ "b.bin" := "AQI=" ]})
    by (vm_compute; reflexivity).
  assert (Hz : yield (fileSource "Z=a.env")
               = Ok {[ "Z" := "Rk9PPWJhcgojY29tbWVudAo=" ]})
    by (vm_compute; reflexivity).
  destruct (C1_last_write_wins overwriting emptyWorld) as (_ & _ & _ & Hlast).
  apply (Hlast d _ 0%nat 1%nat (envSource "a.env") (envSource "x.yaml")
           {[ "FOO" := "YmFy" ]} {[ "FOO" := "YmF6" ]} "FOO" "YmFy" "YmF6"
           Hrun); [lia | reflexivity | exact Ha | vm_compute; reflexivity
                  | reflexivity | exact Hx | vm_compute; reflexivity |].
  intros j' src' y' Hlt Hj' Hy'.
  change (declared overwriting)
    with [envSource "a.env"; envSource "x.yaml"; fileSource "b.bin";
          fileSource "Z=a.env"] in Hj'.
  destruct j' as [|[|[|[|j']]]]; [lia | lia | | | discriminate Hj'].
  - injection Hj' as <-. rewrite Hb in Hy'. injection Hy' as <-.
    vm_compute. reflexivity.
  - injection Hj' as <-. rewrite Hz in Hy'. injection Hy' as <-.
    vm_compute. reflexivity.
Defined.

(** The binary file of the example: its two bytes are stored as
    ["AQI="], and decoding gives the two bytes back. *)
Lemma C2_witness :
  base64.DecodeString (base64.EncodeToString twoBytes) = Some twoBytes
  /\ exists w', parseFileSource "b.bin" emptyWorld = (Ok tt, w')
                /\ data w' !! "b.bin" = Some (base64.EncodeToString twoBytes).
Proof.
  destruct (C2_roundtrip_encoding twoBytes)
    as (Hroundtrip & _ & _ & Hfile & _ & _).
  split; [exact Hroundtrip|].
  apply (Hfile "b.bin" "b.bin" "b.bin" twoBytes emptyWorld);
    vm_compute; reflexivity.
Defined.

Lemma C3_witness :
  parseFileName "conf/app.key" = Ok ("app.key", "conf/app.key")
  /\ parseFileName ("tls" +:+ String "=" "certs/tls.crt")
     = Ok ("tls", "certs/tls.crt")
  /\ parseFileName "a=b=c=d"
     = Err (errNew "key names or file paths cannot contain '='").
Proof.
  destruct C3_parseFileName as (Hnone & Hbase & Hone & Hmany & _).
  split; [|split].
  - rewrite (Hnone "conf/app.key" eq_refl).
    destruct (Hbase "conf" "app.key" ltac:(discriminate) eq_refl) as [_ Hkey].
    change ("conf" +:+ String "/" "app.key") with "conf/app.key" in Hkey.
    rewrite Hkey. reflexivity.
  - exact (Hone "tls" "certs/tls.crt" eq_refl eq_refl).
  - apply Hmany. vm_compute. lia.
Defined.

(** The document [OK=1], then an indented [FOO]: line 0 stores its
    pair, line 1 has no ['='] and fails with its number and its
    trimmed text. *)
Lemma C4_witness :
  parseDotEnvContent ("OK=1" +:+ nl +:+ tab +:+ "FOO") emptyWorld
  = (Err (errWrap (errNew "requires value: FOO") "line 1"),
     {| data := {[ "OK" := "MQ==" ]}; reads := []; stores := ["OK"] |}).
Proof.
  destruct (C4_dotenv_rules ("OK=1" +:+ nl +:+ tab +:+ "FOO") emptyWorld)
    as (_ & _ & _ & _ & Hline).
  destruct (Hline ["OK=1"] (tab +:+ "FOO") []
              {| data := {[ "OK" := "MQ==" ]}; reads := []; stores := ["OK"] |})
    as (_ & _ & Hnovalue & _).
  - vm_compute. reflexivity.
  - vm_compute. reflexivity.
  - apply Hnovalue.
    + vm_compute. reflexivity.
    + vm_compute. discriminate.
    + vm_compute. reflexivity.
    + vm_compute. reflexivity.
Defined.

(** [secret.bin] is classified as binary, is readable and decrypts: as
    an [envs] entry it is a format error, as a [files] entry it is
    stored whole. *)
Lemma C5_witness :
  parseEnvSource "secret.bin" emptyWorld
  = (Err (errNew "unknown file format, use dotenv, yaml or json"),
     logRead "secret.bin" emptyWorld)
  /\ parseFileSource "secret.bin" emptyWorld
     = (Ok tt, {| data := <["secret.bin" := base64.EncodeToString "payload"]>
                            (data emptyWorld);
                  reads := reads emptyWorld ++ ["secret.bin"];
                  stores := stores emptyWorld ++ ["secret.bin"] |}).
Proof.
  destruct (C5_format_asymmetry "secret.bin" emptyWorld) as (_ & Henv & Hfile).
  split.
  - destruct Henv as (_ & _ & _ & Hformat); [vm_compute; reflexivity|].
    apply (Hformat "payload" "payload"); vm_compute; reflexivity.
  - apply (Hfile "secret.bin" "secret.bin" "payload" "payload");
      vm_compute; reflexivity.
Defined.

(** A descriptor of kind [Secret] that lists sources: only the
    descriptor is read. *)
Lemma C6_witness :
  exists e,
    processSopsSecretGenerator "wrong.yaml" emptyWorld
    = (Err e, logRead "wrong.yaml" emptyWorld)
    /\ reads (logRead "wrong.yaml" emptyWorld) = ["wrong.yaml"].
Proof.
  destruct (C6_descriptor_rejection "wrong.yaml" "kind: Secret" wrongKind
              emptyWorld) as (e & _ & Hrun & Hreads & _).
  - vm_compute. reflexivity.
  - vm_compute. reflexivity.
  - right. left. vm_compute. discriminate.
  - exists e. split; [exact Hrun | exact Hreads].
Defined.

(** A descriptor with its own annotation, a behavior and the name
    suffix hash left on. *)
Lemma C7_witness :
  match fst (generateSecret hashed emptyWorld) with
  | Ok secret =>
      Annotations (secretObjectMeta secret) !! "team" = Some "infra"
      /\ Annotations (secretObjectMeta secret) !! needsHashKey = Some "true"
      /\ Annotations (secretObjectMeta secret) !! behaviorKey = Some "replace"
  | Err _ => False
  end.
Proof.
  destruct (generateSecret hashed emptyWorld) as [[secret|e] w'] eqn:Hrun;
    cbn [fst]; [|vm_compute in Hrun; discriminate Hrun].
  destruct (C7_annotation_policy hashed emptyWorld w' secret Hrun)
    as (Hother & Hhash & _ & Hbehavior & _).
  split; [|split].
  - rewrite Hother; [vm_compute; reflexivity | discriminate | discriminate].
  - apply Hhash. reflexivity.
  - apply Hbehavior. discriminate.
Defined.

(** The same two dotenv files in the two orders give the same map. *)
Lemma C8_witness :
  match fst (parseInput swapped1 emptyWorld),
        fst (parseInput swapped2 emptyWorld) with
  | Ok d, Ok d' => d = d'
  | _, _ => False
  end.
Proof.
  assert (Ha : yield (envSource "a.env") = Ok {[ "FOO" := "YmFy" ]})
    by (vm_compute; reflexivity).
  assert (Hab : yield (envSource "ab.env")
                = Ok {[ "A" := "MQ=="; "B" := "Mg==" ]})
    by (vm_compute; reflexivity).
  assert (Hdisjoint : forall (y y' : kvMap) K,
    (y = {[ "FOO" := "YmFy" ]} /\ y' = {[ "A" := "MQ=="; "B" := "Mg==" ]})
    \/ (y' = {[ "FOO" := "YmFy" ]} /\ y = {[ "A" := "MQ=="; "B" := "Mg==" ]}) ->
    is_Some (y !! K) -> y' !! K = None).
  { intros y y' K [[-> ->]|[-> ->]] [v Hv].
    - apply lookup_singleton_Some in Hv as [<- _]. vm_compute. reflexivity.
    - apply lookup_insert_Some in Hv as [[<- _]|[_ Hv]];
        [vm_compute; reflexivity|].
      apply lookup_singleton_Some in Hv as [<- _]. vm_compute. reflexivity. }
  destruct (parseInput swapped1 emptyWorld) as [[d|e] w1] eqn:Hrun;
    cbn [fst]; [|vm_compute in Hrun; discriminate Hrun].
  destruct (parseInput swapped2 emptyWorld) as [[d'|e] w1'] eqn:Hrun';
    cbn [fst]; [|vm_compute in Hrun'; discriminate Hrun'].
  apply (C8_unordered_data swapped1 swapped2 emptyWorld emptyWorld w1 w1'
           d d' Hrun Hrun').
  - intros src.
    change (declared swapped1) with [envSource "a.env"; envSource "ab.env"].
    change (declared swapped2) with [envSource "ab.env"; envSource "a.env"].
    rewrite !elem_of_cons. tauto.
  - intros i j src src' y y' K Hij Hi Hj Hy Hy'.
    change (declared swapped1) with [envSource "a.env"; envSource "ab.env"]
      in Hi, Hj.
    apply Hdisjoint.
    destruct i as [|[|i]], j as [|[|j]]; try discriminate; try congruence;
      injection Hi as <-; injection Hj as <-; rewrite ?Ha, ?Hab in *;
      injection Hy as <-; injection Hy' as <-; auto.
  - intros i j src src' y y' K Hij Hi Hj Hy Hy'.
    change (declared swapped2) with [envSource "ab.env"; envSource "a.env"]
      in Hi, Hj.
    apply Hdisjoint.
    destruct i as [|[|i]], j as [|[|j]]; try discriminate; try congruence;
      injection Hi as <-; injection Hj as <-; rewrite ?Ha, ?Hab in *;
      injection Hy as <-; injection Hy' as <-; auto.
Defined.

(** [a.env] resolves, [tab.env] fails at its line 1: neither
    [ab.env] nor [b.bin] is read, and the message names the source and
    the line. *)
Lemma C9_witness :
  parseInput failing emptyWorld = (Err failingError, failingWorld)
  /\ generateSecret failing emptyWorld = (Err failingError, failingWorld)
  /\ Error failingError = "env source tab.env: line 1: requires value: FOO"
  /\ strings.Contains (Error failingError) "tab.env" = true.
Proof.
  destruct (C9_first_failure failing [envSource "a.env"]
              [envSource "ab.env"; fileSource "b.bin"] (envSource "tab.env")
              emptyWorld
              {| data := {[ "FOO" := "YmFy" ]}; reads := ["a.env"];
                 stores := ["FOO"] |}
              failingWorld (errWrap (errNew "requires value: FOO") "line 1"))
    as (Hparse & Hgenerate & _ & _ & Herror & Hcontains & _).
  - reflexivity.
  - vm_compute. reflexivity.
  - vm_compute. reflexivity.
  - split; [exact Hparse|]. split; [exact Hgenerate|].
    split; [reflexivity | exact Hcontains].
Defined.

Lemma C10_witness :
  exists k v,
    bytes.TrimLeftFunc " K=" unicode.IsSpace = k +:+ String "=" v
    /\ strings.Count k "=" = 0%nat
    /\ parseDotEnvLine " K=" emptyWorld
       = (Ok tt, {| data := <[k := base64.EncodeToString v]> (data emptyWorld);
                    reads := reads emptyWorld;
                    stores := stores emptyWorld ++ [k] |}).
Proof.
  refine (proj1 (C10_dotenv_empty_sides " K=" emptyWorld _ _ _ _)).
  - vm_compute. reflexivity.
  - vm_compute. discriminate.
  - vm_compute. reflexivity.
  - vm_compute. lia.
Defined.

(** * Where the specification and the program part *)

(** C4. An indented line without ['=']: the message holds the trimmed
    text, not the line as it stands in the document.  A line of 65536
    bytes without ['=']: the document fails with the scanner's error,
    which holds no line number. *)
Lemma C4_counterexample :
  (utf8.Valid (tab +:+ "FOO") = true
   /\ strings.Count (tab +:+ "FOO") "=" = 0%nat
   /\ exists e w',
        parseDotEnvContent (tab +:+ "FOO") emptyWorld = (Err e, w')
        /\ Error e = "line 0: requires value: FOO"
        /\ strings.Contains (Error e) (tab +:+ "FOO") = false)
  /\ (utf8.Valid tooLongLine = true
      /\ strings.HasPrefix (bytes.TrimLeftFunc tooLongLine unicode.IsSpace) "#"
         = false
      /\ strings.Count tooLongLine "=" = 0%nat
      /\ len tooLongLine = 65536
      /\ exists e w',
           parseDotEnvContent tooLongLine emptyWorld = (Err e, w')
           /\ Error e = "bufio.Scanner: token too long"
           /\ strings.Contains (Error e) "line 0" = false).
Proof.
  split.
  - split; [vm_compute; reflexivity|]. split; [vm_compute; reflexivity|].
    eexists. eexists. split; [vm_compute; reflexivity|].
    split; vm_compute; reflexivity.
  - split; [vm_compute; reflexivity|]. split; [vm_compute; reflexivity|].
    split; [vm_compute; reflexivity|]. split; [vm_compute; reflexivity|].
    eexists. eexists. split; [vm_compute; reflexivity|].
    split; vm_compute; reflexivity.
Qed.

(** C5. An [envs] entry that is classified as binary and cannot be
    read: the error is the one of the file system, not the format
    error. *)
Lemma C5_counterexample :
  formatForPath "missing.bin" = "binary"
  /\ (exists e w',
        parseEnvSource "missing.bin" emptyWorld = (Err e, w')
        /\ Error e = "open missing.bin: no such file or directory"
        /\ e <> errNew "unknown file format, use dotenv, yaml or json")
  /\ exists e w',
       parseInput unreadable emptyWorld = (Err e, w')
       /\ Error e
          = "env source missing.bin: open missing.bin: no such file or directory"
       /\ strings.Contains (Error e) "unknown file format" = false.
Proof.
  split; [vm_compute; reflexivity|]. split.
  - eexists. eexists. split; [vm_compute; reflexivity|].
    split; [vm_compute; reflexivity | discriminate].
  - eexists. eexists. split; [vm_compute; reflexivity|].
    split; vm_compute; reflexivity.
Qed.

(** C7. A descriptor that sets [disableNameSuffixHash] and no
    [behavior], and whose own annotations use the two generated keys:
    both annotations are in the output. *)
Lemma C7_counterexample :
  DisableNameSuffixHash annotated = true
  /\ Behavior annotated = ""
  /\ exists secret w',
       generateSecret annotated emptyWorld = (Ok secret, w')
       /\ Annotations (secretObjectMeta secret) !! needsHashKey = Some "true"
       /\ Annotations (secretObjectMeta secret) !! behaviorKey = Some "merge".
Proof.
  split; [reflexivity|]. split; [reflexivity|].
  eexists. eexists. split; [vm_compute; reflexivity|].
  split; vm_compute; reflexivity.
Qed.

(** C8. Two runs that store the keys [A] and [B] in opposite orders
    return the same Secret: nothing computed from the Secret, and so
    no serialized output, shows the order of insertion of both. *)
Lemma C8_counterexample :
  insertionOrder (stores (snd (generateSecret firstAthenB emptyWorld)))
  = ["A"; "B"]
  /\ insertionOrder (stores (snd (generateSecret firstBthenA emptyWorld)))
     = ["B"; "A"]
  /\ fst (generateSecret firstAthenB emptyWorld)
     = fst (generateSecret firstBthenA emptyWorld)
  /\ ~ exists presented : result Secret -> list string,
         forall input,
           input = firstAthenB \/ input = firstBthenA ->
           presented (fst (generateSecret input emptyWorld))
           = insertionOrder (stores (snd (generateSecret input emptyWorld))).
Proof.
  assert (Hab : insertionOrder
                  (stores (snd (generateSecret firstAthenB emptyWorld)))
                = ["A"; "B"]) by (vm_compute; reflexivity).
  assert (Hba : insertionOrder
                  (stores (snd (generateSecret firstBthenA emptyWorld)))
                = ["B"; "A"]) by (vm_compute; reflexivity).
  assert (Hsame : fst (generateSecret firstAthenB emptyWorld)
                  = fst (generateSecret firstBthenA emptyWorld))
    by (vm_compute; reflexivity).
  split; [exact Hab|]. split; [exact Hba|]. split; [exact Hsame|].
  intros [presented Hpresented].
  pose proof (Hpresented firstAthenB (or_introl eq_refl)) as H1.
  pose proof (Hpresented firstBthenA (or_intror eq_refl)) as H2.
  rewrite Hab in H1. rewrite Hba, <- Hsame, H1 in H2. discriminate H2.
Qed.

(** C9. A dotenv source with a line of 65536 bytes: the run fails
    with a message that names the source but no line. *)
Lemma C9_counterexample :
  formatForPath "big.env" = "dotenv"
  /\ exists e w',
       parseInput tooLong emptyWorld = (Err e, w')
       /\ Error e = "env source big.env: bufio.Scanner: token too long"
       /\ strings.Contains (Error e) "line" = false.
Proof.
  split; [vm_compute; reflexivity|].
  eexists. eexists. split; [vm_compute; reflexivity|].
  split; vm_compute; reflexivity.
Qed.

(** C10. A line with a key, a ['='] and a byte that is not UTF-8: it
    is not blank, is no comment and holds a ['='], and yet it fails. *)
Lemma C10_counterexample :
  bytes.TrimLeftFunc notUTF8 unicode.IsSpace = notUTF8
  /\ notUTF8 <> ""
  /\ strings.HasPrefix notUTF8 "#" = false
  /\ strings.Count notUTF8 "=" = 1%nat
  /\ parseDotEnvLine notUTF8 emptyWorld
     = (Err (errNew "invalid utf8 sequence"), emptyWorld).
Proof.
  split; [vm_compute; reflexivity|]. split; [discriminate|].
  repeat split; vm_compute; reflexivity.
Qed.

(** * The further properties at concrete inputs *)

(** X1. The failing descriptor stops at [tab.env], its second
    source. *)
Lemma parseInput_fails_at_a_source_witness :
  parseInput failing emptyWorld = (Err failingError, failingWorld)
  /\ exists pre src post,
       declared failing = pre ++ src :: post
       /\ strings.HasPrefix (Error failingError) (sourceLabel src) = true.
Proof.
  assert (Hrun : parseInput failing emptyWorld
                 = (Err failingError, failingWorld))
    by (vm_compute; reflexivity).
  split; [exact Hrun|].
  destruct (parseInput_fails_at_a_source failing emptyWorld) as [Hfail _].
  destruct (Hfail _ _ Hrun)
    as (pre & src & post & w1 & e0 & Hdeclared & _ & _ & _ & Hprefix).
  exists pre, src, post. split; [exact Hdeclared | exact Hprefix].
Defined.

(** X2. [a.env] resolved into a map that holds [FOO] and [OK]
    already. *)
Lemma resolve_context_free_witness :
  exists w',
    resolve (envSource "a.env") failingWorld = (Ok tt, w')
    /\ data w' !! "FOO" = Some "YmFy"
    /\ data w' !! "OK" = data failingWorld !! "OK".
Proof.
  destruct (resolve_context_free (envSource "a.env") failingWorld)
    as [_ Hyield].
  destruct (Hyield {[ "FOO" := "YmFy" ]}) as (w' & Hrun & Hin & Hout);
    [vm_compute; reflexivity|].
  exists w'. split; [exact Hrun|]. split.
  - apply Hin. vm_compute. reflexivity.
  - apply Hout. vm_compute. reflexivity.
Defined.

(** X3. The key [Z] of the overwriting descriptor comes from its
    file source [Z=a.env]. *)
Lemma parseInput_keys_witness :
  exists d,
    fst (parseInput overwriting emptyWorld) = Ok d /\ is_Some (d !! "Z").
Proof.
  destruct (parseInput overwriting emptyWorld) as [[d|e] w'] eqn:Hrun;
    [|vm_compute in Hrun; discriminate Hrun].
  exists d. split; [reflexivity|].
  apply (parseInput_keys overwriting emptyWorld w' d Hrun "Z").
  exists (fileSource "Z=a.env"), {[ "Z" := "Rk9PPWJhcgojY29tbWVudAo=" ]}.
  split; [|split].
  - change (declared overwriting)
      with [envSource "a.env"; envSource "x.yaml"; fileSource "b.bin";
            fileSource "Z=a.env"].
    rewrite !elem_of_cons. do 3 right. left. reflexivity.
  - vm_compute. reflexivity.
  - exists "Rk9PPWJhcgojY29tbWVudAo=". vm_compute. reflexivity.
Defined.

(** X4. The accepted descriptor has four sources: the run reads the
    descriptor and four files. *)
Lemma run_reads_witness :
  exists output w' fns,
    @processSopsSecretGenerator Demo2.external "gen.yaml" emptyWorld
    = (Ok output, w')
    /\ reads w' = "gen.yaml" :: fns
    /\ length fns = 4%nat.
Proof.
  destruct (@processSopsSecretGenerator Demo2.external "gen.yaml" emptyWorld)
    as [[output|e] w'] eqn:Hrun; [|vm_compute in Hrun; discriminate Hrun].
  destruct (@run_reads Demo2.external "gen.yaml" emptyWorld w') as [Hok _].
  destruct (Hok output Hrun) as (input & fns & Hinput & Hpaths & Hreads).
  assert (Haccepted : @readInput Demo2.external "gen.yaml" emptyWorld
                      = (Ok Demo2.accepted, logRead "gen.yaml" emptyWorld))
    by (vm_compute; reflexivity).
  rewrite Haccepted in Hinput. injection Hinput as <-.
  exists output, w', fns. split; [reflexivity|]. split; [exact Hreads|].
  symmetry. exact (Forall2_length _ _ _ Hpaths).
Defined.

(** X5. The value of [FOO] in the map of the overwriting
    descriptor. *)
Lemma parseInput_values_decode_witness :
  exists d V,
    fst (parseInput overwriting emptyWorld) = Ok d
    /\ d !! "FOO" = Some (base64.EncodeToString V)
    /\ base64.DecodeString (base64.EncodeToString V) = Some V.
Proof.
  pose (d := ({[ "FOO" := "YmF6"; "b.bin" := "AQI=";
                 "Z" := "Rk9PPWJhcgojY29tbWVudAo=" ]} : kvMap)).
  assert (Hrun : parseInput overwriting emptyWorld
                 = (Ok d, snd (parseInput overwriting emptyWorld)))
    by (vm_compute; reflexivity).
  destruct (parseInput_values_decode overwriting emptyWorld _ d Hrun
              "FOO" "YmF6") as (V & Hv & Hdecode);
    [vm_compute; reflexivity|].
  exists d, V. split; [rewrite Hrun; reflexivity|].
  rewrite <- Hv. split; [vm_compute; reflexivity | exact Hdecode].
Defined.

(** X6. The run of the accepted descriptor prints a Secret. *)
Lemma run_serializes_a_secret_witness :
  exists secret w',
    @processSopsSecretGenerator Demo2.external "gen.yaml" emptyWorld
    = (Ok "kind: Secret, name: accepted", w')
    /\ @yamlMarshal Demo2.external secret = Ok "kind: Secret, name: accepted"
    /\ secretTypeMeta secret = {| APIVersion := "v1"; Kind := "Secret" |}
    /\ Name (secretObjectMeta secret) <> "".
Proof.
  destruct (@processSopsSecretGenerator Demo2.external "gen.yaml" emptyWorld)
    as [r w'] eqn:Hrun.
  assert (Hr : r = Ok "kind: Secret, name: accepted").
  { change r with (fst (r, w')). rewrite <- Hrun. vm_compute. reflexivity. }
  subst r.
  destruct (@run_serializes_a_secret Demo2.external _ _ _ _ Hrun)
    as (input & secret & _ & Hmarshal & Hmeta & _ & Hname & _).
  exists secret, w'. split; [reflexivity|]. split; [exact Hmarshal|].
  split; [exact Hmeta | exact Hname].
Defined.

(** X7. The command with no argument, with the accepted descriptor
    and with a descriptor that lists a file sops cannot decrypt. *)
Lemma main_contract_witness :
  fst (@main Demo2.external Demo2.sopsUserError ["SopsSecretGenerator"]
         emptyWorld)
  = {| exitCode := 1; stdout := "";
       stderr := "usage: SopsSecretGenerator FILE" +:+ nl |}
  /\ exitCode (fst (@main Demo2.external Demo2.sopsUserError
                      ["SopsSecretGenerator"; "gen.yaml"] emptyWorld))
     = 0%nat
  /\ fst (@main Demo2.external Demo2.sopsUserError
            ["SopsSecretGenerator"; "undecryptable.yaml"] emptyWorld)
     = {| exitCode := 2; stdout := "";
          stderr := "Error: env source plain.yaml: sops metadata not found"
                    +:+ nl +:+ "The file is not encrypted with sops."
                    +:+ nl |}.
Proof.
  split; [|split].
  - destruct (@main_contract Demo2.external Demo2.sopsUserError
                ["SopsSecretGenerator"] emptyWorld) as [Husage _].
    rewrite Husage; [reflexivity|]. cbn [length]. lia.
  - destruct (@main_contract Demo2.external Demo2.sopsUserError
                ["SopsSecretGenerator"; "gen.yaml"] emptyWorld) as [_ Hone].
    destruct (Hone _ _ eq_refl) as (_ & _ & Hiff).
    apply Hiff.
    exists "kind: Secret, name: accepted",
      (snd (@processSopsSecretGenerator Demo2.external "gen.yaml" emptyWorld)).
    vm_compute. reflexivity.
  - destruct (@main_contract Demo2.external Demo2.sopsUserError
                ["SopsSecretGenerator"; "undecryptable.yaml"] emptyWorld)
      as [_ Hone].
    destruct (Hone _ _ eq_refl) as (_ & Herr & _).
    destruct (@processSopsSecretGenerator Demo2.external "undecryptable.yaml"
                emptyWorld) as [r w'] eqn:Hrun.
    assert (Hr : r = Err (errWrap (errNew "sops metadata not found")
                            "env source plain.yaml")).
    { change r with (fst (r, w')). rewrite <- Hrun. vm_compute. reflexivity. }
    subst r.
    destruct (Herr _ _ eq_refl)
      as (out & Hmain & Hcode & Hstdout & _ & _ & Huser).
    rewrite Hmain. cbn [fst].
    specialize (Huser "The file is not encrypted with sops." eq_refl).
    destruct out as [code out err]. cbn [exitCode stdout stderr] in *.
    rewrite Hcode, Hstdout, Huser. vm_compute. reflexivity.
Defined.

(** X8. The yaml document of the example written over a map that
    holds [FOO] and [OK]. *)
Lemma structured_content_witness :
  exists w',
    parseYAMLContent "FOO: baz" failingWorld = (Ok tt, w')
    /\ data w' !! "FOO" = Some (base64.EncodeToString "baz")
    /\ data w' !! "OK" = data failingWorld !! "OK".
Proof.
  destruct (structured_content "FOO: baz" failingWorld) as (Hyaml & _).
  destruct (Hyaml {[ "FOO" := "baz" ]})
    as (w' & Hrun & _ & Hin & Hout & _); [vm_compute; reflexivity|].
  exists w'. split; [exact Hrun|]. split.
  - apply Hin. vm_compute. reflexivity.
  - apply Hout. vm_compute. reflexivity.
Defined.

(** X9. The accepted descriptor is accepted. *)
Lemma readInput_accepts_witness :
  @readInput Demo2.external "gen.yaml" emptyWorld
  = (Ok Demo2.accepted, logRead "gen.yaml" emptyWorld).
Proof.
  destruct (@readInput_accepts Demo2.external "gen.yaml" emptyWorld)
    as (Hiff & _).
  apply Hiff. split; [|split; [|split; [|split]]].
  - exists "kind: SopsSecretGenerator". split; vm_compute; reflexivity.
  - vm_compute. reflexivity.
  - vm_compute. reflexivity.
  - vm_compute. discriminate.
  - reflexivity.
Defined.

(** X10. A [files] entry with a key. *)
Lemma parseFileName_inverse_witness :
  parseFileName "tls=certs/tls.crt" = Ok ("tls", "certs/tls.crt")
  /\ "tls" <> ""
  /\ strings.Count "tls" "=" = 0%nat
  /\ strings.Count "certs/tls.crt" "=" = 0%nat
  /\ ("tls=certs/tls.crt" = "certs/tls.crt"
      /\ "tls" = path.Base "certs/tls.crt"
      \/ "tls=certs/tls.crt" = "tls" +:+ String "=" "certs/tls.crt"
         /\ "certs/tls.crt" <> "")
  /\ ("certs/tls.crt" = "" -> "tls=certs/tls.crt" = "").
Proof.
  split; [vm_compute; reflexivity|].
  apply (parseFileName_inverse "tls=certs/tls.crt" "tls" "certs/tls.crt").
  vm_compute. reflexivity.
Defined.


(** X12. A document that sets [K] twice and names it in a comment. *)
Lemma dotenv_last_line_wins_witness :
  exists w',
    parseDotEnvContent
      ("K=old" +:+ nl +:+ "  K=new" +:+ nl +:+ "# K=comment" +:+ nl)
      emptyWorld
    = (Ok tt, w')
    /\ data w' !! "K" = Some (base64.EncodeToString "new").
Proof.
  destruct (parseDotEnvContent
              ("K=old" +:+ nl +:+ "  K=new" +:+ nl +:+ "# K=comment" +:+ nl)
              emptyWorld) as [[[]|e] w'] eqn:Hrun;
    [|vm_compute in Hrun; discriminate Hrun].
  exists w'. split; [reflexivity|].
  destruct (dotenv_last_line_wins _ _ _ Hrun) as [Hpair _].
  apply (Hpair ["K=old"] "  K=new" ["# K=comment"] "K" "new").
  - vm_compute. reflexivity.
  - vm_compute. reflexivity.
  - vm_compute. reflexivity.
  - vm_compute. reflexivity.
  - vm_compute. reflexivity.
  - intros l k' v' Hl _ _ Hcomment.
    apply list_elem_of_singleton in Hl. subst l.
    vm_compute in Hcomment. discriminate Hcomment.
Defined.


(** X14. [secret.bin] as an [envs] entry fails on its format and
    stores nothing. *)
Lemma failing_source_stores_witness :
  exists e w',
    parseEnvSource "secret.bin" failingWorld = (Err e, w')
    /\ data w' = data failingWorld
    /\ stores w' = stores failingWorld.
Proof.
  destruct (parseEnvSource "secret.bin" failingWorld) as [[[]|e] w'] eqn:Hrun;
    [vm_compute in Hrun; discriminate Hrun|].
  exists e, w'. split; [reflexivity|].
  destruct (failing_source_stores "secret.bin" failingWorld w' e)
    as (_ & Henv & _).
  apply Henv; [vm_compute; discriminate | exact Hrun].
Defined.

(** X15. The same file stored under its base name and under a key of
    its own. *)
Lemma stored_entry_determines_value_witness :
  parseFileName "b.bin" = Ok ("b.bin", "b.bin")
  /\ parseFileName "copy=b.bin" = Ok ("copy", "b.bin")
  /\ data (snd (parseFileSource "b.bin" emptyWorld)) !! "b.bin"
     = data (snd (parseFileSource "copy=b.bin" failingWorld)) !! "copy"
  /\ twoBytes = twoBytes.
Proof.
  assert (Hentries :
    data (snd (parseFileSource "b.bin" emptyWorld)) !! "b.bin"
    = data (snd (parseFileSource "copy=b.bin" failingWorld)) !! "copy")
    by (vm_compute; reflexivity).
  split; [vm_compute; reflexivity|]. split; [vm_compute; reflexivity|].
  split; [exact Hentries|].
  destruct stored_entry_determines_value as [_ Hfiles].
  apply (Hfiles "b.bin" "copy=b.bin" "b.bin" "copy" "b.bin" "b.bin"
           twoBytes twoBytes twoBytes twoBytes emptyWorld failingWorld);
    vm_compute; reflexivity.
Defined.

(** X16. The run of the descriptor that lists [plain.yaml] fails at
    that source. *)
Lemma run_error_origin_witness :
  exists e w' src,
    @processSopsSecretGenerator Demo2.external "undecryptable.yaml" emptyWorld
    = (Err e, w')
    /\ src ∈ declared Demo2.undecryptable
    /\ strings.HasPrefix (Error e) (sourceLabel src) = true.
Proof.
  destruct (@processSopsSecretGenerator Demo2.external "undecryptable.yaml"
              emptyWorld) as [[output|e] w'] eqn:Hrun;
    [vm_compute in Hrun; discriminate Hrun|].
  assert (Haccepted :
    @readInput Demo2.external "undecryptable.yaml" emptyWorld
    = (Ok Demo2.undecryptable, logRead "undecryptable.yaml" emptyWorld))
    by (vm_compute; reflexivity).
  destruct (@run_error_origin Demo2.external _ _ _ _ Hrun)
    as [[Hread _] | (input & Hinput & [(_ & src & Hin & Hprefix)
                                       | (secret & _ & _ & Hmarshal)])].
  - rewrite Haccepted in Hread. discriminate Hread.
  - rewrite Haccepted in Hinput. injection Hinput as <-.
    exists e, w', src. split; [reflexivity|]. split; [exact Hin | exact Hprefix].
  - vm_compute in Hmarshal. discriminate Hmarshal.
Defined.
